(** * Policy drift detection: the detection engine and its properties

    A shallow embedding of [src/drift_detector.py], [src/intent_parser.py],
    [src/explain.py] and of [backend/drift/detector.py], with the ingestion
    of [src/main.py], the policy extraction of
    [backend/nlp/policy_parser.py] and the document conversion of
    [backend/db/mongodb.py].

    Python values that reach the engine are [None], numbers and text.
    Numbers (Python [int] and [float]) are modelled as exact rationals:
    comparisons of Python numbers are exact, and the rounding performed by
    binary floating-point arithmetic is outside this model.  Exceptions are
    modelled by the [result] monad. *)

From Stdlib Require Import QArith String List Bool Lia.
From Stdlib Require Import Lqa Sorted.
From stdpp Require Import base option list gmap strings pretty.

#[local] Open Scope string_scope.
#[local] Open Scope list_scope.

(** ** Python values and exceptions *)

Inductive PyError : Type :=
| TypeError
| KeyError (key : string)
| ZeroDivisionError.

Inductive result (A : Type) : Type :=
| Ok (a : A)
| Err (e : PyError).
Arguments Ok {A} a.
Arguments Err {A} e.

#[global] Instance result_ret : MRet result := @Ok.
#[global] Instance result_bind : MBind result :=
  fun A B f m => match m with Ok a => f a | Err e => Err e end.

Definition is_Err {A} (r : result A) : Prop :=
  match r with Ok _ => False | Err _ => True end.

Inductive PyVal : Type :=
| VNone
| VNum (q : Q)
| VStr (s : string).

(** A record read from the CSV file, a Python [dict] from column name to
    value. *)
Abbreviation Record := (gmap string PyVal).

(** [d.get(k)] *)
Definition dict_get (d : Record) (k : string) : PyVal :=
  match d !! k with Some v => v | None => VNone end.

(** [d.get(k, dflt)] *)
Definition dict_get_or (d : Record) (k : string) (dflt : PyVal) : PyVal :=
  match d !! k with Some v => v | None => dflt end.

(** [d[k]] *)
Definition dict_getitem (d : Record) (k : string) : result PyVal :=
  match d !! k with Some v => Ok v | None => Err (KeyError k) end.

Definition Qltb (x y : Q) : bool := negb (Qle_bool y x).

(** [a < b]: numbers compare with numbers, text with text; every other
    combination raises [TypeError]. *)
Definition py_lt (a b : PyVal) : result bool :=
  match a, b with
  | VNum x, VNum y => Ok (Qltb x y)
  | VStr s, VStr t => Ok (String.ltb s t)
  | _, _ => Err TypeError
  end.

(** [a > b] *)
Definition py_gt (a b : PyVal) : result bool :=
  match a, b with
  | VNum x, VNum y => Ok (Qltb y x)
  | VStr s, VStr t => Ok (String.ltb t s)
  | _, _ => Err TypeError
  end.

(** [a != b] never raises. *)
Definition py_ne (a b : PyVal) : bool :=
  match a, b with
  | VNone, VNone => false
  | VNum x, VNum y => negb (Qeq_bool x y)
  | VStr s, VStr t => negb (String.eqb s t)
  | _, _ => true
  end.

(** [a - b]: defined on numbers only ([str] and [None] have no [-]). *)
Definition py_sub (a b : PyVal) : result Q :=
  match a, b with
  | VNum x, VNum y => Ok (x - y)%Q
  | _, _ => Err TypeError
  end.

(** [x / b] for a number [x]. *)
Definition py_truediv (x : Q) (b : PyVal) : result Q :=
  match b with
  | VNum y => if Qeq_bool y 0 then Err ZeroDivisionError else Ok (x / y)%Q
  | _ => Err TypeError
  end.

(** ** The policy intent *)

(** A [{min?, max?}] mapping; [None] is an absent key. *)
Record Band : Type := mkBand {
  b_min : option PyVal;
  b_max : option PyVal
}.

(** The value attached to a field in a target group's criteria. *)
Inductive Condition : Type :=
| CRange (b : Band)
| CScalar (v : PyVal).

(** The criteria keep the order of the document: the matching loop
    leaves at the first criterion that fails or raises. *)
Record TargetGroup : Type := mkTargetGroup {
  tg_name : string;
  tg_criteria : list (string * Condition)
}.

(** A constraint read from the policy document.  [constraint["type"]] and
    [constraint["metric"]] are read with a subscript and are text in every
    constraint considered here; the threshold and the scope are read with
    [get], and [None] is an absent key. *)
Record Constraint : Type := mkConstraint {
  c_type : string;
  c_metric : string;
  c_threshold : option PyVal;
  c_applies_to : option string
}.

Record PolicyIntent : Type := mkPolicyIntent {
  scheme_name : string;
  target_groups : list TargetGroup;
  constraints : list Constraint;
  target_metrics : gmap string Band
}.

(** [constraint.get("threshold")] *)
Definition get_threshold (c : Constraint) : PyVal :=
  match c_threshold c with Some v => v | None => VNone end.

(** [c.get("applies_to") == group_name or c.get("applies_to") == "all"] *)
Definition applies (group_name : string) (c : Constraint) : bool :=
  match c_applies_to c with
  | Some a => String.eqb a group_name || String.eqb a "all"
  | None => false
  end.

Definition get_constraints_for_group (p : PolicyIntent) (group_name : string)
  : list Constraint :=
  List.filter (applies group_name) (constraints p).

(** ** Constraint evaluator and severity scorer
    (identical in both detector files) *)

Definition check_metric_constraint (value : PyVal) (constraint : Constraint)
    (tm : gmap string Band) : result (bool * PyVal) :=
  let constraint_type := c_type constraint in
  let metric_name := c_metric constraint in
  if String.eqb constraint_type "minimum_coverage" then
    let threshold := get_threshold constraint in
    b ← py_lt value threshold; Ok (b, threshold)
  else if String.eqb constraint_type "temporal_consistency" then
    let threshold := get_threshold constraint in
    b ← py_gt value threshold; Ok (b, threshold)
  else if String.eqb constraint_type "resource_allocation" then
    let threshold := get_threshold constraint in
    b ← py_lt value threshold; Ok (b, threshold)
  else
    match tm !! metric_name with
    | Some metric_def =>
        let check_max :=
          match b_max metric_def with
          | Some hi =>
              above ← py_gt value hi;
              if (above : bool) then Ok (true, hi) else Ok (false, VNum 0)
          | None => Ok (false, VNum 0)
          end in
        match b_min metric_def with
        | Some lo =>
            below ← py_lt value lo;
            if (below : bool) then Ok (true, lo) else check_max
        | None => check_max
        end
    | None => Ok (false, VNum 0)
    end.

(** [constraint_type in ["minimum_coverage", "resource_allocation"]] *)
Definition shortfall_type (constraint_type : string) : bool :=
  String.eqb constraint_type "minimum_coverage"
  || String.eqb constraint_type "resource_allocation".

Definition calculate_severity (actual threshold : PyVal)
    (constraint_type : string) : result string :=
  diff ← (if shortfall_type constraint_type
          then py_sub threshold actual
          else py_sub actual threshold);
  ratio ← py_truediv diff threshold;
  let deviation := (ratio * 100)%Q in
  if Qltb 30 deviation then Ok "high"
  else if Qltb 15 deviation then Ok "medium"
  else Ok "low".

(** ** Findings

    [backend/drift/detector.py] adds a policy and a dataset identifier to
    a finding, copied from the arguments of the detectors, and stores the
    findings in the database once detection has returned; neither is part
    of this model. *)

Record DriftResult : Type := mkDriftResult {
  drift_type : string;
  district_id : PyVal;
  district_name : PyVal;
  constraint : Constraint;
  actual_value : PyVal;
  expected_threshold : PyVal;
  month : PyVal;
  severity : string
}.

(** A [for] loop over [l] that updates an accumulator and may raise. *)
Fixpoint foldlM {A B} (f : A → B → result A) (a : A) (l : list B) : result A :=
  match l with
  | [] => Ok a
  | x :: l' => a' ← f a x; foldlM f a' l'
  end.

(** A [for] loop whose body either falls through to the next iteration
    ([true]) or leaves the function with [return False]. *)
Fixpoint all_loop {B} (body : B → result bool) (l : list B) : result bool :=
  match l with
  | [] => Ok true
  | x :: l' => go ← body x; if (go : bool) then all_loop body l' else Ok false
  end.

(** ** Cohort matching *)

Definition band_lookup (b : Band) (key : string) : option PyVal :=
  if String.eqb key "min" then b_min b
  else if String.eqb key "max" then b_max b
  else None.

Definition is_substring (key s : string) : bool :=
  match String.index 0 key s with Some _ => true | None => false end.

(** [key in conditions]: key membership for a mapping, substring test for
    text, [TypeError] for a number or [None]. *)
Definition cond_contains (key : string) (conditions : Condition) : result bool :=
  match conditions with
  | CRange b => Ok (bool_decide (is_Some (band_lookup b key)))
  | CScalar (VStr s) => Ok (is_substring key s)
  | CScalar _ => Err TypeError
  end.

(** [conditions[key]] *)
Definition cond_getitem (key : string) (conditions : Condition) : result PyVal :=
  match conditions with
  | CRange b =>
      match band_lookup b key with Some v => Ok v | None => Err (KeyError key) end
  | CScalar _ => Err TypeError
  end.

(** ** The detectors

    The two detector files differ in how a record is matched against a
    target group and in how the district name is read; the detectors are
    written once over these two operations. *)

(** Equality of dictionary keys. *)
Definition key_eqb (a b : PyVal) : bool :=
  match a, b with
  | VNone, VNone => true
  | VNum x, VNum y => Qeq_bool x y
  | VStr s, VStr t => String.eqb s t
  | _, _ => false
  end.

(** [district_groups[district_id].append(record)] on an insertion-ordered
    [defaultdict(list)]. *)
Fixpoint group_insert (k : PyVal) (r : Record)
    (groups : list (PyVal * list Record)) : list (PyVal * list Record) :=
  match groups with
  | [] => [(k, [r])]
  | (k', h) :: rest =>
      if key_eqb k k' then (k', h ++ [r]) :: rest
      else (k', h) :: group_insert k r rest
  end.

Definition group_step (groups : list (PyVal * list Record)) (record : Record)
  : result (list (PyVal * list Record)) :=
  district_id ← dict_getitem record "district_id";
  Ok (group_insert district_id record groups).

Definition group_records (implementation_data : list Record)
  : result (list (PyVal * list Record)) :=
  foldlM group_step [] implementation_data.

Definition is_temporal (c : Constraint) : bool :=
  String.eqb (c_type c) "temporal_consistency".

(** [record.get("month", "unknown")] *)
Definition month_of (record : Record) : PyVal :=
  dict_get_or record "month" (VStr "unknown").

Section Detector.

Variable matches_target_group : Record → TargetGroup → result bool.
Variable get_district_name : Record → result PyVal.

Fixpoint classify_district (district_data : Record)
    (groups : list TargetGroup) : result string :=
  match groups with
  | [] => Ok "unclassified"
  | target_group :: rest =>
      m ← matches_target_group district_data target_group;
      if (m : bool) then Ok (tg_name target_group)
      else classify_district district_data rest
  end.

(** One iteration of the loop over the applicable constraints. *)
Definition metric_step (district_data : Record) (p : PolicyIntent)
    (month : PyVal) (drifts : list DriftResult) (constraint : Constraint)
  : result (list DriftResult) :=
  if is_temporal constraint then Ok drifts
  else
    let metric_name := c_metric constraint in
    let actual_value := dict_get district_data metric_name in
    match actual_value with
    | VNone => Ok drifts
    | _ =>
        '(is_violated, threshold) ←
          check_metric_constraint actual_value constraint (target_metrics p);
        if (is_violated : bool) then
          severity ← calculate_severity actual_value threshold
                       (c_type constraint);
          did ← dict_getitem district_data "district_id";
          dname ← get_district_name district_data;
          Ok (drifts ++ [mkDriftResult "metric" did dname constraint
                           actual_value threshold month severity])
        else Ok drifts
    end.

Definition detect_metric_drift (district_data : Record) (p : PolicyIntent)
    (month : PyVal) : result (list DriftResult) :=
  district_group ← classify_district district_data (target_groups p);
  foldlM (metric_step district_data p month) []
         (get_constraints_for_group p district_group).

(** One iteration of the inner loop over the history. *)
Definition temporal_record_step (constraint : Constraint)
    (drifts : list DriftResult) (record : Record)
  : result (list DriftResult) :=
  let threshold := get_threshold constraint in
  let value := dict_get record (c_metric constraint) in
  match value with
  | VNone => Ok drifts
  | _ =>
      exceeds ← py_gt value threshold;
      if (exceeds : bool) then
        let month := month_of record in
        severity ← calculate_severity value threshold "temporal_consistency";
        did ← dict_getitem record "district_id";
        dname ← get_district_name record;
        Ok (drifts ++ [mkDriftResult "temporal" did dname constraint
                         value threshold month severity])
      else Ok drifts
  end.

Definition temporal_step (district_history : list Record)
    (drifts : list DriftResult) (constraint : Constraint)
  : result (list DriftResult) :=
  foldlM (temporal_record_step constraint) drifts district_history.

Definition detect_temporal_drift (district_history : list Record)
    (p : PolicyIntent) : result (list DriftResult) :=
  if (length district_history <? 2)%nat then Ok []
  else
    let temporal_constraints := List.filter is_temporal (constraints p) in
    foldlM (temporal_step district_history) [] temporal_constraints.

Definition record_step (p : PolicyIntent) (all_drifts : list DriftResult)
    (record : Record) : result (list DriftResult) :=
  let month := month_of record in
  metric_drifts ← detect_metric_drift record p month;
  Ok (all_drifts ++ metric_drifts).

Definition region_step (p : PolicyIntent) (all_drifts : list DriftResult)
    (group : PyVal * list Record) : result (list DriftResult) :=
  let history := snd group in
  all_drifts' ← foldlM (record_step p) all_drifts history;
  temporal_drifts ← detect_temporal_drift history p;
  Ok (all_drifts' ++ temporal_drifts).

Definition detect_all_drift (implementation_data : list Record)
    (p : PolicyIntent) : result (list DriftResult) :=
  district_groups ← group_records implementation_data;
  foldlM (region_step p) [] district_groups.

End Detector.

Module Cli.

(** The body of the loop of [matches_target_group] in
    [src/intent_parser.py]. *)
Definition criterion_holds (district_data : Record)
    (fc : string * Condition) : result bool :=
  let '(field, conditions) := fc in
  let value := dict_get district_data field in
  match value with
  | VNone => Ok false
  | _ =>
      has_min ← cond_contains "min" conditions;
      below ← (if (has_min : bool)
               then lo ← cond_getitem "min" conditions; py_lt value lo
               else Ok false);
      if (below : bool) then Ok false
      else
        has_max ← cond_contains "max" conditions;
        above ← (if (has_max : bool)
                 then hi ← cond_getitem "max" conditions; py_gt value hi
                 else Ok false);
        if (above : bool) then Ok false else Ok true
  end.

Definition matches_target_group (district_data : Record)
    (target_group : TargetGroup) : result bool :=
  all_loop (criterion_holds district_data) (tg_criteria target_group).

(** [district_data["district_name"]] *)
Definition get_district_name (district_data : Record) : result PyVal :=
  dict_getitem district_data "district_name".

Definition classify_district := classify_district matches_target_group.
Definition metric_step := metric_step get_district_name.
Definition detect_metric_drift :=
  detect_metric_drift matches_target_group get_district_name.
Definition detect_temporal_drift := detect_temporal_drift get_district_name.
Definition detect_all_drift :=
  detect_all_drift matches_target_group get_district_name.

End Cli.

Module Backend.

(** The body of the loop of [matches_target_group] in
    [backend/drift/detector.py]. *)
Definition criterion_holds (district_data : Record)
    (fc : string * Condition) : result bool :=
  let '(field, conditions) := fc in
  let value := dict_get district_data field in
  match value with
  | VNone => Ok false
  | _ =>
      match conditions with
      | CRange b =>
          below ← match b_min b with
                  | Some lo => py_lt value lo
                  | None => Ok false
                  end;
          if (below : bool) then Ok false
          else
            above ← match b_max b with
                    | Some hi => py_gt value hi
                    | None => Ok false
                    end;
            if (above : bool) then Ok false else Ok true
      | CScalar (VNum n) =>
          if py_ne value (VNum n) then Ok false else Ok true
      | CScalar _ => Ok true
      end
  end.

Definition matches_target_group (district_data : Record)
    (target_group : TargetGroup) : result bool :=
  all_loop (criterion_holds district_data) (tg_criteria target_group).

(** [district_data.get("district_name", "Unknown")] *)
Definition get_district_name (district_data : Record) : result PyVal :=
  Ok (dict_get_or district_data "district_name" (VStr "Unknown")).

Definition classify_district := classify_district matches_target_group.
Definition metric_step := metric_step get_district_name.
Definition detect_metric_drift :=
  detect_metric_drift matches_target_group get_district_name.
Definition detect_temporal_drift := detect_temporal_drift get_district_name.
Definition detect_all_drift :=
  detect_all_drift matches_target_group get_district_name.

End Backend.

(** ** Ingestion ([load_implementation_data], [parse_csv_content]) *)

Definition numeric_fields : list string :=
  ["literacy_rate"; "population"; "coverage_percentage";
   "fund_utilization"; "monthly_variance"].

Section Ingestion.

(** Python's [float(text)]; [None] stands for [ValueError]. *)
Variable parse_float : string → option Q.

Definition process_value (key value : string) : PyVal :=
  if bool_decide (key ∈ numeric_fields) then
    match parse_float value with
    | Some q => VNum q
    | None => VStr value
    end
  else VStr value.

Definition process_row (row : list (string * string)) : Record :=
  foldl (λ processed_row kv, <[kv.1 := process_value kv.1 kv.2]> processed_row)
        ∅ row.

End Ingestion.

(** ** Summary ([generate_summary] in [src/explain.py]) *)

(** [m[k] = m.get(k, 0) + 1] *)
Definition bump (k : string) (m : gmap string nat) : gmap string nat :=
  <[k := (default 0 (m !! k) + 1)%nat]> m.

Fixpoint insert_sorted (x : string * nat) (l : list (string * nat))
  : list (string * nat) :=
  match l with
  | [] => [x]
  | y :: l' =>
      if String.leb x.1 y.1 then x :: y :: l' else y :: insert_sorted x l'
  end.

(** [sorted(by_type.items())]; the keys of a dictionary are distinct, so
    the order is the order of the keys. *)
Definition sorted_items (m : gmap string nat) : list (string * nat) :=
  foldr insert_sorted [] (map_to_list m).

Definition no_drift_sentence : string :=
  "No policy drift detected. Implementation aligns with policy intent.".

Definition newline : string := String (Ascii.ascii_of_nat 10) EmptyString.

Fixpoint repeat_string (s : string) (n : nat) : string :=
  match n with O => "" | S n' => s +:+ repeat_string s n' end.

Section Summary.

(** Python's [str] of a number, used when a value is interpolated in an
    f-string. *)
Variable str_of_num : Q → string.

Definition py_str (v : PyVal) : string :=
  match v with
  | VNone => "None"
  | VNum q => str_of_num q
  | VStr s => s
  end.

Definition summary_step
    (st : gmap string nat * gmap string nat * gmap string nat)
    (drift : DriftResult)
  : gmap string nat * gmap string nat * gmap string nat :=
  let '(by_type, by_severity, by_district) := st in
  let district_key :=
    py_str (district_name drift) +:+ " (" +:+ py_str (district_id drift) +:+ ")" in
  (bump (drift_type drift) by_type,
   bump (severity drift) by_severity,
   bump district_key by_district).

Definition summary_counts (drifts : list DriftResult)
  : gmap string nat * gmap string nat * gmap string nat :=
  foldl summary_step
        (∅, {[ "low" := 0%nat; "medium" := 0%nat; "high" := 0%nat ]}, ∅)
        drifts.

Definition type_line (tc : string * nat) : string :=
  "  " +:+ tc.1 +:+ ": " +:+ pretty tc.2.

Definition generate_summary (drifts : list DriftResult) : string :=
  match drifts with
  | [] => no_drift_sentence
  | _ =>
      let total := length drifts in
      let '(by_type, by_severity, by_district) := summary_counts drifts in
      let summary_lines :=
        ["Policy Drift Detection Summary";
         repeat_string "=" 50;
         "Total drift instances detected: " +:+ pretty total;
         "";
         "By type:"]
        ++ map type_line (sorted_items by_type)
        ++ ["";
            "By severity:";
            "  High: " +:+ pretty (by_severity !!! "high");
            "  Medium: " +:+ pretty (by_severity !!! "medium");
            "  Low: " +:+ pretty (by_severity !!! "low");
            "";
            "Districts with drift: " +:+ pretty (size by_district)] in
      String.concat newline summary_lines
  end.

End Summary.

(** ** What the specification says, for comparison with the code *)

(** The deviation as the specification words it. *)
Definition spec_deviation (actual threshold : Q) (constraint_type : string) : Q :=
  if bool_decide (constraint_type = "minimum_coverage"
                  ∨ constraint_type = "resource_allocation")
  then ((threshold - actual) / threshold * 100)%Q
  else ((actual - threshold) / threshold * 100)%Q.

(** A criterion as the specification words it: the record has a numeric
    value for the field, and the value equals the scalar, or lies in the
    inclusive range whose absent bounds are unbounded. *)
Definition spec_within (v : Q) (b : Band) : bool :=
  match b_min b with
  | None => true
  | Some (VNum lo) => Qle_bool lo v
  | Some _ => false
  end
  && match b_max b with
     | None => true
     | Some (VNum hi) => Qle_bool v hi
     | Some _ => false
     end.

Definition spec_satisfies (d : Record) (fc : string * Condition) : bool :=
  match dict_get d fc.1, fc.2 with
  | VNum v, CRange b => spec_within v b
  | VNum v, CScalar (VNum n) => Qeq_bool v n
  | VStr s, CScalar (VStr t) => String.eqb s t
  | _, _ => false
  end.

(** The name of the first group all of whose criteria hold. *)
Definition spec_classify (d : Record) (groups : list TargetGroup) : string :=
  match List.find (λ g, forallb (spec_satisfies d) (tg_criteria g)) groups with
  | Some g => tg_name g
  | None => "unclassified"
  end.

Definition numeric_bound (o : option PyVal) : Prop :=
  match o with
  | None | Some (VNum _) => True
  | Some _ => False
  end.

(** A criterion that is a range with numeric bounds. *)
Definition range_criterion (fc : string * Condition) : Prop :=
  match fc.2 with
  | CRange b => numeric_bound (b_min b) ∧ numeric_bound (b_max b)
  | CScalar _ => False
  end.

(** A criterion that is a range with numeric bounds or a numeric scalar. *)
Definition typed_criterion (fc : string * Condition) : Prop :=
  match fc.2 with
  | CRange b => numeric_bound (b_min b) ∧ numeric_bound (b_max b)
  | CScalar (VNum _) => True
  | CScalar _ => False
  end.

(** The record holds a number, or nothing, in the criterion's field. *)
Definition numeric_field (d : Record) (fc : string * Condition) : Prop :=
  match dict_get d fc.1 with
  | VStr _ => False
  | _ => True
  end.

(** The layout of the summary report. *)
Definition summary_report (total : nat) (type_lines : list string)
    (high medium low districts : nat) : string :=
  String.concat newline
    (["Policy Drift Detection Summary";
      repeat_string "=" 50;
      "Total drift instances detected: " +:+ pretty total;
      "";
      "By type:"]
     ++ type_lines
     ++ ["";
         "By severity:";
         "  High: " +:+ pretty high;
         "  Medium: " +:+ pretty medium;
         "  Low: " +:+ pretty low;
         "";
         "Districts with drift: " +:+ pretty districts]).

(** The number of findings of one severity. *)
Definition count_severity (s : string) (drifts : list DriftResult) : nat :=
  length (List.filter (λ d, String.eqb (severity d) s) drifts).

(** The region identifier of a record that has one. *)
Definition district_key (r : Record) : PyVal := dict_get r "district_id".

(** The distinct keys of a sequence, in first-seen order. *)
Definition first_seen (ks : list PyVal) : list PyVal :=
  fold_left (λ seen k, if existsb (key_eqb k) seen then seen else seen ++ [k])
            ks [].

(** The records of one region, in input order. *)
Definition region_history (data : list Record) (k : PyVal) : list Record :=
  List.filter (λ r, key_eqb (district_key r) k) data.

Definition regions (data : list Record) : list (list Record) :=
  map (region_history data) (first_seen (map district_key data)).

(** The grouping loop on records that all carry a region identifier. *)
Definition group_all (data : list Record) : list (PyVal * list Record) :=
  fold_left (λ groups r, group_insert (district_key r) r groups) data [].

Section AggregatorSpec.

Variable matches_target_group : Record → TargetGroup → result bool.
Variable get_district_name : Record → result PyVal.

(** The findings of one region: the per-record findings of its records,
    in input order, then the temporal findings of its history. *)
Definition region_block (p : PolicyIntent) (history : list Record)
  : result (list DriftResult) :=
  metric_drifts ←
    mapM (λ r, detect_metric_drift matches_target_group get_district_name
                 r p (month_of r)) history;
  temporal_drifts ← detect_temporal_drift get_district_name history p;
  Ok (concat metric_drifts ++ temporal_drifts).

(** The aggregator as the specification describes it: the blocks of the
    regions, in first-seen order. *)
Definition detect_all_spec (data : list Record) (p : PolicyIntent)
  : result (list DriftResult) :=
  _ ← mapM (λ r, dict_getitem r "district_id") data;
  blocks ← mapM (region_block p) (regions data);
  Ok (concat blocks).

(** The findings of one region, kept apart: the per-record findings of
    each of its records, and its temporal findings. *)
Definition block_of (p : PolicyIntent) (history : list Record)
    (b : list (list DriftResult) * list DriftResult) : Prop :=
  Forall2 (λ r ms, detect_metric_drift matches_target_group get_district_name
                     r p (month_of r) = Ok ms)
          history b.1
  ∧ detect_temporal_drift get_district_name history p = Ok b.2.

End AggregatorSpec.

Definition block_findings (b : list (list DriftResult) * list DriftResult)
  : list DriftResult :=
  concat b.1 ++ b.2.

Definition block_count (b : list (list DriftResult) * list DriftResult) : nat :=
  list_sum (map (@length DriftResult) b.1) + length b.2.

(** No two keys of the list are equal as dictionary keys. *)
Inductive distinct_keys : list PyVal → Prop :=
| distinct_nil : distinct_keys []
| distinct_cons k ks :
    existsb (key_eqb k) ks = false → distinct_keys ks →
    distinct_keys (k :: ks).


(** The three constraint types the evaluator knows. *)
Definition known_type (ty : string) : Prop :=
  ty = "minimum_coverage" ∨ ty = "resource_allocation"
  ∨ ty = "temporal_consistency".

(** What a finding of the per-record pass records about the record [d]
    it was raised for. *)
Definition metric_finding (get_district_name : Record → result PyVal)
    (d : Record) (p : PolicyIntent) (m : PyVal) (x : DriftResult) : Prop :=
  drift_type x = "metric"
  ∧ month x = m
  ∧ dict_getitem d "district_id" = Ok (district_id x)
  ∧ get_district_name d = Ok (district_name x)
  ∧ In (constraint x) (constraints p)
  ∧ is_temporal (constraint x) = false
  ∧ actual_value x = dict_get d (c_metric (constraint x))
  ∧ actual_value x ≠ VNone
  ∧ check_metric_constraint (actual_value x) (constraint x) (target_metrics p)
    = Ok (true, expected_threshold x)
  ∧ calculate_severity (actual_value x) (expected_threshold x)
      (c_type (constraint x)) = Ok (severity x).

(** What a finding of the temporal pass records about the record [r] it
    was raised for. *)
Definition temporal_finding (get_district_name : Record → result PyVal)
    (r : Record) (p : PolicyIntent) (x : DriftResult) : Prop :=
  drift_type x = "temporal"
  ∧ month x = month_of r
  ∧ dict_getitem r "district_id" = Ok (district_id x)
  ∧ get_district_name r = Ok (district_name x)
  ∧ In (constraint x) (constraints p)
  ∧ is_temporal (constraint x) = true
  ∧ actual_value x = dict_get r (c_metric (constraint x))
  ∧ actual_value x ≠ VNone
  ∧ expected_threshold x = get_threshold (constraint x)
  ∧ py_gt (actual_value x) (expected_threshold x) = Ok true
  ∧ calculate_severity (actual_value x) (expected_threshold x)
      "temporal_consistency" = Ok (severity x).

(** ** Sample inputs *)

Definition coverage_constraint : Constraint :=
  mkConstraint "minimum_coverage" "coverage_percentage"
               (Some (VNum 80)) (Some "all").

Definition coverage_policy : PolicyIntent :=
  mkPolicyIntent "scheme" [] [coverage_constraint] ∅.

(** A row whose coverage column could not be parsed as a number. *)
Definition text_record : Record :=
  {[ "district_id" := VStr "D1"; "district_name" := VStr "Alpha";
     "coverage_percentage" := VStr "n/a" ]}.

Definition priority_group : TargetGroup :=
  mkTargetGroup "priority_districts"
    [("literacy_rate", CRange (mkBand None (Some (VNum 70))))].

Definition priority_coverage : Constraint :=
  mkConstraint "minimum_coverage" "coverage_percentage"
               (Some (VNum 80)) (Some "priority_districts").

Definition variance_constraint : Constraint :=
  mkConstraint "temporal_consistency" "monthly_variance"
               (Some (VNum 10)) (Some "all").

Definition sample_policy : PolicyIntent :=
  mkPolicyIntent "scheme" [priority_group]
    [priority_coverage; variance_constraint] ∅.

Definition sample_row (id name mon : string) (literacy coverage variance : Q)
  : Record :=
  {[ "district_id" := VStr id; "district_name" := VStr name;
     "month" := VStr mon; "literacy_rate" := VNum literacy;
     "coverage_percentage" := VNum coverage;
     "monthly_variance" := VNum variance ]}.

Definition sample_data : list Record :=
  [sample_row "D1" "Alpha" "2024-01" 65 72 5;
   sample_row "D2" "Beta" "2024-01" 80 90 5;
   sample_row "D1" "Alpha" "2024-02" 65 50 25].

Definition sample_findings : list DriftResult :=
  [mkDriftResult "metric" (VStr "D1") (VStr "Alpha") priority_coverage
     (VNum 72) (VNum 80) (VStr "2024-01") "low";
   mkDriftResult "metric" (VStr "D1") (VStr "Alpha") priority_coverage
     (VNum 50) (VNum 80) (VStr "2024-02") "high";
   mkDriftResult "temporal" (VStr "D1") (VStr "Alpha") variance_constraint
     (VNum 25) (VNum 10) (VStr "2024-02") "high"].

(** A policy whose coverage constraint lacks its threshold, and a row
    without the coverage column. *)
Definition unchecked_constraint : Constraint :=
  mkConstraint "minimum_coverage" "coverage_percentage" None (Some "all").

Definition unchecked_policy : PolicyIntent :=
  mkPolicyIntent "scheme" [] [unchecked_constraint] ∅.

Definition sparse_record : Record :=
  {[ "district_id" := VStr "D1"; "district_name" := VStr "Alpha";
     "month" := VStr "2024-01" ]}.

Definition covered_record : Record :=
  {[ "district_id" := VStr "D1"; "district_name" := VStr "Alpha";
     "month" := VStr "2024-01"; "coverage_percentage" := VNum 72 ]}.


(** A group selected by an exact literacy rate, one selected by a state
    name, and rows to classify. *)
Definition exact_group : TargetGroup :=
  mkTargetGroup "priority_districts" [("literacy_rate", CScalar (VNum 65))].

Definition state_group : TargetGroup :=
  mkTargetGroup "bihar_districts" [("state", CScalar (VStr "Bihar"))].

Definition literate_record : Record :=
  {[ "district_id" := VStr "D1"; "literacy_rate" := VNum 65 ]}.

Definition kerala_record : Record :=
  {[ "district_id" := VStr "D9"; "state" := VStr "Kerala" ]}.

Definition sample_history : list Record :=
  [sample_row "D1" "Alpha" "2024-01" 65 72 5;
   sample_row "D1" "Alpha" "2024-02" 65 50 25].

(** ** Further definitions *)

(** The tiers in increasing order of gravity. *)
Definition severity_rank (s : string) : nat :=
  if String.eqb s "high" then 2
  else if String.eqb s "medium" then 1
  else 0.

(** A tolerance band with numeric bounds. *)
Definition num_band (lo hi : option Q) : Band :=
  mkBand (VNum <$> lo) (VNum <$> hi).

Definition custom_constraint : Constraint :=
  mkConstraint "attendance_band" "attendance" None (Some "all").

Definition custom_metrics : gmap string Band :=
  {[ "attendance" := num_band (Some 60%Q) (Some 95%Q) ]}.

Definition negative_constraint : Constraint :=
  mkConstraint "minimum_coverage" "net_change" (Some (VNum (-10))) (Some "all").

(** The number of records held by the groups of a grouping. *)
Definition total_length {K A} (g : list (K * list A)) : nat :=
  list_sum (map (λ kh, length kh.2) g).

(** The number of findings one constraint can add for one record in the
    per-record pass. *)
Definition weight_metric (c : Constraint) : nat :=
  if is_temporal c then 0 else 1.

(** A constraint of a known type with a nonzero numeric threshold. *)
Definition typed_constraint (c : Constraint) : Prop :=
  known_type (c_type c) ∧ ∃ t, c_threshold c = Some (VNum t) ∧ ¬ (t == 0)%Q.

(** The record holds a number, or nothing, under the constraint's metric. *)
Definition numeric_metric (r : Record) (c : Constraint) : Prop :=
  dict_get r (c_metric c) = VNone ∨ ∃ v, dict_get r (c_metric c) = VNum v.

Definition one_row_data : list Record :=
  [sample_row "D1" "Alpha" "2024-01" 65 72 5;
   sample_row "D2" "Beta" "2024-01" 80 90 25].

(** The number of findings of one drift type. *)
Definition count_type (t : string) (drifts : list DriftResult) : nat :=
  length (List.filter (λ d, String.eqb (drift_type d) t) drifts).

(** The label under which the summary counts the district of a finding. *)
Definition district_label (str_of_num : Q → string) (d : DriftResult) : string :=
  py_str str_of_num (district_name d) +:+ " (" +:+
  py_str str_of_num (district_id d) +:+ ")".

(** Findings of two districts that share a name. *)
Definition namesake_findings : list DriftResult :=
  [mkDriftResult "temporal" (VStr "D1") (VStr "Alpha") variance_constraint
     (VNum 25) (VNum 10) (VStr "2024-02") "high";
   mkDriftResult "metric" (VStr "D7") (VStr "Alpha") priority_coverage
     (VNum 50) (VNum 80) (VStr "2024-02") "high";
   mkDriftResult "metric" (VStr "D1") (VStr "Alpha") priority_coverage
     (VNum 72) (VNum 80) (VStr "2024-01") "low"].

(** ** Explanations and the report ([explain_drift] and
    [format_drift_report] in [src/explain.py]) *)

(** What a replacement field of an f-string can raise. *)
Inductive FormatError : Type :=
| FormatValueError
| FormatTypeError.

Inductive formatted (A : Type) : Type :=
| Text (a : A)
| Raise (e : FormatError).
Arguments Text {A} a.
Arguments Raise {A} e.

#[global] Instance formatted_ret : MRet formatted := @Text.
#[global] Instance formatted_bind : MBind formatted :=
  fun A B f m => match m with Text a => f a | Raise e => Raise e end.

Section Explain.

Variable str_of_num : Q → string.

(** Python's [format(x, ".1f")] of a number. *)
Variable fixed1 : Q → string.

(** The replacement field [{v:.1f}]: text knows no format code [f]
    ([ValueError]), and [None] accepts no format specification
    ([TypeError]). *)
Definition format_fixed1 (v : PyVal) : formatted string :=
  match v with
  | VNum q => Text (fixed1 q)
  | VStr _ => Raise FormatValueError
  | VNone => Raise FormatTypeError
  end.

Definition explain_drift (drift : DriftResult) : formatted string :=
  let constraint_type := c_type (constraint drift) in
  let metric_name := c_metric (constraint drift) in
  let name := py_str str_of_num (district_name drift) in
  let id := py_str str_of_num (district_id drift) in
  let mon := py_str str_of_num (month drift) in
  if String.eqb constraint_type "minimum_coverage" then
    actual ← format_fixed1 (actual_value drift);
    expected ← format_fixed1 (expected_threshold drift);
    Text ("District " +:+ name +:+ " (" +:+ id +:+ ") in " +:+ mon +:+ ": "
          +:+ "Coverage percentage is " +:+ actual +:+ "%, "
          +:+ "below required minimum of " +:+ expected +:+ "% "
          +:+ "for priority districts. "
          +:+ "Severity: " +:+ severity drift +:+ ".")
  else if String.eqb constraint_type "resource_allocation" then
    actual ← format_fixed1 (actual_value drift);
    expected ← format_fixed1 (expected_threshold drift);
    Text ("District " +:+ name +:+ " (" +:+ id +:+ ") in " +:+ mon +:+ ": "
          +:+ "Fund utilization is " +:+ actual +:+ "%, "
          +:+ "below required minimum of " +:+ expected +:+ "% "
          +:+ "for priority districts. "
          +:+ "Severity: " +:+ severity drift +:+ ".")
  else if String.eqb constraint_type "temporal_consistency" then
    actual ← format_fixed1 (actual_value drift);
    expected ← format_fixed1 (expected_threshold drift);
    Text ("District " +:+ name +:+ " (" +:+ id +:+ ") "
          +:+ "shows high variance in " +:+ metric_name +:+ ": "
          +:+ "observed variance of " +:+ actual +:+ "% "
          +:+ "exceeds threshold of " +:+ expected +:+ "%. "
          +:+ "This indicates inconsistent implementation across months. "
          +:+ "Severity: " +:+ severity drift +:+ ".")
  else
    actual ← format_fixed1 (actual_value drift);
    expected ← format_fixed1 (expected_threshold drift);
    Text ("District " +:+ name +:+ " (" +:+ id +:+ ") in " +:+ mon +:+ ": "
          +:+ metric_name +:+ " value " +:+ actual +:+ " "
          +:+ "violates policy constraint (threshold: " +:+ expected +:+ "). "
          +:+ "Severity: " +:+ severity drift +:+ ".").

(** The loop [for i, drift in enumerate(drifts, 1)]. *)
Fixpoint report_loop (i : nat) (drifts : list DriftResult)
    (report_lines : list string) : formatted (list string) :=
  match drifts with
  | [] => Text report_lines
  | drift :: rest =>
      explanation ← explain_drift drift;
      report_loop (S i) rest
        (report_lines ++ [pretty i +:+ ". " +:+ explanation; ""])
  end.

Definition format_drift_report (drifts : list DriftResult)
  : formatted string :=
  let report_lines :=
    [generate_summary str_of_num drifts; ""; "Detailed Findings:";
     repeat_string "=" 50; ""] in
  report_lines ← report_loop 1 drifts report_lines;
  Text (String.concat newline report_lines).

End Explain.

(** The numbered entries of the report, from number [i] on. *)
Fixpoint numbered (i : nat) (explanations : list string) : list string :=
  match explanations with
  | [] => []
  | e :: rest => (pretty i +:+ ". " +:+ e) :: "" :: numbered (S i) rest
  end.

Definition with_month (m : PyVal) (d : DriftResult) : DriftResult :=
  mkDriftResult (drift_type d) (district_id d) (district_name d)
    (constraint d) (actual_value d) (expected_threshold d) m (severity d).

Definition with_constraint (c : Constraint) (d : DriftResult) : DriftResult :=
  mkDriftResult (drift_type d) (district_id d) (district_name d)
    c (actual_value d) (expected_threshold d) (month d) (severity d).

(** A finding as it could be read back from storage, its value as text. *)
Definition text_finding : DriftResult :=
  mkDriftResult "metric" (VStr "D1") (VStr "Alpha") priority_coverage
    (VStr "72") (VNum 80) (VStr "2024-01") "low".

(** The text of a column in a row of the file, the last one when the
    column occurs more than once. *)
Definition cell (row : list (string * string)) (k : string) : option string :=
  snd <$> List.find (λ kv, String.eqb kv.1 k) (rev row).

(** A constraint on a column that ingestion does not convert. *)
Definition attendance_constraint : Constraint :=
  mkConstraint "minimum_coverage" "attendance_rate" (Some (VNum 75))
               (Some "all").

Definition attendance_policy : PolicyIntent :=
  mkPolicyIntent "scheme" [] [attendance_constraint] ∅.

Definition attendance_row : list (string * string) :=
  [("district_id", "D1"); ("district_name", "Alpha"); ("month", "2024-01");
   ("attendance_rate", "91.5")].

(** The float syntax of the sample files: an integer between 0 and 99. *)
Definition digit_value (a : Ascii.ascii) : option Z :=
  let n := Z.of_nat (Ascii.nat_of_ascii a) in
  if ((48 <=? n) && (n <=? 57))%Z then Some (n - 48)%Z else None.

Definition parse_small (s : string) : option Q :=
  match s with
  | String a EmptyString => (λ d, inject_Z d) <$> digit_value a
  | String a (String b EmptyString) =>
      match digit_value a, digit_value b with
      | Some x, Some y => Some (inject_Z (10 * x + y))
      | _, _ => None
      end
  | _ => None
  end.

Definition clean_rows : list (list (string * string)) :=
  [[("district_id", "D1"); ("district_name", "Alpha"); ("month", "2024-01");
    ("literacy_rate", "65"); ("coverage_percentage", "72");
    ("monthly_variance", "5")];
   [("district_id", "D1"); ("district_name", "Alpha"); ("month", "2024-02");
    ("literacy_rate", "65"); ("coverage_percentage", "50");
    ("monthly_variance", "25")]].

(** ** Policy extraction ([PolicyParser] in [backend/nlp/policy_parser.py])

    The parser reads the text of a policy document with regular
    expressions and a sentence splitter, and assembles the policy intent
    that [backend/drift/detector.py] later receives.  What the patterns
    find in the text is an argument of the functions below; what is made
    of it is modelled as written. *)

(** The one target group the parser knows.  Its [allocation_priority]
    entry is read by no function of the detectors and is left out. *)
Definition extracted_group : TargetGroup :=
  mkTargetGroup "priority_districts"
    [("literacy_rate", CRange (mkBand None (Some (VNum 70))))].

(** [extract_target_groups]; [appended] is the number of times the loops
    over sentences, patterns and matches reach [groups.append], zero when
    the language model is not installed. *)
Definition extract_target_groups (appended : nat) : list TargetGroup :=
  let groups := replicate appended extracted_group in
  match groups with
  | [] => [extracted_group]
  | _ => groups
  end.

(** [extract_numeric_constraints]; each argument is what [float] makes of
    the figure found by one pattern, [None] when the pattern finds
    nothing. *)
Definition extract_numeric_constraints
    (coverage_match util_match var_match : option Q) : gmap string Q :=
  let constraints : gmap string Q := ∅ in
  let constraints :=
    match coverage_match with
    | Some q => <["min_coverage_pct" := q]> constraints
    | None => constraints
    end in
  let constraints :=
    match util_match with
    | Some q => <["min_fund_utilization_pct" := q]> constraints
    | None => constraints
    end in
  let constraints :=
    match var_match with
    | Some q => <["max_monthly_variance_pct" := q]> constraints
    | None => constraints
    end in
  if (size constraints =? 0)%nat then
    {[ "min_coverage_pct" := 80%Q;
       "min_fund_utilization_pct" := 90%Q;
       "max_monthly_variance_pct" := 10%Q ]}
  else constraints.

(** [extract_temporal_rules]; the arguments tell whether the text contains
    "monthly", respectively "quarterly". *)
Definition extract_temporal_rules (monthly quarterly : bool)
  : gmap string string :=
  if monthly then {[ "consistency" := "monthly" ]}
  else if quarterly then {[ "consistency" := "quarterly" ]}
  else {[ "consistency" := "monthly" ]}.

Definition domain_keywords : list (string * list string) :=
  [("education", ["education"; "school"; "literacy"; "student"; "learning"]);
   ("health", ["health"; "hospital"; "medical"; "treatment"; "healthcare"]);
   ("agriculture", ["agriculture"; "farmer"; "crop"; "irrigation"; "farming"]);
   ("infrastructure",
    ["infrastructure"; "road"; "bridge"; "construction"; "development"])].

(** [extract_policy_domain], on the lower-cased text. *)
Definition extract_policy_domain (text_lower : string) : string :=
  match List.find (λ dk : string * list string,
                     existsb (λ keyword, is_substring keyword text_lower) dk.2)
                  domain_keywords with
  | Some dk => dk.1
  | None => "general"
  end.

Record ExtractedIntent : Type := mkExtractedIntent {
  policy_domain : string;
  ei_target_groups : list TargetGroup;
  ei_constraints : list Constraint;
  temporal_rules : gmap string string;
  ei_target_metrics : gmap string Band
}.

Definition extract_intent (appended : nat)
    (coverage_match util_match var_match : option Q)
    (monthly quarterly : bool) (text_lower : string) : ExtractedIntent :=
  let target_groups := extract_target_groups appended in
  let constraints_dict :=
    extract_numeric_constraints coverage_match util_match var_match in
  let temporal_rules := extract_temporal_rules monthly quarterly in
  let domain := extract_policy_domain text_lower in
  let constraints : list Constraint := [] in
  let constraints :=
    match constraints_dict !! "min_coverage_pct" with
    | Some t =>
        constraints ++ [mkConstraint "minimum_coverage" "coverage_percentage"
                          (Some (VNum t)) (Some "priority_districts")]
    | None => constraints
    end in
  let constraints :=
    match constraints_dict !! "min_fund_utilization_pct" with
    | Some t =>
        constraints ++ [mkConstraint "resource_allocation" "fund_utilization"
                          (Some (VNum t)) (Some "priority_districts")]
    | None => constraints
    end in
  let constraints :=
    match constraints_dict !! "max_monthly_variance_pct" with
    | Some t =>
        constraints ++ [mkConstraint "temporal_consistency" "monthly_variance"
                          (Some (VNum t)) (Some "all")]
    | None => constraints
    end in
  let target_metrics : gmap string Band := ∅ in
  let target_metrics :=
    match constraints_dict !! "min_coverage_pct" with
    | Some t =>
        <["coverage_percentage" := mkBand (Some (VNum (t * (9 # 10)))) None]>
          target_metrics
    | None => target_metrics
    end in
  let target_metrics :=
    match constraints_dict !! "min_fund_utilization_pct" with
    | Some t =>
        <["fund_utilization" := mkBand (Some (VNum (t * (9 # 10)))) None]>
          target_metrics
    | None => target_metrics
    end in
  let target_metrics :=
    match constraints_dict !! "max_monthly_variance_pct" with
    | Some t =>
        <["monthly_variance" := mkBand None (Some (VNum (t * (11 # 10))))]>
          target_metrics
    | None => target_metrics
    end in
  mkExtractedIntent domain target_groups constraints temporal_rules
                    target_metrics.

(** The part of the extracted intent that the detectors read, with
    [policy_intent.get]. *)
Definition as_policy (e : ExtractedIntent) : PolicyIntent :=
  mkPolicyIntent "" (ei_target_groups e) (ei_constraints e)
                 (ei_target_metrics e).

(** The three constraints the parser can write. *)
Definition coverage_rule (t : Q) : Constraint :=
  mkConstraint "minimum_coverage" "coverage_percentage" (Some (VNum t))
               (Some "priority_districts").

Definition utilization_rule (t : Q) : Constraint :=
  mkConstraint "resource_allocation" "fund_utilization" (Some (VNum t))
               (Some "priority_districts").

Definition variance_rule (t : Q) : Constraint :=
  mkConstraint "temporal_consistency" "monthly_variance" (Some (VNum t))
               (Some "all").

(** A policy with other tolerance bands. *)
Definition with_target_metrics (tm : gmap string Band) (p : PolicyIntent)
  : PolicyIntent :=
  mkPolicyIntent (scheme_name p) (target_groups p) (constraints p) tm.

(** ** Stored documents ([object_id_to_str] in [backend/db/mongodb.py]) *)

(** A value read from the database: an object identifier, given by its
    hexadecimal text, a dictionary, a list, or any other value. *)
#[warnings="-register-all"] Inductive Doc : Type :=
| DObjectId (hex : string)
| DDict (items : list (string * Doc))
| DList (items : list Doc)
| DValue (v : PyVal).

Fixpoint object_id_to_str (obj : Doc) : Doc :=
  match obj with
  | DObjectId hex => DValue (VStr hex)
  | DDict items => DDict (map (λ kv, (kv.1, object_id_to_str kv.2)) items)
  | DList items => DList (map object_id_to_str items)
  | DValue v => DValue v
  end.

(** The document holds an object identifier somewhere. *)
Fixpoint has_object_id (obj : Doc) : bool :=
  match obj with
  | DObjectId _ => true
  | DDict items => existsb (λ kv, has_object_id kv.2) items
  | DList items => existsb has_object_id items
  | DValue _ => false
  end.

(** The keys of the dictionaries and the lengths of the lists, the values
    at the leaves left out. *)
Fixpoint shape (obj : Doc) : Doc :=
  match obj with
  | DObjectId _ => DValue VNone
  | DDict items => DDict (map (λ kv, (kv.1, shape kv.2)) items)
  | DList items => DList (map shape items)
  | DValue _ => DValue VNone
  end.

(** Induction on documents, through the dictionaries and lists. *)
Section DocInduction.
Variable P : Doc → Prop.
Hypothesis P_id : ∀ hex, P (DObjectId hex).
Hypothesis P_dict : ∀ items, Forall (λ kv, P kv.2) items → P (DDict items).
Hypothesis P_list : ∀ items, Forall P items → P (DList items).
Hypothesis P_value : ∀ v, P (DValue v).

Fixpoint Doc_nested_ind (obj : Doc) : P obj :=
  match obj with
  | DObjectId hex => P_id hex
  | DDict items =>
      P_dict items
        ((fix go (l : list (string * Doc)) : Forall (λ kv, P kv.2) l :=
            match l with
            | [] => @List.Forall_nil _ _
            | kv :: l' => @List.Forall_cons _ _ kv l' (Doc_nested_ind kv.2) (go l')
            end) items)
  | DList items =>
      P_list items
        ((fix go (l : list Doc) : Forall P l :=
            match l with
            | [] => @List.Forall_nil _ _
            | d :: l' => @List.Forall_cons _ _ d l' (Doc_nested_ind d) (go l')
            end) items)
  | DValue v => P_value v
  end.
End DocInduction.

(** A stored finding. *)
Definition stored_finding : Doc :=
  DDict [("_id", DObjectId "65a1f0c2e4b0a1b2c3d4e5f6");
         ("district_id", DValue (VStr "D1"));
         ("history", DList [DObjectId "65a1f0c2e4b0a1b2c3d4e5f7";
                            DValue (VNum 72)])].

(** Some criterion of the group fails on the record. *)
Definition fails_group (d : Record) (g : TargetGroup) : Prop :=
  ∃ fc, In fc (tg_criteria g) ∧ spec_satisfies d fc = false.

(** Two overlapping groups, and a group without criteria. *)
Definition low_literacy_group : TargetGroup :=
  mkTargetGroup "low_literacy"
    [("literacy_rate", CRange (mkBand None (Some (VNum 50))))].

Definition everyone_group : TargetGroup :=
  mkTargetGroup "everyone" [].

(** * Properties *)

(** ** Rational comparisons *)

Lemma Qltb_lt (x y : Q) : Qltb x y = true ↔ (x < y)%Q.
Proof.
  unfold Qltb. rewrite negb_true_iff. split.
  - intros H. apply Qnot_le_lt. intros Hle.
    apply Qle_bool_iff in Hle. congruence.
  - intros H. destruct (Qle_bool y x) eqn:E; [|reflexivity].
    apply Qle_bool_iff in E. exfalso. exact (Qlt_not_le _ _ H E).
Qed.

Lemma Qltb_ge (x y : Q) : Qltb x y = false ↔ (y <= x)%Q.
Proof.
  unfold Qltb. rewrite negb_false_iff. apply Qle_bool_iff.
Qed.

Lemma Qeq_bool_false (x y : Q) : ¬ (x == y)%Q → Qeq_bool x y = false.
Proof.
  intros H. destruct (Qeq_bool x y) eqn:E; [|reflexivity].
  apply Qeq_bool_iff in E. contradiction.
Qed.

Lemma shortfall_type_spec (ty : string) :
  shortfall_type ty = true ↔ ty = "minimum_coverage" ∨ ty = "resource_allocation".
Proof.
  unfold shortfall_type. rewrite orb_true_iff, !String.eqb_eq. reflexivity.
Qed.

(** ** Constraint evaluator *)

(** C1.  For a numeric value and a constraint with numeric threshold:
    [minimum_coverage] and [resource_allocation] are violated exactly when
    the value is below the threshold, [temporal_consistency] exactly when
    the value is above it, and the threshold returned is the constraint's
    own. *)
Theorem check_metric_constraint_direction
    (value threshold : Q) (c : Constraint) (tm : gmap string Band) :
  c_threshold c = Some (VNum threshold) →
  (c_type c = "minimum_coverage" ∨ c_type c = "resource_allocation" →
   ∃ violated,
     check_metric_constraint (VNum value) c tm = Ok (violated, VNum threshold)
     ∧ (violated = true ↔ (value < threshold)%Q))
  ∧ (c_type c = "temporal_consistency" →
     ∃ violated,
       check_metric_constraint (VNum value) c tm = Ok (violated, VNum threshold)
       ∧ (violated = true ↔ (threshold < value)%Q)).
Proof.
  intros Hth. unfold check_metric_constraint, get_threshold. rewrite Hth.
  split.
  - intros [Hty | Hty]; rewrite Hty; simpl;
      (eexists; split; [reflexivity | apply Qltb_lt]).
  - intros Hty. rewrite Hty. simpl.
    eexists; split; [reflexivity | apply Qltb_lt].
Qed.

Lemma check_metric_constraint_direction_witness :
  (∃ violated,
     check_metric_constraint (VNum 72) coverage_constraint ∅
     = Ok (violated, VNum 80)
     ∧ (violated = true ↔ (72 < 80)%Q))
  ∧ (∃ violated,
       check_metric_constraint (VNum 25) variance_constraint ∅
       = Ok (violated, VNum 10)
       ∧ (violated = true ↔ (10 < 25)%Q)).
Proof.
  split.
  - apply (check_metric_constraint_direction 72 80 coverage_constraint ∅
             eq_refl).
    left. reflexivity.
  - apply (check_metric_constraint_direction 25 10 variance_constraint ∅
             eq_refl).
    reflexivity.
Defined.

(** ** Severity scorer *)

Lemma calculate_severity_num (actual threshold : Q) (ty : string) :
  ¬ (threshold == 0)%Q →
  calculate_severity (VNum actual) (VNum threshold) ty =
  let deviation := spec_deviation actual threshold ty in
  if Qltb 30 deviation then Ok "high"
  else if Qltb 15 deviation then Ok "medium"
  else Ok "low".
Proof.
  intros Hnz. unfold calculate_severity, spec_deviation.
  destruct (shortfall_type ty) eqn:Hs.
  - rewrite bool_decide_eq_true_2 by (by apply shortfall_type_spec).
    simpl. rewrite (Qeq_bool_false _ _ Hnz). reflexivity.
  - rewrite bool_decide_eq_false_2.
    + simpl. rewrite (Qeq_bool_false _ _ Hnz). reflexivity.
    + intros H. apply shortfall_type_spec in H. congruence.
Qed.



(** C3, as the specification states it, fails: a zero threshold is not
    scored as high, the division raises. *)
Lemma calculate_severity_zero_not_high :
  calculate_severity (VNum 5) (VNum 0) "minimum_coverage"
  = Err ZeroDivisionError
  ∧ calculate_severity (VNum 5) (VNum 0) "minimum_coverage" ≠ Ok "high".
Proof. split; [reflexivity | discriminate]. Qed.

(** C3, amended.  For every numeric actual value and every constraint
    type, a threshold of zero makes the scorer raise a division-by-zero
    error; no severity is returned. *)
Theorem calculate_severity_zero_threshold (actual threshold : Q) (ty : string) :
  (threshold == 0)%Q →
  calculate_severity (VNum actual) (VNum threshold) ty = Err ZeroDivisionError.
Proof.
  intros Hz. apply Qeq_bool_iff in Hz.
  unfold calculate_severity.
  destruct (shortfall_type ty); simpl; rewrite Hz; reflexivity.
Qed.

Lemma calculate_severity_zero_threshold_witness :
  calculate_severity (VNum 12) (VNum 0) "temporal_consistency"
  = Err ZeroDivisionError.
Proof.
  apply (calculate_severity_zero_threshold 12 0 "temporal_consistency").
  reflexivity.
Defined.

(** ** The exception monad and its loops *)

Lemma bind_Ok_inv {A B} (m : result A) (f : A → result B) (b : B) :
  (m ≫= f) = Ok b → ∃ a, m = Ok a ∧ f a = Ok b.
Proof. destruct m as [a|e]; [eauto | discriminate]. Qed.

Lemma bind_ret {A} (m : result A) : (m ≫= λ x, Ok x) = m.
Proof. by destruct m. Qed.

Ltac inv_bind H :=
  repeat match type of H with
         | (_ ≫= _) = Ok _ =>
             let a := fresh "a" in
             let Ha := fresh "Ha" in
             apply bind_Ok_inv in H as (a & Ha & H)
         end.

(** A loop raises as soon as one of its iterations does. *)
Lemma foldlM_raises {A B} (f : A → B → result A) (a : A) (l : list B) (x : B) :
  In x l → (∀ acc, is_Err (f acc x)) → is_Err (foldlM f a l).
Proof.
  revert a. induction l as [|y l IH]; intros a Hin Hx; [destruct Hin|].
  simpl. destruct Hin as [->|Hin].
  - specialize (Hx a). by destruct (f a x).
  - destruct (f a y); simpl; [by apply IH | done].
Qed.

(** An invariant of the accumulator is an invariant of the loop. *)
Lemma foldlM_invariant {A B} (P : A → Prop) (f : A → B → result A)
    (a : A) (l : list B) (r : A) :
  (∀ acc x acc', In x l → P acc → f acc x = Ok acc' → P acc') →
  P a → foldlM f a l = Ok r → P r.
Proof.
  revert a. induction l as [|x l IH]; intros a Hstep Ha; simpl.
  - by intros [= <-].
  - intros H. apply bind_Ok_inv in H as (a' & Hf & Hrest).
    apply (IH a'); [|eapply Hstep; eauto; by left|done].
    intros acc y acc' Hy. apply Hstep. by right.
Qed.

(** A loop whose iterations only append to the accumulator computes the
    concatenation of what the iterations append. *)
Lemma foldlM_emit {A B} (f : list A → B → result (list A))
    (acc : list A) (l : list B) :
  (∀ acc x, f acc x = (f [] x ≫= λ ys, Ok (acc ++ ys))) →
  foldlM f acc l = (mapM (f []) l ≫= λ yss, Ok (acc ++ concat yss)).
Proof.
  intros Hf. revert acc. induction l as [|x l IH]; intros acc; simpl.
  - by rewrite app_nil_r.
  - rewrite (Hf acc x). destruct (f [] x) as [ys|e]; simpl; [|done].
    rewrite IH. destruct (mapM (f []) l) as [yss|e]; simpl; [|done].
    by rewrite app_assoc.
Qed.

Lemma mapM_Ok_Forall2 {A B} (f : A → result B) (l : list A) (k : list B) :
  mapM f l = Ok k ↔ Forall2 (λ x y, f x = Ok y) l k.
Proof.
  revert k. induction l as [|x l IH]; intros k; simpl.
  - split; [intros [= <-]; constructor | by inversion 1].
  - split.
    + intros H. apply bind_Ok_inv in H as (y & Hy & H).
      apply bind_Ok_inv in H as (k' & Hk' & [= <-]).
      constructor; [done | by apply IH].
    + inversion 1 as [|? y ? k' Hy Hk']; subst.
      rewrite Hy. simpl. apply IH in Hk'. by rewrite Hk'.
Qed.

Lemma mapM_map {A B C} (f : B → result C) (g : A → B) (l : list A) :
  mapM f (map g l) = mapM (λ x, f (g x)) l.
Proof. induction l as [|x l IH]; simpl; [done|]. by rewrite IH. Qed.

Lemma filter_none {A} (f : A → bool) (l : list A) :
  (∀ x, In x l → f x = false) → List.filter f l = [].
Proof.
  induction l as [|x l IH]; intros H; simpl; [done|].
  rewrite (H x) by (by left). apply IH. intros y Hy. apply H. by right.
Qed.

Lemma Forall2_In_r {A B} (R : A → B → Prop) (l : list A) (k : list B) (y : B) :
  Forall2 R l k → In y k → ∃ x, In x l ∧ R x y.
Proof.
  induction 1 as [|x y' l k Hxy _ IH]; intros Hy; [destruct Hy|].
  destruct Hy as [-> | Hy].
  - exists x. split; [by left | done].
  - destruct (IH Hy) as (x' & Hx' & HR). exists x'. split; [by right | done].
Qed.

Lemma Forall2_In_l {A B} (R : A → B → Prop) (l : list A) (k : list B) (x : A) :
  Forall2 R l k → In x l → ∃ y, In y k ∧ R x y.
Proof.
  induction 1 as [|x' y l k Hxy _ IH]; intros Hx; [destruct Hx|].
  destruct Hx as [-> | Hx].
  - exists y. split; [by left | done].
  - destruct (IH Hx) as (y' & Hy' & HR). exists y'. split; [by right | done].
Qed.

Lemma mapM_ext_in {A B} (f g : A → result B) (l : list A) :
  (∀ x, In x l → f x = g x) → mapM f l = mapM g l.
Proof.
  induction l as [|x l IH]; intros H; simpl; [done|].
  rewrite (H x) by (by left). rewrite IH; [done|].
  intros y Hy. apply H. by right.
Qed.

(** ** The detectors' loops *)

Ltac step_cases :=
  repeat (first
    [ match goal with
      | |- context [mbind _ ?m] =>
          lazymatch m with
          | Ok _ => fail
          | Err _ => fail
          | _ => destruct m as [?|?] eqn:?
          end
      end
    | match goal with
      | |- context [match ?x with _ => _ end] => destruct x eqn:?
      end ]; simplify_eq/=; rewrite ?app_nil_r; try done).

Section DetectorFacts.

Variable matches_target_group : Record → TargetGroup → result bool.
Variable get_district_name : Record → result PyVal.

Lemma metric_step_emit d p m drifts c :
  metric_step get_district_name d p m drifts c =
  (metric_step get_district_name d p m [] c ≫= λ ys, Ok (drifts ++ ys)).
Proof. unfold metric_step. step_cases. Qed.

Lemma temporal_record_step_emit c drifts r :
  temporal_record_step get_district_name c drifts r =
  (temporal_record_step get_district_name c [] r ≫= λ ys, Ok (drifts ++ ys)).
Proof. unfold temporal_record_step. step_cases. Qed.

Lemma temporal_step_emit hist drifts c :
  temporal_step get_district_name hist drifts c =
  (temporal_step get_district_name hist [] c ≫= λ ys, Ok (drifts ++ ys)).
Proof.
  unfold temporal_step.
  rewrite !(foldlM_emit _ _ _ (temporal_record_step_emit c)).
  by destruct (mapM _ hist).
Qed.

Lemma record_step_emit p acc r :
  record_step matches_target_group get_district_name p acc r =
  (record_step matches_target_group get_district_name p [] r
     ≫= λ ys, Ok (acc ++ ys)).
Proof.
  unfold record_step. by destruct (detect_metric_drift _ _ _ _ _).
Qed.

Lemma region_step_emit p acc g :
  region_step matches_target_group get_district_name p acc g =
  (region_step matches_target_group get_district_name p [] g
     ≫= λ ys, Ok (acc ++ ys)).
Proof.
  unfold region_step.
  rewrite !(foldlM_emit _ _ _ (record_step_emit p)).
  destruct (mapM _ (snd g)); simpl; [|done].
  destruct (detect_temporal_drift _ _ _); simpl; [|done].
  by rewrite app_assoc.
Qed.

End DetectorFacts.

(** ** Text where a number is expected *)

Lemma shortfall_not_temporal (c : Constraint) :
  c_type c = "minimum_coverage" ∨ c_type c = "resource_allocation" →
  is_temporal c = false.
Proof. unfold is_temporal. by intros [-> | ->]. Qed.

Lemma check_metric_constraint_shortfall value c tm :
  c_type c = "minimum_coverage" ∨ c_type c = "resource_allocation" →
  check_metric_constraint value c tm =
  (py_lt value (get_threshold c) ≫= λ b, Ok (b, get_threshold c)).
Proof. unfold check_metric_constraint. by intros [-> | ->]. Qed.

(** C4, as the specification states it, fails: a text value is compared,
    and the comparison raises. *)
Lemma text_metric_value_not_skipped :
  Cli.detect_metric_drift text_record coverage_policy (VStr "2024-01")
  = Err TypeError
  ∧ Cli.detect_metric_drift text_record coverage_policy (VStr "2024-01")
    ≠ Ok []
  ∧ Backend.detect_metric_drift text_record coverage_policy (VStr "2024-01")
    = Err TypeError.
Proof. vm_compute. repeat split; discriminate. Qed.

Section TextValues.

Variable matches_target_group : Record → TargetGroup → result bool.
Variable get_district_name : Record → result PyVal.

(** C4, amended.  When the field named by the metric of a
    [minimum_coverage] or [resource_allocation] constraint with a numeric
    threshold holds text, the value is not treated as missing: the
    iteration for that constraint raises a type error in the comparison,
    and, the constraint applying to the record's cohort, the per-record
    detector raises instead of returning findings. *)
Theorem detect_metric_drift_text_value
    (d : Record) (p : PolicyIntent) (m : PyVal) (c : Constraint)
    (s : string) (t : Q) :
  In c (constraints p) →
  c_type c = "minimum_coverage" ∨ c_type c = "resource_allocation" →
  c_threshold c = Some (VNum t) →
  dict_get d (c_metric c) = VStr s →
  (∀ g, classify_district matches_target_group d (target_groups p) = Ok g →
        applies g c = true) →
  (∀ drifts, metric_step get_district_name d p m drifts c = Err TypeError)
  ∧ is_Err (detect_metric_drift matches_target_group get_district_name d p m).
Proof.
  intros Hin Hty Hth Hval Happ.
  assert (Hstep : ∀ drifts,
             metric_step get_district_name d p m drifts c = Err TypeError).
  { intros drifts. unfold metric_step.
    rewrite (shortfall_not_temporal _ Hty), Hval.
    rewrite (check_metric_constraint_shortfall _ _ _ Hty).
    unfold get_threshold. by rewrite Hth. }
  split; [exact Hstep|].
  unfold detect_metric_drift.
  destruct (classify_district _ d _) as [g|e] eqn:Hg; simpl; [|done].
  apply (foldlM_raises _ _ _ c).
  - apply filter_In. split; [done | by apply Happ].
  - intros acc. by rewrite Hstep.
Qed.

End TextValues.

Lemma detect_metric_drift_text_value_witness :
  (∀ drifts,
     Cli.metric_step text_record coverage_policy (VStr "2024-01") drifts
       coverage_constraint = Err TypeError)
  ∧ is_Err (Cli.detect_metric_drift text_record coverage_policy
              (VStr "2024-01")).
Proof.
  apply (detect_metric_drift_text_value Cli.matches_target_group
           Cli.get_district_name text_record coverage_policy
           (VStr "2024-01") coverage_constraint "n/a" 80).
  - left. reflexivity.
  - left. reflexivity.
  - reflexivity.
  - reflexivity.
  - intros g Hg. injection Hg as <-. reflexivity.
Defined.

(** ** Grouping by region *)

Lemma key_eqb_refl k : key_eqb k k = true.
Proof. destruct k; simpl; auto using Qeq_bool_refl, String.eqb_refl. Qed.

Lemma key_eqb_sym a b : key_eqb a b = key_eqb b a.
Proof. destruct a, b; simpl; auto using Qeq_bool_comm, String.eqb_sym. Qed.

Lemma key_eqb_trans a b c :
  key_eqb a b = true → key_eqb b c = true → key_eqb a c = true.
Proof.
  destruct a, b, c; simpl; try done.
  - apply Qeq_bool_trans.
  - rewrite !String.eqb_eq. congruence.
Qed.

Lemma first_seen_snoc ks k :
  first_seen (ks ++ [k]) =
  if existsb (key_eqb k) (first_seen ks) then first_seen ks
  else first_seen ks ++ [k].
Proof. unfold first_seen. by rewrite fold_left_app. Qed.

(** Every key is represented among the first-seen keys. *)
Lemma first_seen_covers ks k :
  In k ks → existsb (key_eqb k) (first_seen ks) = true.
Proof.
  induction ks as [|k' ks IH] using rev_ind; [done|].
  rewrite first_seen_snoc, in_app_iff. intros [Hin | [-> | []]].
  - destruct (existsb (key_eqb k') _); [by apply IH|].
    rewrite existsb_app, IH; done.
  - destruct (existsb (key_eqb k) (first_seen ks)) eqn:E; [done|].
    rewrite existsb_app. simpl. by rewrite key_eqb_refl, orb_true_r.
Qed.

Lemma distinct_keys_snoc ks k :
  distinct_keys ks → existsb (key_eqb k) ks = false → distinct_keys (ks ++ [k]).
Proof.
  induction 1 as [|k' ks Hk' Hks IH]; simpl; intros Hk.
  - repeat constructor.
  - apply orb_false_elim in Hk as [Hkk' Hk].
    constructor; [|by apply IH].
    rewrite existsb_app, Hk'. simpl. by rewrite key_eqb_sym, Hkk'.
Qed.

Lemma first_seen_distinct ks : distinct_keys (first_seen ks).
Proof.
  induction ks as [|k ks IH] using rev_ind; [constructor|].
  rewrite first_seen_snoc.
  destruct (existsb _ _) eqn:E; [done | by apply distinct_keys_snoc].
Qed.

Section GroupInsert.
Variable data : list Record.
Variable r : Record.
Let k := district_key r.
Let G (k' : PyVal) := (k', region_history data k').
Let G' (k' : PyVal) := (k', region_history (data ++ [r]) k').

Lemma region_history_snoc k' :
  region_history (data ++ [r]) k' =
  region_history data k' ++ (if key_eqb k k' then [r] else []).
Proof. unfold region_history. rewrite List.filter_app. simpl. fold k. by destruct (key_eqb k k'). Qed.

Lemma group_insert_fresh ks :
  existsb (key_eqb k) ks = false →
  group_insert k r (map G ks) = map G' ks ++ [(k, [r])].
Proof.
  induction ks as [|k' ks IH]; simpl; [done|].
  intros H. apply orb_false_elim in H as [Hk' H].
  rewrite Hk'. rewrite IH by done. unfold G, G'. simpl.
  rewrite region_history_snoc, Hk', app_nil_r. done.
Qed.

Lemma group_insert_other ks :
  existsb (key_eqb k) ks = false → map G ks = map G' ks.
Proof.
  induction ks as [|k' ks IH]; simpl; [done|].
  intros H. apply orb_false_elim in H as [Hk' H].
  rewrite IH by done. unfold G, G'. by rewrite region_history_snoc, Hk', app_nil_r.
Qed.

Lemma group_insert_seen ks :
  distinct_keys ks → existsb (key_eqb k) ks = true →
  group_insert k r (map G ks) = map G' ks.
Proof.
  induction 1 as [|k' ks Hk' Hks IH]; simpl; [done|].
  destruct (key_eqb k k') eqn:E; simpl.
  - intros _. unfold G, G'. rewrite region_history_snoc, E. f_equal.
    apply group_insert_other.
    destruct (existsb (key_eqb k) ks) eqn:E'; [|done].
    apply existsb_exists in E' as (k'' & Hin & Hkk'').
    assert (existsb (key_eqb k') ks = true); [|congruence].
    apply existsb_exists. exists k''. split; [done|].
    apply key_eqb_trans with k; [by rewrite key_eqb_sym | done].
  - intros H. rewrite IH by done. unfold G, G'.
    by rewrite region_history_snoc, E, app_nil_r.
Qed.
End GroupInsert.

Lemma region_history_unseen data k :
  existsb (key_eqb k) (first_seen (map district_key data)) = false →
  region_history data k = [].
Proof.
  intros H. apply filter_none. intros r Hr.
  destruct (key_eqb (district_key r) k) eqn:E; [|done].
  assert (Hc : existsb (key_eqb (district_key r))
                 (first_seen (map district_key data)) = true).
  { apply first_seen_covers. by apply in_map. }
  apply existsb_exists in Hc as (k' & Hin & Hk').
  assert (existsb (key_eqb k) (first_seen (map district_key data)) = true);
    [|congruence].
  apply existsb_exists. exists k'. split; [done|].
  apply key_eqb_trans with (district_key r); [by rewrite key_eqb_sym | done].
Qed.

Lemma group_all_spec data :
  group_all data =
  map (λ k, (k, region_history data k)) (first_seen (map district_key data)).
Proof.
  induction data as [|r data IH] using rev_ind; [done|].
  unfold group_all. rewrite fold_left_app. simpl. fold (group_all data).
  rewrite IH, map_app. simpl. rewrite first_seen_snoc.
  destruct (existsb _ _) eqn:E.
  - apply group_insert_seen; [apply first_seen_distinct | done].
  - rewrite group_insert_fresh by done. rewrite map_app. simpl.
    rewrite region_history_snoc, (region_history_unseen _ _ E).
    by rewrite key_eqb_refl.
Qed.

Lemma group_step_key groups r :
  group_step groups r =
  (dict_getitem r "district_id" ≫= λ _,
   Ok (group_insert (district_key r) r groups)).
Proof.
  unfold group_step, dict_getitem, district_key, dict_get.
  by destruct (r !! "district_id").
Qed.

Lemma group_records_loop data groups :
  foldlM group_step groups data =
  (mapM (λ r, dict_getitem r "district_id") data ≫= λ _,
   Ok (fold_left (λ g r, group_insert (district_key r) r g) data groups)).
Proof.
  revert groups. induction data as [|r data IH]; intros groups; simpl; [done|].
  rewrite group_step_key.
  destruct (dict_getitem r "district_id"); simpl; [|done].
  rewrite IH. by destruct (mapM _ data).
Qed.

Lemma group_records_spec data :
  group_records data =
  (mapM (λ r, dict_getitem r "district_id") data ≫= λ _,
   Ok (map (λ k, (k, region_history data k))
           (first_seen (map district_key data)))).
Proof.
  unfold group_records. rewrite group_records_loop.
  fold (group_all data). by rewrite group_all_spec.
Qed.


(** The regions cover the input: a record lies in the history of the
    first-seen key equal to its own. *)
Lemma regions_cover (data : list Record) (r : Record) :
  In r data → ∃ h, In h (regions data) ∧ In r h.
Proof.
  intros Hr.
  assert (Hc : existsb (key_eqb (district_key r))
                 (first_seen (map district_key data)) = true).
  { apply first_seen_covers. by apply in_map. }
  apply existsb_exists in Hc as (k & Hk & Hrk).
  exists (region_history data k). split.
  - unfold regions. by apply in_map.
  - unfold region_history. by apply filter_In.
Qed.

Example regions_sample_data :
  regions sample_data
  = [[sample_row "D1" "Alpha" "2024-01" 65 72 5;
      sample_row "D1" "Alpha" "2024-02" 65 50 25];
     [sample_row "D2" "Beta" "2024-01" 80 90 5]].
Proof. vm_compute. reflexivity. Qed.

(** ** The aggregator *)

Section Aggregator.
Variable matches_target_group : Record → TargetGroup → result bool.
Variable get_district_name : Record → result PyVal.

Lemma region_step_block p g :
  region_step matches_target_group get_district_name p [] g =
  region_block matches_target_group get_district_name p (snd g).
Proof.
  unfold region_step, region_block.
  rewrite (foldlM_emit _ _ _ (record_step_emit _ _ p)).
  rewrite (mapM_ext_in _ (λ r, detect_metric_drift matches_target_group
                                 get_district_name r p (month_of r))).
  - by destruct (mapM _ (snd g)).
  - intros r _. unfold record_step. apply bind_ret.
Qed.

Lemma detect_all_drift_refines data p :
  detect_all_drift matches_target_group get_district_name data p =
  detect_all_spec matches_target_group get_district_name data p.
Proof.
  unfold detect_all_drift, detect_all_spec.
  rewrite group_records_spec.
  destruct (mapM _ data) as [ids|e]; simpl; [|done].
  rewrite (foldlM_emit _ _ _ (region_step_emit _ _ p)).
  unfold regions. rewrite !mapM_map.
  rewrite (mapM_ext_in _ (λ k, region_block matches_target_group
                                 get_district_name p (region_history data k))).
  - done.
  - intros k _. apply region_step_block.
Qed.


Lemma Forall2_exists_map {A B C} (Q : A → C → Prop) (F : C → B)
    (l : list A) (bl : list B) :
  Forall2 (λ h b, ∃ y, Q h y ∧ b = F y) l bl →
  ∃ ys, Forall2 Q l ys ∧ bl = map F ys.
Proof.
  induction 1 as [|h b l bl (y & Hy & ->) _ (ys & Hys & ->)].
  - exists []. by split; [constructor|].
  - exists (y :: ys). by split; [constructor|].
Qed.

Lemma region_block_Ok p hist b :
  region_block matches_target_group get_district_name p hist = Ok b ↔
  ∃ blk, block_of matches_target_group get_district_name p hist blk
         ∧ b = block_findings blk.
Proof.
  unfold region_block, block_of, block_findings. split.
  - intros H. inv_bind H. injection H as <-.
    exists (a, a0). simpl. by rewrite <- mapM_Ok_Forall2.
  - intros ([ms ts] & [Hms Hts] & ->). simpl in *.
    apply mapM_Ok_Forall2 in Hms. by rewrite Hms, Hts.
Qed.

Lemma length_block_findings blocks :
  length (concat (map block_findings blocks)) =
  list_sum (map block_count blocks).
Proof.
  induction blocks as [|b blocks IH]; simpl; [done|].
  rewrite length_app, IH. f_equal.
  unfold block_findings, block_count.
  by rewrite length_app, length_concat.
Qed.

Lemma dict_getitem_Some (d : Record) k v :
  d !! k = Some v → dict_getitem d k = Ok v.
Proof. unfold dict_getitem. by intros ->. Qed.


Lemma dict_getitem_Ok_inv (d : Record) k v :
  dict_getitem d k = Ok v → d !! k = Some v.
Proof. unfold dict_getitem. destruct (d !! k); by intros [= <-]. Qed.

Lemma district_ids_Ok (data : list Record) :
  (∀ r, In r data → is_Some (r !! "district_id")) →
  ∃ ids, mapM (λ r, dict_getitem r "district_id") data = Ok ids.
Proof.
  induction data as [|r data IH]; intros H; simpl; [by eexists|].
  destruct (H r) as [v Hv]; [by left|].
  destruct IH as [ids Hids]; [intros r' Hr'; apply H; by right|].
  rewrite (dict_getitem_Some _ _ _ Hv), Hids. simpl. by eexists.
Qed.

Lemma district_ids_Ok_inv (data : list Record) ids :
  mapM (λ r, dict_getitem r "district_id") data = Ok ids →
  ∀ r, In r data → is_Some (r !! "district_id").
Proof.
  revert ids. induction data as [|r data IH]; intros ids H r' Hr'.
  - destruct Hr'.
  - simpl in H. inv_bind H. destruct Hr' as [<- | Hr'].
    + apply dict_getitem_Ok_inv in Ha. by eexists.
    + by eapply IH.
Qed.

(** C8.  The aggregator computes what the specification describes: the
    concatenation, over the regions in first-seen order, of the region's
    per-record findings (in input order) followed by its temporal
    findings.  It returns exactly when every record carries a region
    identifier and every per-record and per-region pass returns; the
    number of findings is then the sum over the regions of the per-record
    counts plus the temporal count. *)
Theorem detect_all_drift_blocks (data : list Record) (p : PolicyIntent) :
  detect_all_drift matches_target_group get_district_name data p
  = detect_all_spec matches_target_group get_district_name data p
  ∧ ∀ out,
      detect_all_drift matches_target_group get_district_name data p = Ok out
      ↔ (∀ r, In r data → is_Some (r !! "district_id"))
        ∧ ∃ blocks,
            Forall2 (block_of matches_target_group get_district_name p)
                    (regions data) blocks
            ∧ out = concat (map block_findings blocks)
            ∧ length out = list_sum (map block_count blocks).
Proof.
  split; [apply detect_all_drift_refines|].
  intros out. rewrite detect_all_drift_refines. unfold detect_all_spec. split.
  - intros H. inv_bind H. injection H as <-.
    split; [by eapply district_ids_Ok_inv|].
    apply mapM_Ok_Forall2 in Ha0.
    assert (Hb : Forall2
                   (λ h b, ∃ blk,
                      block_of matches_target_group get_district_name p h blk
                      ∧ b = block_findings blk) (regions data) a0).
    { eapply Forall2_impl; [exact Ha0|].
      intros h b Hb. by apply region_block_Ok. }
    apply Forall2_exists_map in Hb as (blocks & Hblocks & ->).
    exists blocks. split; [done|]. split; [done|].
    apply length_block_findings.
  - intros [Hids (blocks & Hblocks & -> & _)].
    destruct (district_ids_Ok _ Hids) as [ids ->]. simpl.
    assert (Hm : mapM (region_block matches_target_group get_district_name p)
                   (regions data) = Ok (map block_findings blocks)).
    { apply mapM_Ok_Forall2. apply Forall2_fmap_r.
      eapply Forall2_impl; [exact Hblocks|].
      intros h b Hb. apply region_block_Ok. by exists b. }
    by rewrite Hm.
Qed.

End Aggregator.

Lemma detect_all_drift_blocks_witness :
  (∀ r, In r sample_data → is_Some (r !! "district_id"))
  ∧ ∃ blocks,
      Forall2 (block_of Cli.matches_target_group Cli.get_district_name
                 sample_policy)
              (regions sample_data) blocks
      ∧ sample_findings = concat (map block_findings blocks)
      ∧ length sample_findings = list_sum (map block_count blocks).
Proof.
  apply (proj2 (detect_all_drift_blocks Cli.matches_target_group
                  Cli.get_district_name sample_data sample_policy)
               sample_findings).
  vm_compute. reflexivity.
Defined.

(** ** What a finding records *)

Section Findings.

Variable matches_target_group : Record → TargetGroup → result bool.
Variable get_district_name : Record → result PyVal.

Lemma metric_step_sound d p m acc c acc' :
  metric_step get_district_name d p m acc c = Ok acc' →
  In c (constraints p) →
  Forall (metric_finding get_district_name d p m) acc →
  Forall (metric_finding get_district_name d p m) acc'.
Proof.
  unfold metric_step. intros H Hin Hacc.
  destruct (is_temporal c) eqn:Htemp; [by simplify_eq|].
  destruct (dict_get d (c_metric c)) as [|q|s] eqn:Hval; [by simplify_eq|..].
  all: inv_bind H; destruct a as [[] t]; [|by simplify_eq].
  all: inv_bind H; simplify_eq.
  all: apply Forall_app; split; [done|]; constructor; [|constructor].
  all: unfold metric_finding; simpl; rewrite Hval; repeat split; try done.
Qed.

Lemma detect_metric_drift_sound d p m ds :
  detect_metric_drift matches_target_group get_district_name d p m = Ok ds →
  Forall (metric_finding get_district_name d p m) ds.
Proof.
  unfold detect_metric_drift. intros H. inv_bind H.
  eapply (foldlM_invariant _ _ _ _ _ _ _ H). Unshelve.
  - intros acc c acc' Hc Hacc Hstep.
    apply filter_In in Hc as [Hc _].
    by eapply metric_step_sound.
  - constructor.
Qed.

Lemma temporal_record_step_sound p c acc r acc' (P : DriftResult → Prop) :
  temporal_record_step get_district_name c acc r = Ok acc' →
  In c (constraints p) → is_temporal c = true →
  (∀ x, temporal_finding get_district_name r p x → P x) →
  Forall P acc → Forall P acc'.
Proof.
  unfold temporal_record_step. intros H Hin Htemp HP Hacc.
  destruct (dict_get r (c_metric c)) as [|q|s] eqn:Hval; [by simplify_eq|..].
  all: inv_bind H; destruct a; [|by simplify_eq].
  all: inv_bind H; simplify_eq.
  all: apply Forall_app; split; [done|]; constructor; [|constructor].
  all: apply HP; unfold temporal_finding; simpl; rewrite Hval;
    repeat split; try done.
Qed.

Lemma detect_temporal_drift_sound hist p ds :
  detect_temporal_drift get_district_name hist p = Ok ds →
  Forall (λ x, ∃ r, In r hist ∧ temporal_finding get_district_name r p x) ds.
Proof.
  unfold detect_temporal_drift.
  destruct (length hist <? 2)%nat; [intros [= <-]; constructor|].
  intros H. eapply (foldlM_invariant _ _ _ _ _ _ _ H). Unshelve.
  - intros acc c acc' Hc Hacc Hstep. apply filter_In in Hc as [Hc Htemp].
    unfold temporal_step in Hstep.
    eapply (foldlM_invariant _ _ _ _ _ _ _ Hstep). Unshelve.
    + intros acc1 r acc1' Hr Hacc1 Hrec.
      eapply temporal_record_step_sound; eauto.
    + done.
  - constructor.
Qed.

End Findings.

Section AllFindings.

Variable matches_target_group : Record → TargetGroup → result bool.
Variable get_district_name : Record → result PyVal.

Lemma regions_incl data h r : In h (regions data) → In r h → In r data.
Proof.
  unfold regions, region_history. intros Hh Hr.
  apply in_map_iff in Hh as (k & <- & _). by apply filter_In in Hr as [Hr _].
Qed.

(** Every finding of the aggregator was raised for a record of the input,
    by the per-record pass or by the temporal pass. *)
Lemma detect_all_drift_sound data p out :
  detect_all_drift matches_target_group get_district_name data p = Ok out →
  Forall (λ x, ∃ r, In r data
                    ∧ (metric_finding get_district_name r p (month_of r) x
                       ∨ temporal_finding get_district_name r p x)) out.
Proof.
  rewrite detect_all_drift_refines. unfold detect_all_spec.
  intros H. inv_bind H. injection H as <-.
  apply mapM_Ok_Forall2 in Ha0.
  apply List.Forall_forall. intros x Hx.
  apply in_concat in Hx as (b & Hb & Hx).
  destruct (Forall2_In_r _ _ _ _ Ha0 Hb) as (h & Hh & Hblock).
  unfold region_block in Hblock. inv_bind Hblock. injection Hblock as <-.
  apply in_app_iff in Hx as [Hx | Hx].
  - apply in_concat in Hx as (ms & Hms & Hx).
    apply mapM_Ok_Forall2 in Ha1.
    destruct (Forall2_In_r _ _ _ _ Ha1 Hms) as (r & Hr & Hm).
    apply detect_metric_drift_sound in Hm.
    exists r. split; [by eapply regions_incl|].
    left. by eapply List.Forall_forall in Hm.
  - apply detect_temporal_drift_sound in Ha2.
    eapply List.Forall_forall in Ha2 as (r & Hr & Hf); [|exact Hx].
    exists r. split; [by eapply regions_incl | by right].
Qed.

End AllFindings.

(** ** A constraint without threshold *)

Lemma py_lt_None_r v : py_lt v VNone = Err TypeError.
Proof. by destruct v. Qed.

Lemma py_gt_None_r v : py_gt v VNone = Err TypeError.
Proof. by destruct v. Qed.

Lemma get_threshold_missing c : c_threshold c = None → get_threshold c = VNone.
Proof. unfold get_threshold. by intros ->. Qed.

Lemma get_threshold_present c :
  get_threshold c ≠ VNone →
  ∃ t, c_threshold c = Some t ∧ t ≠ VNone ∧ get_threshold c = t.
Proof.
  unfold get_threshold. destruct (c_threshold c) as [t|]; [|done].
  intros Ht. by exists t.
Qed.

(** C5, as the specification states it, fails: a policy whose constraint
    lacks its threshold is accepted, and detection completes, when no
    record carries the metric; when one does, the failure is the type
    error of the comparison. *)
Lemma missing_threshold_not_reported :
  Cli.detect_all_drift [sparse_record] unchecked_policy = Ok []
  ∧ ¬ is_Err (Cli.detect_all_drift [sparse_record] unchecked_policy)
  ∧ Cli.detect_all_drift [covered_record] unchecked_policy = Err TypeError.
Proof.
  split; [reflexivity|]. split; [|reflexivity].
  intros H. vm_compute in H. exact H.
Qed.

Section MissingThreshold.

Variable matches_target_group : Record → TargetGroup → result bool.
Variable get_district_name : Record → result PyVal.

(** C5, amended.  A missing threshold is never replaced by a default and
    never reaches a finding, but the policy is not validated: a record
    without the constraint's metric is skipped, a record with it makes the
    comparison raise a type error, in the per-record pass and in the
    temporal pass alike; every finding the aggregator returns for a
    constraint of a known type carries that constraint's own threshold. *)
Theorem missing_threshold_never_defaulted :
  (∀ c d p m drifts,
     c_threshold c = None →
     c_type c = "minimum_coverage" ∨ c_type c = "resource_allocation" →
     (dict_get d (c_metric c) = VNone →
      metric_step get_district_name d p m drifts c = Ok drifts)
     ∧ (dict_get d (c_metric c) ≠ VNone →
        metric_step get_district_name d p m drifts c = Err TypeError))
  ∧ (∀ c r drifts,
       c_threshold c = None →
       (dict_get r (c_metric c) = VNone →
        temporal_record_step get_district_name c drifts r = Ok drifts)
       ∧ (dict_get r (c_metric c) ≠ VNone →
          temporal_record_step get_district_name c drifts r = Err TypeError))
  ∧ (∀ data p out x,
       detect_all_drift matches_target_group get_district_name data p
       = Ok out →
       In x out →
       known_type (c_type (constraint x)) →
       ∃ t, c_threshold (constraint x) = Some t ∧ t ≠ VNone
            ∧ expected_threshold x = t).
Proof.
  split; [|split].
  - intros c d p m drifts Hth Hty. unfold metric_step.
    rewrite (shortfall_not_temporal _ Hty).
    rewrite (check_metric_constraint_shortfall _ _ _ Hty).
    rewrite (get_threshold_missing _ Hth).
    split; [by intros ->|].
    intros Hv. rewrite py_lt_None_r.
    by destruct (dict_get d (c_metric c)).
  - intros c r drifts Hth. unfold temporal_record_step.
    rewrite (get_threshold_missing _ Hth).
    split; [by intros ->|].
    intros Hv. rewrite py_gt_None_r.
    by destruct (dict_get r (c_metric c)).
  - intros data p out x Hout Hx Hknown.
    apply detect_all_drift_sound in Hout.
    eapply List.Forall_forall in Hout as (r & _ & Hf); [|exact Hx].
    assert (Hthr : expected_threshold x = get_threshold (constraint x)
                   ∧ get_threshold (constraint x) ≠ VNone).
    { destruct Hf as [Hf | Hf].
      - destruct Hf as (_ & _ & _ & _ & _ & Htemp & _ & _ & Hcheck & _).
        destruct Hknown as [Hty | [Hty | Hty]].
        3: { unfold is_temporal in Htemp. by rewrite Hty in Htemp. }
        all: rewrite check_metric_constraint_shortfall in Hcheck by auto.
        all: inv_bind Hcheck; injection Hcheck as -> <-.
        all: split; [done|]; intros Hn; by rewrite Hn, py_lt_None_r in Ha.
      - destruct Hf as (_ & _ & _ & _ & _ & _ & _ & _ & Hthr & Hgt & _).
        split; [done|]. intros Hn. by rewrite Hthr, Hn, py_gt_None_r in Hgt. }
    destruct Hthr as [-> Hne].
    destruct (get_threshold_present _ Hne) as (t & Ht & Hnone & ->).
    by exists t.
Qed.

End MissingThreshold.

Lemma missing_threshold_never_defaulted_witness :
  Cli.metric_step sparse_record unchecked_policy (VStr "2024-01") []
    unchecked_constraint = Ok []
  ∧ Cli.metric_step covered_record unchecked_policy (VStr "2024-01") []
      unchecked_constraint = Err TypeError
  ∧ ∀ x, In x sample_findings →
         known_type (c_type (constraint x)) →
         ∃ t, c_threshold (constraint x) = Some t ∧ t ≠ VNone
              ∧ expected_threshold x = t.
Proof.
  pose proof (missing_threshold_never_defaulted Cli.matches_target_group
                Cli.get_district_name) as (Hmetric & _ & Hall).
  split; [|split].
  - apply (Hmetric unchecked_constraint sparse_record unchecked_policy
             (VStr "2024-01") [] eq_refl (or_introl eq_refl)).
    reflexivity.
  - apply (Hmetric unchecked_constraint covered_record unchecked_policy
             (VStr "2024-01") [] eq_refl (or_introl eq_refl)).
    discriminate.
  - intros x. apply (Hall sample_data sample_policy sample_findings x).
    vm_compute. reflexivity.
Defined.

(** ** Region identity *)





(** In [backend/drift/detector.py] the missing name is replaced. *)
Lemma backend_name_default (d : Record) :
  d !! "district_name" = None →
  Backend.get_district_name d = Ok (VStr "Unknown").
Proof.
  intros H. unfold Backend.get_district_name, dict_get_or. by rewrite H.
Qed.

(** ** The temporal pass *)

Lemma calculate_severity_defined (actual threshold : Q) (ty : string) :
  ¬ (threshold == 0)%Q →
  ∃ s, calculate_severity (VNum actual) (VNum threshold) ty = Ok s.
Proof.
  intros Hnz. rewrite (calculate_severity_num _ _ _ Hnz). cbv zeta.
  destruct (Qltb 30 _); [by eexists|]. destruct (Qltb 15 _); by eexists.
Qed.


Section TemporalPass.

Variable get_district_name : Record → result PyVal.


End TemporalPass.

(** Whenever the temporal detector returns, it has reported every record
    whose value exceeds the threshold of a [temporal_consistency]
    constraint. *)
Lemma detect_temporal_drift_complete gdn hist p ds c r :
  detect_temporal_drift gdn hist p = Ok ds →
  (2 ≤ length hist)%nat →
  In c (constraints p) → is_temporal c = true → In r hist →
  dict_get r (c_metric c) ≠ VNone →
  py_gt (dict_get r (c_metric c)) (get_threshold c) = Ok true →
  ∃ x, In x ds ∧ constraint x = c ∧ temporal_finding gdn r p x.
Proof.
  intros Hds Hlen Hc Htemp Hr Hval Hgt.
  unfold detect_temporal_drift in Hds.
  rewrite (proj2 (Nat.ltb_ge _ _) Hlen) in Hds.
  rewrite (foldlM_emit _ _ _ (temporal_step_emit _ hist)) in Hds.
  inv_bind Hds. injection Hds as <-.
  apply mapM_Ok_Forall2 in Ha.
  destruct (Forall2_In_l _ _ _ c Ha) as (ys & Hys & Hstep);
    [by apply filter_In|].
  unfold temporal_step in Hstep.
  rewrite (foldlM_emit _ _ _ (temporal_record_step_emit _ c)) in Hstep.
  inv_bind Hstep. injection Hstep as <-.
  apply mapM_Ok_Forall2 in Ha0.
  destruct (Forall2_In_l _ _ _ r Ha0 Hr) as (zs & Hzs & Hrec).
  unfold temporal_record_step in Hrec. rewrite Hgt in Hrec.
  destruct (dict_get r (c_metric c)) eqn:E; [done|..].
  all: simpl in Hrec; inv_bind Hrec; simplify_eq.
  all: eexists; split;
    [apply in_concat; eexists; split; [exact Hys|];
     apply in_concat; eexists; split; [exact Hzs | by left]|].
  all: split; [done|]; unfold temporal_finding; simpl; rewrite E;
    by repeat split.
Qed.


(** The scenario of the specification: variances 5 and 25 against the
    threshold 10 give one finding, for the second month. *)
Example detect_temporal_drift_scenario :
  Cli.detect_temporal_drift sample_history sample_policy
  = Ok [mkDriftResult "temporal" (VStr "D1") (VStr "Alpha")
          variance_constraint (VNum 25) (VNum 10) (VStr "2024-02") "high"].
Proof. vm_compute. reflexivity. Qed.

(** ** Cohort classification *)

Lemma all_loop_Ok {B} (body : B → result bool) (g : B → bool) (l : list B) :
  (∀ x, In x l → body x = Ok (g x)) → all_loop body l = Ok (forallb g l).
Proof.
  induction l as [|x l IH]; intros H; simpl; [done|].
  rewrite (H x) by (by left). simpl.
  destruct (g x); [|done]. apply IH. intros y Hy. apply H. by right.
Qed.

Lemma classify_district_spec mtg (d : Record) (groups : list TargetGroup) :
  (∀ g, In g groups →
        mtg d g = Ok (forallb (spec_satisfies d) (tg_criteria g))) →
  classify_district mtg d groups = Ok (spec_classify d groups).
Proof.
  unfold spec_classify.
  induction groups as [|g groups IH]; intros H; simpl; [done|].
  rewrite (H g) by (by left). simpl.
  destruct (forallb _ _); [done|]. apply IH. intros g' Hg'. apply H. by right.
Qed.

Lemma Qltb_negb_le (x y : Q) : Qltb x y = negb (Qle_bool y x).
Proof. reflexivity. Qed.

Lemma range_check_spec (v : Q) (b : Band) :
  numeric_bound (b_min b) → numeric_bound (b_max b) →
  (below ← match b_min b with
           | Some lo => py_lt (VNum v) lo
           | None => Ok false
           end;
   if (below : bool) then Ok false
   else
     above ← match b_max b with
             | Some hi => py_gt (VNum v) hi
             | None => Ok false
             end;
     if (above : bool) then Ok false else Ok true)
  = Ok (spec_within v b).
Proof.
  unfold spec_within, numeric_bound.
  destruct (b_min b) as [[|lo|]|], (b_max b) as [[|hi|]|]; try done; simpl;
    intros _ _; rewrite ?Qltb_negb_le;
    repeat (match goal with
            | |- context [Qle_bool ?x ?y] => destruct (Qle_bool x y)
            end; simpl); done.
Qed.

Lemma backend_criterion_spec (d : Record) (fc : string * Condition) :
  typed_criterion fc → numeric_field d fc →
  Backend.criterion_holds d fc = Ok (spec_satisfies d fc).
Proof.
  destruct fc as [field cond].
  unfold typed_criterion, numeric_field, Backend.criterion_holds,
    spec_satisfies. simpl.
  destruct (dict_get d field) as [|v|s]; [by destruct cond as [|[]]| |done].
  destruct cond as [b|[|n|]]; try done.
  - intros [Hlo Hhi] _. by apply range_check_spec.
  - intros _ _. simpl. by destruct (Qeq_bool v n).
Qed.

Lemma cli_criterion_spec (d : Record) (fc : string * Condition) :
  range_criterion fc → numeric_field d fc →
  Cli.criterion_holds d fc = Ok (spec_satisfies d fc).
Proof.
  destruct fc as [field cond].
  unfold range_criterion, numeric_field, Cli.criterion_holds,
    spec_satisfies. simpl.
  destruct cond as [b|]; [|done].
  destruct (dict_get d field) as [|v|s]; [done| |done].
  intros [Hlo Hhi] _. rewrite <- (range_check_spec v b Hlo Hhi).
  unfold cond_contains, cond_getitem, band_lookup. simpl.
  by destruct (b_min b), (b_max b).
Qed.

(** The classifier of [backend/drift/detector.py] returns the first group
    all of whose criteria hold, and "unclassified" when there is none,
    for criteria that are numeric ranges or numeric scalars; a missing
    field fails the group without error. *)
Lemma backend_classify_district_spec (d : Record) (groups : list TargetGroup) :
  (∀ g fc, In g groups → In fc (tg_criteria g) →
           typed_criterion fc ∧ numeric_field d fc) →
  Backend.classify_district d groups = Ok (spec_classify d groups).
Proof.
  intros H. apply classify_district_spec. intros g Hg.
  apply all_loop_Ok. intros fc Hfc.
  destruct (H g fc Hg Hfc). by apply backend_criterion_spec.
Qed.

(** The classifier of [src/drift_detector.py] does so for criteria that
    are numeric ranges. *)
Lemma cli_classify_district_spec (d : Record) (groups : list TargetGroup) :
  (∀ g fc, In g groups → In fc (tg_criteria g) →
           range_criterion fc ∧ numeric_field d fc) →
  Cli.classify_district d groups = Ok (spec_classify d groups).
Proof.
  intros H. apply classify_district_spec. intros g Hg.
  apply all_loop_Ok. intros fc Hfc.
  destruct (H g fc Hg Hfc). by apply cli_criterion_spec.
Qed.

(** A record without the field of a criterion fails the group, in both
    files, whatever the criterion; nothing is raised. *)
Lemma missing_field_fails_group (d : Record) (field : string)
    (cond : Condition) (rest : list (string * Condition)) (name : string) :
  dict_get d field = VNone →
  Cli.matches_target_group d (mkTargetGroup name ((field, cond) :: rest))
  = Ok false
  ∧ Backend.matches_target_group d (mkTargetGroup name ((field, cond) :: rest))
    = Ok false.
Proof.
  intros H. unfold Cli.matches_target_group, Backend.matches_target_group.
  simpl. by rewrite H.
Qed.

(** A criterion that is a text value is compared by neither file: the
    group matches whatever text the record holds. *)
Example classify_district_text_criterion :
  Cli.classify_district kerala_record [state_group] = Ok "bihar_districts"
  ∧ Backend.classify_district kerala_record [state_group]
    = Ok "bihar_districts".
Proof. vm_compute. by split. Qed.

(** Whatever the record holds in the field, a numeric scalar makes the
    matching of [src/intent_parser.py] raise, where that of
    [backend/drift/detector.py] compares the two values. *)
Lemma scalar_criterion_compared (d : Record) (field : string) (n : Q) :
  dict_get d field ≠ VNone →
  Cli.criterion_holds d (field, CScalar (VNum n)) = Err TypeError
  ∧ Backend.criterion_holds d (field, CScalar (VNum n))
    = Ok (negb (py_ne (dict_get d field) (VNum n))).
Proof.
  intros H. unfold Cli.criterion_holds, Backend.criterion_holds.
  destruct (dict_get d field) as [|v|s]; [done|..]; simpl.
  - split; [done|]. by destruct (Qeq_bool v n).
  - by split.
Qed.

(** C6.  A criterion that is an exact numeric value is not compared by
    [matches_target_group] of [src/intent_parser.py]: the membership test
    on the number raises a type error, where the specification, and
    [backend/drift/detector.py], select the group. *)
Theorem classify_district_scalar_criterion :
  Cli.matches_target_group literate_record exact_group = Err TypeError
  ∧ Cli.classify_district literate_record [exact_group] = Err TypeError
  ∧ Backend.classify_district literate_record [exact_group]
    = Ok "priority_districts"
  ∧ spec_classify literate_record [exact_group] = "priority_districts".
Proof. vm_compute. by repeat split. Qed.

(** ** The summary *)

Lemma bump_lookup (k k' : string) (m : gmap string nat) :
  default 0%nat (bump k m !! k') =
  (default 0%nat (m !! k') + (if String.eqb k k' then 1 else 0))%nat.
Proof.
  unfold bump. destruct (String.eqb_spec k k') as [->|Hne].
  - by rewrite lookup_insert_eq.
  - rewrite lookup_insert_ne by done. lia.
Qed.

Lemma bump_all_count {A} (f : A → string) (l : list A)
    (m0 : gmap string nat) (k : string) :
  default 0%nat (foldl (λ m d, bump (f d) m) m0 l !! k) =
  (default 0%nat (m0 !! k)
   + length (List.filter (λ d, String.eqb (f d) k) l))%nat.
Proof.
  revert m0. induction l as [|d l IH]; intros m0; simpl; [lia|].
  rewrite IH, bump_lookup. destruct (String.eqb (f d) k); simpl; lia.
Qed.


Section SummaryFacts.

Variable str_of_num : Q → string.




End SummaryFacts.


(** The severities the detectors assign are the three the summary counts. *)
Lemma calculate_severity_range actual threshold ty s :
  calculate_severity actual threshold ty = Ok s →
  s = "high" ∨ s = "medium" ∨ s = "low".
Proof.
  unfold calculate_severity. intros H. inv_bind H.
  destruct (Qltb 30 _); [left; congruence|].
  destruct (Qltb 15 _); [right; left; congruence | right; right; congruence].
Qed.

Lemma detect_all_drift_severities mtg gdn data p out d :
  detect_all_drift mtg gdn data p = Ok out → In d out →
  severity d = "high" ∨ severity d = "medium" ∨ severity d = "low".
Proof.
  intros Hout Hd. apply detect_all_drift_sound in Hout.
  eapply List.Forall_forall in Hout as (r & _ & [Hf | Hf]); [| |exact Hd].
  - destruct Hf as (_ & _ & _ & _ & _ & _ & _ & _ & _ & Hs).
    by eapply calculate_severity_range.
  - destruct Hf as (_ & _ & _ & _ & _ & _ & _ & _ & _ & _ & Hs).
    by eapply calculate_severity_range.
Qed.

(** The per-record pass never reports a [temporal_consistency]
    constraint. *)
Lemma detect_metric_drift_not_temporal mtg gdn d p m ds x :
  detect_metric_drift mtg gdn d p m = Ok ds → In x ds →
  c_type (constraint x) ≠ "temporal_consistency".
Proof.
  intros Hds Hx. apply detect_metric_drift_sound in Hds.
  eapply List.Forall_forall in Hds; [|exact Hx].
  destruct Hds as (_ & _ & _ & _ & _ & Htemp & _).
  unfold is_temporal in Htemp. by apply String.eqb_neq.
Qed.

(** ** Ingestion *)

(** A value that does not parse as a number is kept as text. *)
Lemma process_value_keeps_text parse_float (key value : string) :
  parse_float value = None → process_value parse_float key value = VStr value.
Proof.
  intros H. unfold process_value. rewrite H. by destruct (bool_decide _).
Qed.

(** The row of the sample whose coverage column holds "n/a" is what
    ingestion produces from the text of the file. *)
Example text_record_ingested (parse_float : string → option Q) :
  parse_float "n/a" = None →
  process_row parse_float
    [("district_id", "D1"); ("district_name", "Alpha");
     ("coverage_percentage", "n/a")]
  = text_record.
Proof.
  intros H. unfold process_row. simpl.
  rewrite (process_value_keeps_text _ "coverage_percentage" _ H).
  unfold process_value. simpl.
  apply map_eq. intros k. unfold text_record.
  rewrite !lookup_insert. repeat case_decide; subst; try done.
  by rewrite lookup_empty, lookup_singleton_ne.
Qed.

(** ** The scenarios of the specification *)

Example scenario_low_severity :
  Cli.detect_metric_drift (sample_row "D1" "Alpha" "2024-01" 65 72 5)
    sample_policy (VStr "2024-01")
  = Ok [mkDriftResult "metric" (VStr "D1") (VStr "Alpha") priority_coverage
          (VNum 72) (VNum 80) (VStr "2024-01") "low"].
Proof. vm_compute. reflexivity. Qed.

Example scenario_high_severity :
  Cli.detect_metric_drift (sample_row "D1" "Alpha" "2024-02" 65 50 25)
    sample_policy (VStr "2024-02")
  = Ok [mkDriftResult "metric" (VStr "D1") (VStr "Alpha") priority_coverage
          (VNum 50) (VNum 80) (VStr "2024-02") "high"].
Proof. vm_compute. reflexivity. Qed.

Example scenario_missing_metric :
  Cli.detect_metric_drift sparse_record coverage_policy (VStr "2024-01")
  = Ok []
  ∧ Backend.detect_metric_drift sparse_record coverage_policy (VStr "2024-01")
    = Ok [].
Proof. vm_compute. by split. Qed.

Example scenario_aggregate :
  Cli.detect_all_drift sample_data sample_policy = Ok sample_findings
  ∧ Backend.detect_all_drift sample_data sample_policy = Ok sample_findings.
Proof. vm_compute. by split. Qed.

(** * Further properties *)

(** ** The evaluator on unrecognized types *)

Lemma unknown_type_eqb (ty : string) :
  ¬ known_type ty →
  String.eqb ty "minimum_coverage" = false
  ∧ String.eqb ty "temporal_consistency" = false
  ∧ String.eqb ty "resource_allocation" = false.
Proof.
  unfold known_type. intros H.
  repeat split; apply String.eqb_neq; intros ->; tauto.
Qed.

(** X1.  For a constraint of an unrecognized type the evaluator falls back
    on the tolerance band of the metric: without a band nothing is
    violated, whatever the value; with a numeric band a number below the
    minimum is violated with the minimum as threshold (the minimum is
    tested first), a number above the maximum is violated with the
    maximum as threshold, and a number inside the inclusive band is not
    violated, the threshold returned being 0. *)
Theorem check_metric_constraint_band (c : Constraint) (tm : gmap string Band) :
  ¬ known_type (c_type c) →
  (tm !! c_metric c = None →
   ∀ value, check_metric_constraint value c tm = Ok (false, VNum 0))
  ∧ ∀ lo hi (v : Q),
      tm !! c_metric c = Some (num_band lo hi) →
      (∀ l, lo = Some l → (v < l)%Q →
            check_metric_constraint (VNum v) c tm = Ok (true, VNum l))
      ∧ (∀ h, hi = Some h → (h < v)%Q →
              (∀ l, lo = Some l → (l <= v)%Q) →
              check_metric_constraint (VNum v) c tm = Ok (true, VNum h))
      ∧ ((∀ l, lo = Some l → (l <= v)%Q) →
         (∀ h, hi = Some h → (v <= h)%Q) →
         check_metric_constraint (VNum v) c tm = Ok (false, VNum 0)).
Proof.
  intros Hty. destruct (unknown_type_eqb _ Hty) as (E1 & E2 & E3).
  unfold check_metric_constraint. rewrite E1, E2, E3. split.
  - by intros ->.
  - intros lo hi v ->. unfold num_band. simpl.
    split; [|split].
    + intros l -> Hlt. simpl. apply Qltb_lt in Hlt. by rewrite Hlt.
    + intros h -> Hlt Hlo. simpl. apply Qltb_lt in Hlt.
      destruct lo as [l|]; simpl.
      * specialize (Hlo l eq_refl). apply Qltb_ge in Hlo.
        by rewrite Hlo, Hlt.
      * by rewrite Hlt.
    + intros Hlo Hhi.
      destruct lo as [l|], hi as [h|]; simpl.
      all: try (specialize (Hlo _ eq_refl); apply Qltb_ge in Hlo; rewrite Hlo).
      all: try (specialize (Hhi _ eq_refl); apply Qltb_ge in Hhi; rewrite Hhi).
      all: done.
Qed.

Lemma check_metric_constraint_band_witness :
  check_metric_constraint (VStr "n/a") custom_constraint ∅ = Ok (false, VNum 0)
  ∧ check_metric_constraint (VNum 40) custom_constraint custom_metrics
    = Ok (true, VNum 60)
  ∧ check_metric_constraint (VNum 99) custom_constraint custom_metrics
    = Ok (true, VNum 95)
  ∧ check_metric_constraint (VNum 60) custom_constraint custom_metrics
    = Ok (false, VNum 0).
Proof.
  assert (Hty : ¬ known_type (c_type custom_constraint)).
  { intros [H | [H | H]]; discriminate H. }
  pose proof (check_metric_constraint_band custom_constraint ∅ Hty)
    as [Hnone _].
  pose proof (check_metric_constraint_band custom_constraint custom_metrics Hty)
    as [_ Hband].
  split; [|split; [|split]].
  - apply Hnone. reflexivity.
  - apply (proj1 (Hband (Some 60%Q) (Some 95%Q) 40%Q eq_refl) 60%Q eq_refl).
    reflexivity.
  - apply (proj1 (proj2 (Hband (Some 60%Q) (Some 95%Q) 99%Q eq_refl))
             95%Q eq_refl).
    + reflexivity.
    + intros l [= <-]. discriminate.
  - apply (proj2 (proj2 (Hband (Some 60%Q) (Some 95%Q) 60%Q eq_refl))).
    + intros l [= <-]. discriminate.
    + intros h [= <-]. discriminate.
Defined.

(** ** The severity scorer on positive and negative thresholds *)

Lemma deviation_above (k d t : Q) :
  (0 < t)%Q → (Qltb k (d / t * 100) = true ↔ (k * t < d * 100)%Q).
Proof.
  intros Ht. rewrite Qltb_lt.
  assert (E : (d / t * 100 == d * 100 / t)%Q) by (field; lra).
  rewrite E. split.
  - intros H. apply (Qmult_lt_compat_r _ _ t Ht) in H.
    rewrite Qmult_comm in H.
    assert (E2 : (d * 100 / t * t == d * 100)%Q) by (field; lra).
    rewrite E2 in H. lra.
  - intros H. apply Qlt_shift_div_l; [done | lra].
Qed.

Lemma Qltb_deviation (k d t : Q) :
  (0 < t)%Q → Qltb k (d / t * 100) = Qltb (k * t) (d * 100).
Proof.
  intros Ht. pose proof (deviation_above k d t Ht) as H.
  rewrite <- Qltb_lt in H.
  destruct (Qltb k _), (Qltb (k * t) _); try done.
  - by destruct H as [H _]; specialize (H eq_refl).
  - by destruct H as [_ H]; specialize (H eq_refl).
Qed.

Lemma calculate_severity_pos (a t : Q) (ty : string) :
  (0 < t)%Q →
  calculate_severity (VNum a) (VNum t) ty =
  let d := if shortfall_type ty then (t - a)%Q else (a - t)%Q in
  if Qltb (30 * t) (d * 100) then Ok "high"
  else if Qltb (15 * t) (d * 100) then Ok "medium"
  else Ok "low".
Proof.
  intros Ht. unfold calculate_severity.
  assert (Hz : Qeq_bool t 0 = false).
  { apply Qeq_bool_false. lra. }
  destruct (shortfall_type ty); unfold py_sub, py_truediv, mbind, result_bind;
    rewrite Hz; by rewrite !Qltb_deviation.
Qed.

Ltac qltb_cases :=
  repeat match goal with
         | |- context [Qltb ?x ?y] =>
             let E := fresh "E" in
             destruct (Qltb x y) eqn:E;
             [apply Qltb_lt in E | apply Qltb_ge in E]
         end.



(** X3.  For a positive threshold the severity is monotone in the actual
    value: for [minimum_coverage] and [resource_allocation] a larger
    value never has a graver tier, for every other type a larger value
    never has a milder one; in both cases a tier is returned. *)
Theorem calculate_severity_monotone (a1 a2 t : Q) (ty : string) :
  (0 < t)%Q → (a1 <= a2)%Q →
  ∃ s1 s2,
    calculate_severity (VNum a1) (VNum t) ty = Ok s1
    ∧ calculate_severity (VNum a2) (VNum t) ty = Ok s2
    ∧ (shortfall_type ty = true → (severity_rank s2 ≤ severity_rank s1)%nat)
    ∧ (shortfall_type ty = false → (severity_rank s1 ≤ severity_rank s2)%nat).
Proof.
  intros Ht Hle. rewrite !(calculate_severity_pos _ _ _ Ht).
  destruct (shortfall_type ty); cbv zeta; qltb_cases;
    (eexists; eexists; split; [reflexivity|]; split; [reflexivity|]);
    (split; intros Hs; try discriminate Hs);
    first [vm_compute; lia | exfalso; lra].
Qed.

Lemma calculate_severity_monotone_witness :
  ∃ s1 s2,
    calculate_severity (VNum 50) (VNum 80) "minimum_coverage" = Ok s1
    ∧ calculate_severity (VNum 72) (VNum 80) "minimum_coverage" = Ok s2
    ∧ (shortfall_type "minimum_coverage" = true →
       (severity_rank s2 ≤ severity_rank s1)%nat)
    ∧ (shortfall_type "minimum_coverage" = false →
       (severity_rank s1 ≤ severity_rank s2)%nat).
Proof.
  apply (calculate_severity_monotone 50 72 80 "minimum_coverage").
  - reflexivity.
  - discriminate.
Defined.

Lemma deviation_negative (d t : Q) :
  (t < 0)%Q → (0 < d)%Q → (d / t * 100 < 0)%Q.
Proof.
  intros Ht Hd.
  assert (E : (d / t * 100 == - (d * 100 / - t))%Q) by (field; lra).
  rewrite E.
  assert (0 < d * 100 / - t)%Q; [|lra].
  apply Qlt_shift_div_l; lra.
Qed.

(** X4.  Against a negative threshold every violation the evaluator flags
    for a constraint of a known type is scored low, however far the value
    lies from the threshold: the deviation is a percentage of the
    threshold and is negative. *)
Theorem negative_threshold_scored_low (value t : Q) (c : Constraint)
    (tm : gmap string Band) :
  known_type (c_type c) →
  c_threshold c = Some (VNum t) →
  (t < 0)%Q →
  check_metric_constraint (VNum value) c tm = Ok (true, VNum t) →
  calculate_severity (VNum value) (VNum t) (c_type c) = Ok "low".
Proof.
  intros Hty Hth Ht Hcheck.
  assert (Hz : Qeq_bool t 0 = false) by (apply Qeq_bool_false; lra).
  assert (Hlow : ∀ d, (0 < d)%Q →
            (if Qltb 30 (d / t * 100) then Ok "high"
             else if Qltb 15 (d / t * 100) then Ok "medium" else Ok "low")
            = (Ok "low" : result string)).
  { intros d Hd. pose proof (deviation_negative d t Ht Hd).
    qltb_cases; try done; lra. }
  unfold calculate_severity, py_sub, py_truediv, mbind, result_bind.
  unfold check_metric_constraint, get_threshold in Hcheck.
  rewrite Hth in Hcheck.
  destruct Hty as [Hty | [Hty | Hty]]; rewrite Hty in *; simpl in Hcheck;
    injection Hcheck as Hv; apply Qltb_lt in Hv;
    cbn [shortfall_type String.eqb orb Ascii.eqb Bool.eqb andb];
    rewrite Hz; apply Hlow; lra.
Qed.

Lemma negative_threshold_scored_low_witness :
  calculate_severity (VNum (-500)) (VNum (-10)) "minimum_coverage" = Ok "low".
Proof.
  apply (negative_threshold_scored_low (-500) (-10) negative_constraint ∅).
  - left. reflexivity.
  - reflexivity.
  - reflexivity.
  - reflexivity.
Defined.

(** ** The per-record and the temporal pass *)

Lemma sublist_filter_bool {A} (f : A → bool) (l : list A) :
  sublist (List.filter f l) l.
Proof.
  induction l as [|x l IH]; simpl; [constructor|].
  destruct (f x); by constructor.
Qed.

Lemma Forall2_Permutation_l {A B} (R : A → B → Prop) (l l' : list A) (k : list B) :
  Permutation l l' → Forall2 R l k →
  ∃ k', Forall2 R l' k' ∧ Permutation k k'.
Proof.
  intros Hp. revert k.
  induction Hp as [|x l l' _ IH|x y l|l l' l'' _ IH1 _ IH2]; intros k Hk.
  - inversion Hk; subst. exists []. by split.
  - inversion Hk as [|? y ? k0 Hxy Hk0]; subst.
    destruct (IH _ Hk0) as (k' & Hk' & Hp').
    exists (y :: k'). split; [by constructor | by constructor].
  - inversion Hk as [|? b1 ? k0 H1 Hk0]; subst.
    inversion Hk0 as [|? b2 ? k1 H2 Hk1]; subst.
    exists (b2 :: b1 :: k1). split; [by repeat constructor | constructor].
  - destruct (IH1 _ Hk) as (k1 & Hk1 & Hp1).
    destruct (IH2 _ Hk1) as (k2 & Hk2 & Hp2).
    exists k2. split; [done | by etrans].
Qed.

Lemma Permutation_concat {A} (k k' : list (list A)) :
  Permutation k k' → Permutation (concat k) (concat k').
Proof.
  induction 1 as [|x l l' _ IH|x y l|l l' l'' _ IH1 _ IH2]; simpl.
  - done.
  - by apply Permutation_app_head.
  - rewrite !app_assoc. apply Permutation_app_tail, Permutation_app_comm.
  - by etrans.
Qed.

Section PassOrder.
Variable matches_target_group : Record → TargetGroup → result bool.
Variable get_district_name : Record → result PyVal.

Lemma metric_step_single d p m c ys :
  metric_step get_district_name d p m [] c = Ok ys →
  ys = [] ∨ ∃ x, ys = [x] ∧ constraint x = c.
Proof.
  unfold metric_step. intros H.
  destruct (is_temporal c); [left; by simplify_eq|].
  destruct (dict_get d (c_metric c)); [left; by simplify_eq|..].
  all: inv_bind H; destruct a as [[] t]; [|left; by simplify_eq].
  all: inv_bind H; simplify_eq; right; by eexists.
Qed.

Lemma emitted_sublist {B} (f : B → result (list DriftResult))
    (l : list B) (yss : list (list DriftResult)) (key : B → Constraint) :
  (∀ b ys, f b = Ok ys → ys = [] ∨ ∃ x, ys = [x] ∧ constraint x = key b) →
  Forall2 (λ b ys, f b = Ok ys) l yss →
  sublist (map constraint (concat yss)) (map key l).
Proof.
  intros Hf. induction 1 as [|b ys l yss Hb _ IH]; simpl; [constructor|].
  destruct (Hf b ys Hb) as [-> | (x & -> & <-)]; simpl; by constructor.
Qed.

(** X5.  When the per-record detector returns, the constraints of its
    findings, in the order of the findings, form a subsequence of the
    constraints that apply to the record's cohort, hence of the policy's
    constraints: at most one finding per constraint, in declaration
    order.  Every finding has type "metric", the month passed to the
    detector, and a constraint that is not [temporal_consistency]. *)
Theorem detect_metric_drift_in_constraint_order d p m ds :
  detect_metric_drift matches_target_group get_district_name d p m = Ok ds →
  ∃ g,
    classify_district matches_target_group d (target_groups p) = Ok g
    ∧ sublist (map constraint ds) (get_constraints_for_group p g)
    ∧ sublist (map constraint ds) (constraints p)
    ∧ (length ds ≤ length (constraints p))%nat
    ∧ ∀ x, In x ds →
           drift_type x = "metric" ∧ month x = m
           ∧ is_temporal (constraint x) = false.
Proof.
  intros H.
  assert (Hsound := detect_metric_drift_sound _ _ _ _ _ _ H).
  unfold detect_metric_drift in H. inv_bind H. exists a.
  split; [done|].
  rewrite (foldlM_emit _ _ _ (metric_step_emit get_district_name d p m)) in H.
  inv_bind H. simplify_eq. simpl.
  apply mapM_Ok_Forall2 in Ha0.
  assert (Hs : sublist (map constraint (concat a0))
                 (get_constraints_for_group p a)).
  { rewrite <- (map_id (get_constraints_for_group p a)).
    eapply emitted_sublist; [|exact Ha0].
    intros c ys. apply metric_step_single. }
  assert (Hs' : sublist (map constraint (concat a0)) (constraints p)).
  { etrans; [exact Hs|]. apply sublist_filter_bool. }
  split; [done|]. split; [done|]. split.
  - apply sublist_length in Hs'. by rewrite length_map in Hs'.
  - intros x Hx. eapply List.Forall_forall in Hsound; [|exact Hx].
    destruct Hsound as (? & ? & _ & _ & _ & ? & _). done.
Qed.

(** X6.  The temporal detector does not depend on the order of the
    history: on a reordered history it returns exactly when it returns on
    the original one, and the findings are the same up to their order. *)
Theorem detect_temporal_drift_any_order hist hist' p ds :
  Permutation hist hist' →
  detect_temporal_drift get_district_name hist p = Ok ds →
  ∃ ds', detect_temporal_drift get_district_name hist' p = Ok ds'
         ∧ Permutation ds ds'.
Proof.
  intros Hp. unfold detect_temporal_drift.
  rewrite <- (Permutation_length Hp).
  destruct (length hist <? 2)%nat; [intros [= <-]; by exists []|].
  rewrite !(foldlM_emit _ _ _ (temporal_step_emit get_district_name _)).
  intros H. inv_bind H. simplify_eq. simpl.
  apply mapM_Ok_Forall2 in Ha.
  assert (Hstep : ∀ c ys,
             temporal_step get_district_name hist [] c = Ok ys →
             ∃ ys', temporal_step get_district_name hist' [] c = Ok ys'
                    ∧ Permutation ys ys').
  { intros c ys. unfold temporal_step.
    rewrite !(foldlM_emit _ _ _ (temporal_record_step_emit get_district_name c)).
    intros Hc. inv_bind Hc. simplify_eq. simpl.
    apply mapM_Ok_Forall2 in Ha0.
    destruct (Forall2_Permutation_l _ _ _ _ Hp Ha0) as (k' & Hk' & Hpk).
    apply mapM_Ok_Forall2 in Hk'. rewrite Hk'. simpl.
    eexists. split; [done|]. by apply Permutation_concat. }
  assert (Hall : ∃ k', Forall2 (λ c ys', temporal_step get_district_name
                                           hist' [] c = Ok ys')
                         (List.filter is_temporal (constraints p)) k'
                       ∧ Permutation (concat a) (concat k')).
  { clear -Ha Hstep. induction Ha as [|c ys l k Hc _ (k' & Hk' & Hpk)].
    - exists []. by split.
    - destruct (Hstep c ys Hc) as (ys' & Hys' & Hpy).
      exists (ys' :: k'). split; [by constructor|]. simpl.
      by apply Permutation_app. }
  destruct Hall as (k' & Hk' & Hpk).
  apply mapM_Ok_Forall2 in Hk'. rewrite Hk'. simpl. by eexists.
Qed.
End PassOrder.

Lemma detect_metric_drift_in_constraint_order_witness :
  ∃ g,
    classify_district Cli.matches_target_group
      (sample_row "D1" "Alpha" "2024-02" 65 50 25) (target_groups sample_policy)
    = Ok g
    ∧ sublist (map constraint
                 [mkDriftResult "metric" (VStr "D1") (VStr "Alpha")
                    priority_coverage (VNum 50) (VNum 80) (VStr "2024-02")
                    "high"])
              (get_constraints_for_group sample_policy g)
    ∧ sublist (map constraint
                 [mkDriftResult "metric" (VStr "D1") (VStr "Alpha")
                    priority_coverage (VNum 50) (VNum 80) (VStr "2024-02")
                    "high"])
              (constraints sample_policy)
    ∧ (length [mkDriftResult "metric" (VStr "D1") (VStr "Alpha")
                 priority_coverage (VNum 50) (VNum 80) (VStr "2024-02") "high"]
       ≤ length (constraints sample_policy))%nat
    ∧ ∀ x, In x [mkDriftResult "metric" (VStr "D1") (VStr "Alpha")
                   priority_coverage (VNum 50) (VNum 80) (VStr "2024-02")
                   "high"] →
           drift_type x = "metric" ∧ month x = VStr "2024-02"
           ∧ is_temporal (constraint x) = false.
Proof.
  apply (detect_metric_drift_in_constraint_order Cli.matches_target_group
           Cli.get_district_name).
  vm_compute. reflexivity.
Defined.

Lemma detect_temporal_drift_any_order_witness :
  ∃ ds',
    Cli.detect_temporal_drift
      [sample_row "D1" "Alpha" "2024-02" 65 50 25;
       sample_row "D1" "Alpha" "2024-01" 65 72 5] sample_policy = Ok ds'
    ∧ Permutation
        [mkDriftResult "temporal" (VStr "D1") (VStr "Alpha")
           variance_constraint (VNum 25) (VNum 10) (VStr "2024-02") "high"]
        ds'.
Proof.
  apply (detect_temporal_drift_any_order Cli.get_district_name sample_history).
  - apply perm_swap.
  - vm_compute. reflexivity.
Defined.

(** ** The aggregator on whole data sets *)

Lemma distinct_keys_mid seen k rest :
  distinct_keys (seen ++ k :: rest) → existsb (key_eqb k) seen = false.
Proof.
  induction seen as [|s seen IH]; simpl; [done|].
  inversion 1 as [|? ? Hs Hrest]; subst.
  rewrite existsb_app in Hs. simpl in Hs.
  apply orb_false_elim in Hs as [_ Hs]. apply orb_false_elim in Hs as [Hs _].
  rewrite key_eqb_sym, Hs. simpl. by apply IH.
Qed.

Lemma distinct_keys_suffix seen rest :
  distinct_keys (seen ++ rest) → distinct_keys rest.
Proof.
  induction seen as [|s seen IH]; simpl; [done|].
  inversion 1; subst. by apply IH.
Qed.

Lemma first_seen_loop_distinct ks seen :
  distinct_keys (seen ++ ks) →
  fold_left (λ seen k, if existsb (key_eqb k) seen then seen else seen ++ [k])
            ks seen = seen ++ ks.
Proof.
  revert seen. induction ks as [|k ks IH]; intros seen H; simpl.
  - by rewrite app_nil_r.
  - rewrite (distinct_keys_mid _ _ _ H).
    rewrite IH; rewrite <- app_assoc; done.
Qed.

Lemma first_seen_distinct_id ks : distinct_keys ks → first_seen ks = ks.
Proof. intros H. unfold first_seen. by rewrite first_seen_loop_distinct. Qed.

Lemma region_history_single pre r post :
  distinct_keys (map district_key (pre ++ r :: post)) →
  region_history (pre ++ r :: post) (district_key r) = [r].
Proof.
  intros H. unfold region_history. rewrite List.filter_app. simpl.
  rewrite key_eqb_refl. rewrite map_app in H. simpl in H.
  rewrite (filter_none _ pre), (filter_none _ post); [done|..].
  - apply distinct_keys_suffix in H. inversion H as [|? ? Hr _]; subst.
    intros q Hq. rewrite key_eqb_sym.
    destruct (key_eqb (district_key r) (district_key q)) eqn:E; [|done].
    assert (existsb (key_eqb (district_key r)) (map district_key post) = true);
      [|congruence].
    apply existsb_exists. exists (district_key q). split; [by apply in_map|done].
  - apply distinct_keys_mid in H. intros q Hq.
    destruct (key_eqb (district_key q) (district_key r)) eqn:E; [|done].
    assert (existsb (key_eqb (district_key r)) (map district_key pre) = true);
      [|congruence].
    apply existsb_exists. exists (district_key q).
    split; [by apply in_map | by rewrite key_eqb_sym].
Qed.

Lemma regions_one_row data :
  distinct_keys (map district_key data) →
  regions data = map (λ r, [r]) data.
Proof.
  intros H. unfold regions. rewrite (first_seen_distinct_id _ H), map_map.
  apply map_ext_in. intros r Hr.
  apply in_split in Hr as (pre & post & ->).
  by apply region_history_single.
Qed.

Section OneRow.
Variable matches_target_group : Record → TargetGroup → result bool.
Variable get_district_name : Record → result PyVal.

Lemma region_block_single p r :
  region_block matches_target_group get_district_name p [r] =
  detect_metric_drift matches_target_group get_district_name r p (month_of r).
Proof.
  unfold region_block, detect_temporal_drift. simpl.
  destruct (detect_metric_drift _ _ _ _ _) as [ms|e]; simpl; [|done].
  by rewrite !app_nil_r.
Qed.

(** X7.  On data with one row per district the aggregator is the
    per-record pass over the rows in input order: the temporal pass sees
    only histories of one record and contributes nothing, so every
    finding has type "metric". *)
Theorem detect_all_drift_one_row_per_district data p :
  distinct_keys (map district_key data) →
  detect_all_drift matches_target_group get_district_name data p
  = (_ ← mapM (λ r, dict_getitem r "district_id") data;
     drifts ← mapM (λ r, detect_metric_drift matches_target_group
                           get_district_name r p (month_of r)) data;
     Ok (concat drifts))
  ∧ ∀ out x,
      detect_all_drift matches_target_group get_district_name data p = Ok out →
      In x out → drift_type x = "metric".
Proof.
  intros Hd.
  assert (Heq : detect_all_drift matches_target_group get_district_name data p
    = (_ ← mapM (λ r, dict_getitem r "district_id") data;
       drifts ← mapM (λ r, detect_metric_drift matches_target_group
                             get_district_name r p (month_of r)) data;
       Ok (concat drifts))).
  { rewrite detect_all_drift_refines. unfold detect_all_spec.
    rewrite (regions_one_row _ Hd), mapM_map.
    by rewrite (mapM_ext_in _ _ _ (λ r _, region_block_single p r)). }
  split; [exact Heq|].
  intros out x Hout Hx. rewrite Heq in Hout. inv_bind Hout. simplify_eq.
  apply in_concat in Hx as (ds & Hds & Hx).
  apply mapM_Ok_Forall2 in Ha0.
  destruct (Forall2_In_r _ _ _ _ Ha0 Hds) as (r & _ & Hr).
  apply detect_metric_drift_sound in Hr.
  eapply List.Forall_forall in Hr; [|exact Hx]. by destruct Hr.
Qed.
End OneRow.

Lemma detect_all_drift_one_row_per_district_witness :
  Cli.detect_all_drift one_row_data sample_policy
  = (_ ← mapM (λ r, dict_getitem r "district_id") one_row_data;
     drifts ← mapM (λ r, Cli.detect_metric_drift r sample_policy (month_of r))
                   one_row_data;
     Ok (concat drifts))
  ∧ ∀ out x,
      Cli.detect_all_drift one_row_data sample_policy = Ok out →
      In x out → drift_type x = "metric".
Proof.
  apply (detect_all_drift_one_row_per_district Cli.matches_target_group
           Cli.get_district_name one_row_data sample_policy).
  repeat constructor.
Defined.

Lemma total_length_group_insert k r g :
  total_length (group_insert k r g) = S (total_length g).
Proof.
  unfold total_length. induction g as [|[k' h] g IH]; simpl; [done|].
  destruct (key_eqb k k'); simpl.
  - rewrite length_app. simpl. lia.
  - rewrite IH. lia.
Qed.

Lemma total_length_group_loop data g :
  total_length (fold_left (λ g r, group_insert (district_key r) r g) data g)
  = (length data + total_length g)%nat.
Proof.
  revert g. induction data as [|r data IH]; intros g; simpl; [done|].
  rewrite IH, total_length_group_insert. lia.
Qed.

Lemma regions_length data :
  list_sum (map (@length Record) (regions data)) = length data.
Proof.
  pose proof (total_length_group_loop data []) as H.
  fold (group_all data) in H. rewrite group_all_spec in H.
  unfold total_length in H. rewrite map_map in H. simpl in H.
  unfold regions. rewrite map_map. rewrite H. unfold total_length. simpl. lia.
Qed.

Lemma mapM_length_bound {A B} (f : A → result (list B)) (w : A → nat)
    (l : list A) (yss : list (list B)) :
  (∀ a ys, In a l → f a = Ok ys → (length ys ≤ w a)%nat) →
  mapM f l = Ok yss →
  (length (concat yss) ≤ list_sum (map w l))%nat.
Proof.
  intros Hf H. apply mapM_Ok_Forall2 in H.
  induction H as [|a ys l yss Ha _ IH]; simpl; [done|].
  rewrite length_app.
  pose proof (Hf a ys (or_introl eq_refl) Ha).
  assert (length (concat yss) ≤ list_sum (map w l))%nat; [|lia].
  apply IH. intros a' ys' Hin. apply Hf. by right.
Qed.

Lemma weight_filter_le (f : Constraint → bool) (l : list Constraint) :
  (list_sum (map weight_metric (List.filter f l))
   ≤ list_sum (map weight_metric l))%nat.
Proof.
  induction l as [|c l IH]; simpl; [done|].
  destruct (f c); simpl; lia.
Qed.

Lemma weight_split (l : list Constraint) :
  (list_sum (map weight_metric l) + length (List.filter is_temporal l))%nat
  = length l.
Proof.
  induction l as [|c l IH]; simpl; [done|]. unfold weight_metric at 1.
  destruct (is_temporal c); simpl; lia.
Qed.

Lemma list_sum_const {A} (l : list A) (n : nat) :
  list_sum (map (λ _, n) l) = (length l * n)%nat.
Proof. induction l; simpl; lia. Qed.

Section Counting.
Variable matches_target_group : Record → TargetGroup → result bool.
Variable get_district_name : Record → result PyVal.

Lemma metric_step_length d p m c ys :
  metric_step get_district_name d p m [] c = Ok ys →
  (length ys ≤ weight_metric c)%nat.
Proof.
  unfold metric_step, weight_metric. intros H.
  destruct (is_temporal c); [by simplify_eq|].
  destruct (dict_get d (c_metric c)); [by simplify_eq; simpl; lia|..].
  all: inv_bind H; destruct a as [[] t]; [|by simplify_eq; simpl; lia].
  all: inv_bind H; by simplify_eq.
Qed.

Lemma detect_metric_drift_length d p m ds :
  detect_metric_drift matches_target_group get_district_name d p m = Ok ds →
  (length ds ≤ list_sum (map weight_metric (constraints p)))%nat.
Proof.
  unfold detect_metric_drift. intros H. inv_bind H.
  rewrite (foldlM_emit _ _ _ (metric_step_emit get_district_name d p m)) in H.
  inv_bind H. simplify_eq. simpl.
  etrans; [|apply (weight_filter_le (applies a))].
  eapply mapM_length_bound; [|exact Ha0].
  intros c ys _. apply metric_step_length.
Qed.

Lemma temporal_record_step_length c r ys :
  temporal_record_step get_district_name c [] r = Ok ys →
  (length ys ≤ 1)%nat.
Proof.
  unfold temporal_record_step. intros H.
  destruct (dict_get r (c_metric c)); [by simplify_eq; simpl; lia|..].
  all: inv_bind H; destruct a; [|by simplify_eq; simpl; lia].
  all: inv_bind H; by simplify_eq.
Qed.

Lemma detect_temporal_drift_length hist p ds :
  detect_temporal_drift get_district_name hist p = Ok ds →
  (length ds
   ≤ length hist * length (List.filter is_temporal (constraints p)))%nat.
Proof.
  unfold detect_temporal_drift.
  destruct (length hist <? 2)%nat; [intros [= <-]; simpl; lia|].
  rewrite (foldlM_emit _ _ _ (temporal_step_emit get_district_name hist)).
  intros H. inv_bind H. simplify_eq. simpl.
  rewrite Nat.mul_comm, <- list_sum_const.
  eapply mapM_length_bound; [|exact Ha].
  intros c ys _. unfold temporal_step.
  rewrite (foldlM_emit _ _ _ (temporal_record_step_emit get_district_name c)).
  intros Hc. inv_bind Hc. simplify_eq. simpl.
  rewrite <- (Nat.mul_1_r (length hist)), <- list_sum_const.
  eapply mapM_length_bound; [|exact Ha0].
  intros r zs _. apply temporal_record_step_length.
Qed.

Lemma region_block_length p hist b :
  region_block matches_target_group get_district_name p hist = Ok b →
  (length b ≤ length hist * length (constraints p))%nat.
Proof.
  unfold region_block. intros H. inv_bind H. simplify_eq.
  rewrite length_app.
  apply detect_temporal_drift_length in Ha0.
  assert (length (concat a)
          ≤ length hist * list_sum (map weight_metric (constraints p)))%nat.
  { rewrite <- list_sum_const. eapply mapM_length_bound; [|exact Ha].
    intros r ds _. apply detect_metric_drift_length. }
  pose proof (weight_split (constraints p)). nia.
Qed.

(** X8.  The aggregator returns at most one finding per record and
    constraint: the number of findings is at most the number of records
    times the number of constraints of the policy. *)
Theorem detect_all_drift_count_bound data p out :
  detect_all_drift matches_target_group get_district_name data p = Ok out →
  (length out ≤ length data * length (constraints p))%nat.
Proof.
  rewrite detect_all_drift_refines. unfold detect_all_spec.
  intros H. inv_bind H. simplify_eq.
  rewrite <- regions_length.
  assert (Hb : (length (concat a0)
                ≤ list_sum (map (λ h, length h * length (constraints p))
                              (regions data)))%nat).
  { eapply mapM_length_bound; [|exact Ha0].
    intros h b _. apply region_block_length. }
  etrans; [exact Hb|].
  clear. induction (regions data) as [|h l IH]; simpl; lia.
Qed.
End Counting.

Lemma detect_all_drift_count_bound_witness :
  (length sample_findings
   ≤ length sample_data * length (constraints sample_policy))%nat.
Proof.
  apply (detect_all_drift_count_bound Cli.matches_target_group
           Cli.get_district_name sample_data sample_policy sample_findings).
  vm_compute. reflexivity.
Defined.

Lemma calculate_severity_numeric a t ty s :
  calculate_severity a t ty = Ok s →
  ∃ x y, a = VNum x ∧ t = VNum y ∧ ¬ (y == 0)%Q.
Proof.
  unfold calculate_severity. intros H. inv_bind H.
  unfold py_truediv in Ha0. destruct t as [|y|]; try done.
  destruct (Qeq_bool y 0) eqn:E; [done|].
  apply Qeq_bool_neq in E.
  destruct (shortfall_type ty), a as [|x|]; try done; by exists x, y.
Qed.

Section Provenance.
Variable matches_target_group : Record → TargetGroup → result bool.
Variable get_district_name : Record → result PyVal.

(** X9.  Every finding of the aggregator comes from one record of the
    input: it carries that record's [district_id], name and month, its
    value is the one the record holds under the metric of the finding's
    constraint, the constraint is one of the policy's, and the finding is
    of type "metric" for a constraint that is not [temporal_consistency]
    and of type "temporal" for one that is. *)
Theorem detect_all_drift_provenance data p out x :
  detect_all_drift matches_target_group get_district_name data p = Ok out →
  In x out →
  ∃ r,
    In r data
    ∧ r !! "district_id" = Some (district_id x)
    ∧ get_district_name r = Ok (district_name x)
    ∧ month x = month_of r
    ∧ In (constraint x) (constraints p)
    ∧ actual_value x = dict_get r (c_metric (constraint x))
    ∧ (drift_type x = "metric" ∧ is_temporal (constraint x) = false
       ∨ drift_type x = "temporal" ∧ is_temporal (constraint x) = true).
Proof.
  intros Hout Hx. apply detect_all_drift_sound in Hout.
  eapply List.Forall_forall in Hout as (r & Hr & Hf); [|exact Hx].
  exists r. split; [done|].
  destruct Hf as [Hf | Hf].
  - destruct Hf as (? & ? & Hid & ? & ? & ? & ? & _).
    apply dict_getitem_Ok_inv in Hid. repeat split; auto.
  - destruct Hf as (? & ? & Hid & ? & ? & ? & ? & _).
    apply dict_getitem_Ok_inv in Hid. repeat split; auto.
Qed.

(** X10.  Every finding of the aggregator holds a number as actual
    value, a nonzero number as expected threshold, and one of the three
    severities: a finding is only built once the severity has been
    computed from the two. *)
Theorem detect_all_drift_numeric_findings data p out x :
  detect_all_drift matches_target_group get_district_name data p = Ok out →
  In x out →
  ∃ a t,
    actual_value x = VNum a ∧ expected_threshold x = VNum t
    ∧ ¬ (t == 0)%Q
    ∧ (severity x = "high" ∨ severity x = "medium" ∨ severity x = "low").
Proof.
  intros Hout Hx. apply detect_all_drift_sound in Hout.
  eapply List.Forall_forall in Hout as (r & Hr & Hf); [|exact Hx].
  assert (Hs : ∃ ty, calculate_severity (actual_value x)
                       (expected_threshold x) ty = Ok (severity x)).
  { destruct Hf as [Hf | Hf].
    - destruct Hf as (_ & _ & _ & _ & _ & _ & _ & _ & _ & Hs). by eexists.
    - destruct Hf as (_ & _ & _ & _ & _ & _ & _ & _ & _ & _ & Hs).
      by eexists. }
  destruct Hs as [ty Hs].
  destruct (calculate_severity_numeric _ _ _ _ Hs) as (a & t & ? & ? & ?).
  exists a, t. repeat split; try done.
  by eapply calculate_severity_range.
Qed.
End Provenance.

Lemma detect_all_drift_provenance_witness :
  ∃ r,
    In r sample_data
    ∧ r !! "district_id" = Some (VStr "D1")
    ∧ Cli.get_district_name r = Ok (VStr "Alpha")
    ∧ VStr "2024-02" = month_of r
    ∧ In variance_constraint (constraints sample_policy)
    ∧ VNum 25 = dict_get r (c_metric variance_constraint)
    ∧ ("temporal" = "metric" ∧ is_temporal variance_constraint = false
       ∨ "temporal" = "temporal" ∧ is_temporal variance_constraint = true).
Proof.
  apply (detect_all_drift_provenance Cli.matches_target_group
           Cli.get_district_name sample_data sample_policy sample_findings
           (mkDriftResult "temporal" (VStr "D1") (VStr "Alpha")
              variance_constraint (VNum 25) (VNum 10) (VStr "2024-02")
              "high")).
  - vm_compute. reflexivity.
  - right. right. left. reflexivity.
Defined.

Lemma detect_all_drift_numeric_findings_witness :
  ∃ a t,
    VNum 72 = VNum a ∧ VNum 80 = VNum t ∧ ¬ (t == 0)%Q
    ∧ ("low" = "high" ∨ "low" = "medium" ∨ "low" = "low").
Proof.
  apply (detect_all_drift_numeric_findings Cli.matches_target_group
           Cli.get_district_name sample_data sample_policy sample_findings
           (mkDriftResult "metric" (VStr "D1") (VStr "Alpha")
              priority_coverage (VNum 72) (VNum 80) (VStr "2024-01") "low")).
  - vm_compute. reflexivity.
  - left. reflexivity.
Defined.

(** ** The two detector files compared *)

Lemma foldlM_ext_in {A B} (f g : A → B → result A) (a : A) (l : list B) :
  (∀ a x, In x l → f a x = g a x) → foldlM f a l = foldlM g a l.
Proof.
  revert a. induction l as [|x l IH]; intros a H; simpl; [done|].
  rewrite (H a x) by (by left).
  destruct (g a x); simpl; [|done]. apply IH. intros a' y Hy. apply H. by right.
Qed.

Lemma all_loop_ext_in {B} (f g : B → result bool) (l : list B) :
  (∀ x, In x l → f x = g x) → all_loop f l = all_loop g l.
Proof.
  induction l as [|x l IH]; intros H; simpl; [done|].
  rewrite (H x) by (by left). destruct (g x) as [[]|]; simpl; try done.
  apply IH. intros y Hy. apply H. by right.
Qed.

Lemma mapM_Ok_exists {A B} (f : A → result B) (l : list A) :
  (∀ x, In x l → ∃ y, f x = Ok y) → ∃ ys, mapM f l = Ok ys.
Proof.
  induction l as [|x l IH]; intros H; simpl; [by eexists|].
  destruct (H x) as [y ->]; [by left|].
  destruct IH as [ys ->]; [intros x' Hx'; apply H; by right|].
  simpl. by eexists.
Qed.

Section Extensionality.
Variables mtg1 mtg2 : Record → TargetGroup → result bool.
Variables gdn1 gdn2 : Record → result PyVal.

Lemma classify_district_ext d groups :
  (∀ g, In g groups → mtg1 d g = mtg2 d g) →
  classify_district mtg1 d groups = classify_district mtg2 d groups.
Proof.
  induction groups as [|g groups IH]; intros H; simpl; [done|].
  rewrite (H g) by (by left). destruct (mtg2 d g) as [[]|]; simpl; try done.
  apply IH. intros g' Hg'. apply H. by right.
Qed.

Lemma metric_step_ext d p m acc c :
  gdn1 d = gdn2 d →
  metric_step gdn1 d p m acc c = metric_step gdn2 d p m acc c.
Proof. intros H. unfold metric_step. by rewrite H. Qed.

Lemma detect_metric_drift_ext d p m :
  (∀ g, In g (target_groups p) → mtg1 d g = mtg2 d g) →
  gdn1 d = gdn2 d →
  detect_metric_drift mtg1 gdn1 d p m = detect_metric_drift mtg2 gdn2 d p m.
Proof.
  intros Hm Hn. unfold detect_metric_drift.
  rewrite (classify_district_ext _ _ Hm).
  destruct (classify_district mtg2 d _); simpl; [|done].
  apply foldlM_ext_in. intros acc c _. by apply metric_step_ext.
Qed.

Lemma temporal_record_step_ext c acc r :
  gdn1 r = gdn2 r →
  temporal_record_step gdn1 c acc r = temporal_record_step gdn2 c acc r.
Proof. intros H. unfold temporal_record_step. by rewrite H. Qed.

Lemma detect_temporal_drift_ext hist p :
  (∀ r, In r hist → gdn1 r = gdn2 r) →
  detect_temporal_drift gdn1 hist p = detect_temporal_drift gdn2 hist p.
Proof.
  intros H. unfold detect_temporal_drift.
  destruct (length hist <? 2)%nat; [done|].
  apply foldlM_ext_in. intros acc c _. unfold temporal_step.
  apply foldlM_ext_in. intros acc' r Hr. by apply temporal_record_step_ext, H.
Qed.

Lemma detect_all_drift_ext data p :
  (∀ r g, In r data → In g (target_groups p) → mtg1 r g = mtg2 r g) →
  (∀ r, In r data → gdn1 r = gdn2 r) →
  detect_all_drift mtg1 gdn1 data p = detect_all_drift mtg2 gdn2 data p.
Proof.
  intros Hm Hn. rewrite !detect_all_drift_refines. unfold detect_all_spec.
  destruct (mapM _ data); simpl; [|done].
  rewrite (mapM_ext_in (region_block mtg1 gdn1 p) (region_block mtg2 gdn2 p));
    [done|].
  intros h Hh. unfold region_block.
  rewrite (mapM_ext_in _ (λ r, detect_metric_drift mtg2 gdn2 r p (month_of r))).
  - rewrite (detect_temporal_drift_ext h p); [done|].
    intros r Hr. apply Hn. by eapply regions_incl.
  - intros r Hr. assert (In r data) by (by eapply regions_incl).
    apply detect_metric_drift_ext; auto.
Qed.
End Extensionality.

Lemma range_criterion_same d field b :
  Cli.criterion_holds d (field, CRange b)
  = Backend.criterion_holds d (field, CRange b).
Proof.
  unfold Cli.criterion_holds, Backend.criterion_holds.
  destruct (dict_get d field); [done|..];
    unfold cond_contains, cond_getitem, band_lookup; simpl;
    by destruct (b_min b), (b_max b).
Qed.

(** X11.  The two detector files agree, exceptions included, on every
    policy whose criteria are all ranges and on data whose records all
    carry a district name: the aggregators of [src/drift_detector.py] and
    of [backend/drift/detector.py] return the same findings or raise the
    same exception. *)
Theorem detectors_agree_on_ranges data p :
  (∀ g fc, In g (target_groups p) → In fc (tg_criteria g) →
           ∃ b, fc.2 = CRange b) →
  (∀ r, In r data → is_Some (r !! "district_name")) →
  Cli.detect_all_drift data p = Backend.detect_all_drift data p.
Proof.
  intros Hc Hn. apply detect_all_drift_ext.
  - intros r g _ Hg. apply all_loop_ext_in. intros [field cond] Hfc.
    destruct (Hc g _ Hg Hfc) as [b Hb]. simpl in Hb. subst cond.
    apply range_criterion_same.
  - intros r Hr. destruct (Hn r Hr) as [n Hname].
    unfold Cli.get_district_name, Backend.get_district_name, dict_get_or.
    by rewrite (dict_getitem_Some _ _ _ Hname), Hname.
Qed.

Lemma detectors_agree_on_ranges_witness :
  Cli.detect_all_drift sample_data sample_policy
  = Backend.detect_all_drift sample_data sample_policy.
Proof.
  apply (detectors_agree_on_ranges sample_data sample_policy).
  - intros g fc [<- | []] [<- | []]. by eexists.
  - intros r [<- | [<- | [<- | []]]]; by eexists.
Defined.

(** ** Well-typed input *)

Section Totality.
Variable matches_target_group : Record → TargetGroup → result bool.
Variable get_district_name : Record → result PyVal.

Lemma classify_district_defined d groups :
  (∀ g, In g groups → ∃ b, matches_target_group d g = Ok b) →
  ∃ name, classify_district matches_target_group d groups = Ok name.
Proof.
  induction groups as [|g groups IH]; intros H; simpl; [by eexists|].
  destruct (H g) as [[] ->]; [by left| |]; simpl; [by eexists|].
  apply IH. intros g' Hg'. apply H. by right.
Qed.

Lemma metric_step_defined d p m c :
  typed_constraint c → numeric_metric d c →
  is_Some (d !! "district_id") → (∃ n, get_district_name d = Ok n) →
  ∃ ys, metric_step get_district_name d p m [] c = Ok ys.
Proof.
  intros [Hty (t & Ht & Hnz)] Hv [i Hi] [n Hn]. unfold metric_step.
  destruct (is_temporal c) eqn:Htemp; [by eexists|].
  destruct Hv as [-> | [v ->]]; [by eexists|].
  assert (Hs : c_type c = "minimum_coverage" ∨ c_type c = "resource_allocation").
  { destruct Hty as [? | [? | Hty]]; auto.
    unfold is_temporal in Htemp. by rewrite Hty in Htemp. }
  rewrite (check_metric_constraint_shortfall _ _ _ Hs).
  unfold get_threshold. rewrite Ht. simpl.
  destruct (Qltb v t); [|by eexists].
  destruct (calculate_severity_defined v t (c_type c) Hnz) as [s ->]. simpl.
  rewrite (dict_getitem_Some _ _ _ Hi), Hn. simpl. by eexists.
Qed.

Lemma temporal_record_step_defined c r :
  typed_constraint c → numeric_metric r c →
  is_Some (r !! "district_id") → (∃ n, get_district_name r = Ok n) →
  ∃ ys, temporal_record_step get_district_name c [] r = Ok ys.
Proof.
  intros [Hty (t & Ht & Hnz)] Hv [i Hi] [n Hn]. unfold temporal_record_step.
  unfold get_threshold. rewrite Ht.
  destruct Hv as [-> | [v ->]]; [by eexists|]. simpl.
  destruct (Qltb t v); [|by eexists].
  destruct (calculate_severity_defined v t "temporal_consistency" Hnz)
    as [s ->]. simpl.
  rewrite (dict_getitem_Some _ _ _ Hi), Hn. simpl. by eexists.
Qed.

Lemma detect_all_drift_defined data p :
  (∀ r, In r data → is_Some (r !! "district_id")) →
  (∀ r g, In r data → In g (target_groups p) →
          ∃ b, matches_target_group r g = Ok b) →
  (∀ r, In r data → ∃ n, get_district_name r = Ok n) →
  (∀ c, In c (constraints p) → typed_constraint c) →
  (∀ c r, In c (constraints p) → In r data → numeric_metric r c) →
  ∃ out, detect_all_drift matches_target_group get_district_name data p
         = Ok out.
Proof.
  intros Hid Hm Hn Hc Hv.
  rewrite detect_all_drift_refines. unfold detect_all_spec.
  destruct (district_ids_Ok _ Hid) as [ids ->]. simpl.
  destruct (mapM_Ok_exists
              (region_block matches_target_group get_district_name p)
              (regions data)) as [blocks ->]; [|simpl; by eexists].
  intros h Hh. unfold region_block.
  assert (Hin : ∀ r, In r h → In r data).
  { intros r Hr. by eapply regions_incl. }
  destruct (mapM_Ok_exists
              (λ r, detect_metric_drift matches_target_group
                      get_district_name r p (month_of r)) h) as [ms ->].
  { intros r Hr. unfold detect_metric_drift.
    destruct (classify_district_defined r (target_groups p)) as [g ->];
      [intros g Hg; apply Hm; auto|]. simpl.
    rewrite (foldlM_emit _ _ _ (metric_step_emit get_district_name r p _)).
    destruct (mapM_Ok_exists
                (metric_step get_district_name r p (month_of r) [])
                (get_constraints_for_group p g)) as [yss ->];
      [|simpl; by eexists].
    intros c Hcin. apply filter_In in Hcin as [Hcin _].
    apply metric_step_defined; auto. }
  simpl. unfold detect_temporal_drift.
  destruct (length h <? 2)%nat; [simpl; by eexists|].
  rewrite (foldlM_emit _ _ _ (temporal_step_emit get_district_name h)).
  destruct (mapM_Ok_exists (temporal_step get_district_name h [])
              (List.filter is_temporal (constraints p))) as [yss ->];
    [|simpl; by eexists].
  intros c Hcin. apply filter_In in Hcin as [Hcin _]. unfold temporal_step.
  rewrite (foldlM_emit _ _ _ (temporal_record_step_emit get_district_name c)).
  destruct (mapM_Ok_exists (temporal_record_step get_district_name c []) h)
    as [zss ->]; [|simpl; by eexists].
  intros r Hr. apply temporal_record_step_defined; auto.
Qed.
End Totality.



(** ** The summary: types and districts *)

Lemma ascii_compare_refl a : Ascii.compare a a = Eq.
Proof. apply N.compare_refl. Qed.

Lemma ascii_compare_lt_trans a b c :
  Ascii.compare a b = Lt → Ascii.compare b c = Lt → Ascii.compare a c = Lt.
Proof. unfold Ascii.compare. rewrite !N.compare_lt_iff. lia. Qed.

Lemma string_compare_lt_trans s1 s2 s3 :
  String.compare s1 s2 = Lt → String.compare s2 s3 = Lt →
  String.compare s1 s3 = Lt.
Proof.
  revert s2 s3. induction s1 as [|a s1 IH]; intros [|b s2] [|c s3]; simpl;
    try done.
  destruct (Ascii.compare a b) eqn:E1, (Ascii.compare b c) eqn:E2; try done.
  - apply Ascii.compare_eq_iff in E1, E2. subst.
    rewrite ascii_compare_refl. apply IH.
  - apply Ascii.compare_eq_iff in E1. subst. by rewrite E2.
  - apply Ascii.compare_eq_iff in E2. subst. by rewrite E1.
  - by rewrite (ascii_compare_lt_trans _ _ _ E1 E2).
Qed.

Lemma string_ltb_trans s1 s2 s3 :
  String.ltb s1 s2 = true → String.ltb s2 s3 = true → String.ltb s1 s3 = true.
Proof.
  unfold String.ltb. intros H1 H2.
  destruct (String.compare s1 s2) eqn:E1; try done.
  destruct (String.compare s2 s3) eqn:E2; try done.
  by rewrite (string_compare_lt_trans _ _ _ E1 E2).
Qed.

Lemma string_leb_ltb s t : String.leb s t = true → s ≠ t → String.ltb s t = true.
Proof.
  unfold String.leb, String.ltb. intros H Hne.
  destruct (String.compare s t) eqn:E; try done.
  by apply String.compare_eq_iff in E.
Qed.

Lemma string_leb_false s t : String.leb s t = false → String.ltb t s = true.
Proof.
  unfold String.leb, String.ltb. rewrite (String.compare_antisym t s).
  by destruct (String.compare s t).
Qed.

Lemma insert_sorted_perm x l : Permutation (insert_sorted x l) (x :: l).
Proof.
  induction l as [|y l IH]; simpl; [done|].
  destruct (String.leb x.1 y.1); [done|].
  rewrite IH. apply perm_swap.
Qed.

Lemma insert_sorted_strict x l :
  StronglySorted (λ a b : string * nat, String.ltb a.1 b.1 = true) l →
  ¬ In x.1 (map fst l) →
  StronglySorted (λ a b : string * nat, String.ltb a.1 b.1 = true)
                 (insert_sorted x l).
Proof.
  induction 1 as [|y l Hl IH Hy]; intros Hx; simpl.
  - repeat constructor.
  - simpl in Hx. destruct (String.leb x.1 y.1) eqn:E.
    + assert (Hxy : String.ltb x.1 y.1 = true).
      { apply string_leb_ltb; [done|]. intros Heq. apply Hx. by left. }
      constructor; [by constructor|]. constructor; [done|].
      eapply Forall_impl; [exact Hy|]. simpl. intros z Hz.
      by eapply string_ltb_trans.
    + constructor.
      * apply IH. intros Hin. apply Hx. by right.
      * eapply Permutation_Forall; [symmetry; apply insert_sorted_perm|].
        constructor; [|done]. by apply string_leb_false.
Qed.

Lemma foldr_insert_sorted_perm l :
  Permutation (foldr insert_sorted [] l) l.
Proof.
  induction l as [|x l IH]; simpl; [done|].
  by rewrite insert_sorted_perm, IH.
Qed.

Lemma foldr_insert_sorted_strict l :
  List.NoDup (map fst l) →
  StronglySorted (λ a b : string * nat, String.ltb a.1 b.1 = true)
                 (foldr insert_sorted [] l).
Proof.
  induction l as [|x l IH]; simpl; intros Hnd; [constructor|].
  apply List.NoDup_cons_iff in Hnd as [Hx Hnd].
  apply insert_sorted_strict; [by apply IH|].
  intros Hin. apply Hx.
  eapply Permutation_in; [|exact Hin].
  apply Permutation_map, foldr_insert_sorted_perm.
Qed.

Lemma sorted_items_perm (m : gmap string nat) :
  Permutation (sorted_items m) (map_to_list m).
Proof. apply foldr_insert_sorted_perm. Qed.

Lemma sorted_items_strict (m : gmap string nat) :
  StronglySorted (λ a b : string * nat, String.ltb a.1 b.1 = true)
                 (sorted_items m).
Proof.
  apply foldr_insert_sorted_strict.
  apply NoDup_ListNoDup, (NoDup_fst_map_to_list m).
Qed.

Lemma sorted_keys_strict (m : gmap string nat) :
  StronglySorted (λ s t, String.ltb s t = true) (map fst (sorted_items m)).
Proof.
  pose proof (sorted_items_strict m) as H.
  induction H as [|x xs Hxs IH Hx]; simpl; constructor; [done|].
  apply List.Forall_map. exact Hx.
Qed.

Lemma strictly_sorted_NoDup (l : list string) :
  StronglySorted (λ s t, String.ltb s t = true) l → List.NoDup l.
Proof.
  induction 1 as [|x xs Hxs IH Hx]; constructor; [|done].
  intros Hin. eapply List.Forall_forall in Hx; [|exact Hin].
  unfold String.ltb in Hx.
  assert (E : String.compare x x = Eq).
  { clear. induction x; simpl; [done|]. by rewrite ascii_compare_refl. }
  by rewrite E in Hx.
Qed.

Lemma sorted_items_lookup (m : gmap string nat) k n :
  In (k, n) (sorted_items m) ↔ m !! k = Some n.
Proof.
  rewrite <- elem_of_map_to_list, <- list_elem_of_In.
  by rewrite sorted_items_perm.
Qed.

Lemma bump_all_dom {A} (f : A → string) (l : list A)
    (m0 : gmap string nat) (k : string) :
  is_Some (foldl (λ m d, bump (f d) m) m0 l !! k)
  ↔ is_Some (m0 !! k) ∨ ∃ d, In d l ∧ f d = k.
Proof.
  revert m0. induction l as [|d l IH]; intros m0; simpl.
  - split; [by left|]. by intros [? | (? & [] & _)].
  - rewrite IH. unfold bump. split.
    + intros [H | (d' & Hd' & Hk)]; [|right; exists d'; auto].
      destruct (decide (f d = k)) as [<-|Hne]; [right; exists d; auto|].
      rewrite lookup_insert_ne in H by done. by left.
    + intros [H | (d' & [<- | Hd'] & Hk)].
      * left. destruct (decide (f d = k)) as [<-|Hne].
        -- by rewrite lookup_insert_eq.
        -- by rewrite lookup_insert_ne.
      * left. subst k. by rewrite lookup_insert_eq.
      * right. by exists d'.
Qed.

Lemma bump_all_value {A} (f : A → string) (l : list A) (k : string) n :
  foldl (λ m d, bump (f d) m) ∅ l !! k = Some n →
  n = length (List.filter (λ d, String.eqb (f d) k) l).
Proof.
  intros H. pose proof (bump_all_count f l ∅ k) as Hc.
  rewrite H, lookup_empty in Hc. simpl in Hc. done.
Qed.

Lemma count_over_keys {A} (f : A → string) (l : list A) (keys : list string) :
  List.NoDup keys → (∀ d, In d l → In (f d) keys) →
  list_sum (map (λ k, length (List.filter (λ d, String.eqb (f d) k) l)) keys)
  = length l.
Proof.
  intros Hnd. induction l as [|d l IH]; intros Hin; simpl.
  - clear. induction keys; simpl; auto.
  - rewrite <- IH by (intros d' Hd'; apply Hin; by right).
    specialize (Hin d (or_introl eq_refl)).
    clear IH. induction keys as [|k keys IHk]; simpl; [done|].
    apply List.NoDup_cons_iff in Hnd as [Hk Hnd].
    destruct (String.eqb_spec (f d) k) as [->|Hne]; simpl.
    + f_equal. f_equal.
      clear IHk Hin. induction keys as [|k' keys IHk']; simpl; [done|].
      destruct (String.eqb_spec k k') as [->|Hne']; [exfalso; apply Hk; by left|].
      f_equal. apply IHk'.
      * intros Hin'. apply Hk. by right.
      * by apply List.NoDup_cons_iff in Hnd as [_ Hnd].
    + destruct Hin as [->|Hin]; [done|].
      rewrite (IHk Hnd Hin). lia.
Qed.

Lemma remove_dups_length_le (l : list string) :
  (length (remove_dups l) ≤ length l)%nat.
Proof.
  induction l as [|x l IH]; simpl; [done|].
  destruct (decide_rel elem_of x l); simpl; lia.
Qed.

Lemma keys_remove_dups {A} (f : A → string) (l : list A) :
  size (foldl (λ m d, bump (f d) m) (∅ : gmap string nat) l)
  = length (remove_dups (map f l)).
Proof.
  rewrite <- length_map_to_list, <- (length_fmap fst).
  apply Permutation_length, NoDup_Permutation.
  - apply NoDup_fst_map_to_list.
  - apply NoDup_remove_dups.
  - intros k. rewrite elem_of_remove_dups, list_elem_of_fmap.
    split.
    + intros ([k' n] & -> & Hkn). apply elem_of_map_to_list in Hkn.
      assert (Hs : is_Some (foldl (λ m d, bump (f d) m) (∅ : gmap string nat) l !! k'))
        by (by eexists).
      apply bump_all_dom in Hs as [[? Hs] | (d & Hd & <-)].
      * by rewrite lookup_empty in Hs.
      * simpl. apply list_elem_of_In. by apply (in_map f).
    + intros Hk. apply list_elem_of_In, in_map_iff in Hk as (d & <- & Hd).
      destruct (proj2 (bump_all_dom f l ∅ (f d))) as [n Hn];
        [right; by exists d|].
      exists (f d, n). split; [done|]. by apply elem_of_map_to_list.
Qed.

Section SummaryBreakdown.
Variable str_of_num : Q → string.

Lemma summary_counts_split (l : list DriftResult) st :
  foldl (summary_step str_of_num) st l
  = (foldl (λ m d, bump (drift_type d) m) st.1.1 l,
     foldl (λ m d, bump (severity d) m) st.1.2 l,
     foldl (λ m d, bump (district_label str_of_num d) m) st.2 l).
Proof.
  revert st. induction l as [|d l IH]; intros [[bt bs] bd]; simpl; [done|].
  by rewrite IH.
Qed.

(** X13.  The summary of a non-empty list of findings is the report that
    lists, under "By type", one line per drift type present among the
    findings, in strictly increasing order of the type, each with the
    number of findings of that type, these numbers adding up to the
    total; whose severity counts are the numbers of findings of severity
    high, medium and low; and whose last line counts the distinct labels
    "name (id)" of the findings, a number between one and the total. *)
Theorem generate_summary_breakdown (drifts : list DriftResult) :
  drifts ≠ [] →
  ∃ types : list string,
    generate_summary str_of_num drifts
    = summary_report (length drifts)
        (map (λ t, "  " +:+ t +:+ ": " +:+ pretty (count_type t drifts)) types)
        (count_severity "high" drifts) (count_severity "medium" drifts)
        (count_severity "low" drifts)
        (length (remove_dups (map (district_label str_of_num) drifts)))
    ∧ StronglySorted (λ s t, String.ltb s t = true) types
    ∧ (∀ t, In t types ↔ ∃ d, In d drifts ∧ drift_type d = t)
    ∧ list_sum (map (λ t, count_type t drifts) types) = length drifts
    ∧ (1 ≤ length (remove_dups (map (district_label str_of_num) drifts))
         ≤ length drifts)%nat.
Proof.
  intros Hne. destruct drifts as [|d0 ds]; [done|].
  set (l := d0 :: ds).
  set (bt := foldl (λ m d, bump (drift_type d) m) (∅ : gmap string nat) l).
  exists (map fst (sorted_items bt)).
  assert (Hkeys : ∀ t, In t (map fst (sorted_items bt))
                       ↔ ∃ d, In d l ∧ drift_type d = t).
  { intros t. rewrite in_map_iff. split.
    - intros ([t' n] & <- & Hin). apply sorted_items_lookup in Hin.
      assert (Hs : is_Some (bt !! t')) by (by eexists).
      apply bump_all_dom in Hs as [[? Hs] | Hs]; [|done].
      by rewrite lookup_empty in Hs.
    - intros Hd. destruct (proj2 (bump_all_dom drift_type l ∅ t)) as [n Hn];
        [by right|].
      exists (t, n). split; [done|]. by apply sorted_items_lookup. }
  assert (Hsorted : StronglySorted (λ s t, String.ltb s t = true)
                      (map fst (sorted_items bt))).
  { apply sorted_keys_strict. }
  split; [|split; [exact Hsorted|split; [exact Hkeys|split]]].
  - unfold generate_summary. fold l. unfold summary_counts.
    rewrite summary_counts_split. cbn [fst snd]. fold bt.
    unfold summary_report.
    rewrite !lookup_total_alt, !bump_all_count, keys_remove_dups.
    rewrite map_map.
    rewrite (map_ext_in (type_line)
               (λ x, "  " +:+ x.1 +:+ ": " +:+ pretty (count_type x.1 l))).
    + reflexivity.
    + intros [t n] Hin. apply sorted_items_lookup, bump_all_value in Hin.
      unfold type_line, count_type. simpl. by rewrite Hin.
  - apply (count_over_keys drift_type l).
    + by apply strictly_sorted_NoDup.
    + intros d Hd. apply Hkeys. by exists d.
  - split.
    + assert (Hin : district_label str_of_num d0
                    ∈ remove_dups (map (district_label str_of_num) l)).
      { apply elem_of_remove_dups. by left. }
      destruct (remove_dups _); [by apply elem_of_nil in Hin | simpl; lia].
    + rewrite <- (length_map (district_label str_of_num) l).
      apply remove_dups_length_le.
Qed.
End SummaryBreakdown.

Lemma generate_summary_breakdown_witness :
  ∃ types : list string,
    generate_summary (λ _, "") namesake_findings
    = summary_report (length namesake_findings)
        (map (λ t, "  " +:+ t +:+ ": "
                   +:+ pretty (count_type t namesake_findings)) types)
        (count_severity "high" namesake_findings)
        (count_severity "medium" namesake_findings)
        (count_severity "low" namesake_findings)
        (length (remove_dups (map (district_label (λ _, "")) namesake_findings)))
    ∧ StronglySorted (λ s t, String.ltb s t = true) types
    ∧ (∀ t, In t types ↔ ∃ d, In d namesake_findings ∧ drift_type d = t)
    ∧ list_sum (map (λ t, count_type t namesake_findings) types)
      = length namesake_findings
    ∧ (1 ≤ length (remove_dups
                     (map (district_label (λ _, "")) namesake_findings))
         ≤ length namesake_findings)%nat.
Proof.
  apply (generate_summary_breakdown (λ _, "") namesake_findings).
  discriminate.
Defined.

(** The labels tell districts apart by name and identifier together: the
    two districts named Alpha are counted separately, and the types are
    listed in alphabetical order whatever the order of the findings. *)
Example generate_summary_namesakes :
  generate_summary (λ _, "") namesake_findings
  = summary_report 3 ["  metric: 2"; "  temporal: 1"] 2 0 1 2.
Proof. vm_compute. reflexivity. Qed.

(** ** Explanations and the report *)

Section ExplainFacts.
Variable str_of_num : Q → string.
Variable fixed1 : Q → string.

Lemma explain_drift_numeric d a t :
  actual_value d = VNum a → expected_threshold d = VNum t →
  ∃ text, explain_drift str_of_num fixed1 d = Text text.
Proof.
  intros Ha Ht. unfold explain_drift. rewrite Ha, Ht. simpl.
  repeat (match goal with |- context [String.eqb ?x ?y] =>
                            destruct (String.eqb x y) end; [by eexists|]).
  by eexists.
Qed.

Lemma explain_drift_raises d :
  explain_drift str_of_num fixed1 d
  = match actual_value d, expected_threshold d with
    | VStr _, _ => Raise FormatValueError
    | VNone, _ => Raise FormatTypeError
    | VNum _, VStr _ => Raise FormatValueError
    | VNum _, VNone => Raise FormatTypeError
    | VNum _, VNum _ => explain_drift str_of_num fixed1 d
    end.
Proof.
  unfold explain_drift.
  destruct (actual_value d), (expected_threshold d); simpl;
    repeat (match goal with |- context [String.eqb ?x ?y] =>
                              destruct (String.eqb x y) end; try done).
Qed.

(** X14.  An explanation exists exactly for a finding whose actual value
    and expected threshold are both numbers, whatever the type of its
    constraint.  Otherwise the one-decimal format raises, for the actual
    value first: [ValueError] for text, [TypeError] for [None]. *)
Theorem explain_drift_defined (d : DriftResult) :
  ((∃ text, explain_drift str_of_num fixed1 d = Text text)
   ↔ ∃ a t, actual_value d = VNum a ∧ expected_threshold d = VNum t)
  ∧ (∀ s, actual_value d = VStr s →
          explain_drift str_of_num fixed1 d = Raise FormatValueError)
  ∧ (actual_value d = VNone →
     explain_drift str_of_num fixed1 d = Raise FormatTypeError)
  ∧ (∀ a s, actual_value d = VNum a → expected_threshold d = VStr s →
            explain_drift str_of_num fixed1 d = Raise FormatValueError)
  ∧ (∀ a, actual_value d = VNum a → expected_threshold d = VNone →
          explain_drift str_of_num fixed1 d = Raise FormatTypeError).
Proof.
  split; [split|].
  - intros [text H]. rewrite explain_drift_raises in H.
    destruct (actual_value d) as [|a|], (expected_threshold d) as [|t|];
      try done. by exists a, t.
  - intros (a & t & Ha & Ht). by eapply explain_drift_numeric.
  - rewrite explain_drift_raises.
    split; [|split; [|split]].
    + by intros s ->.
    + by intros ->.
    + by intros a s -> ->.
    + by intros a -> ->.
Qed.

(** X15.  What an explanation leaves out.  The explanation of a finding
    on a [temporal_consistency] constraint does not mention the month;
    the explanation of a finding on a [minimum_coverage] or
    [resource_allocation] constraint does not mention the metric of the
    constraint, which is called coverage percentage, respectively fund
    utilization, whatever it is, nor the threshold or the scope of the
    constraint: the threshold shown is the one stored in the finding. *)
Theorem explain_drift_independent (d : DriftResult) :
  (c_type (constraint d) = "temporal_consistency" →
   ∀ m, explain_drift str_of_num fixed1 (with_month m d)
        = explain_drift str_of_num fixed1 d)
  ∧ (c_type (constraint d) = "minimum_coverage"
     ∨ c_type (constraint d) = "resource_allocation" →
     ∀ metric t a,
       explain_drift str_of_num fixed1
         (with_constraint (mkConstraint (c_type (constraint d)) metric t a) d)
       = explain_drift str_of_num fixed1 d).
Proof.
  split.
  - intros Hty m. unfold explain_drift, with_month. simpl. by rewrite Hty.
  - intros Hty metric t a. unfold explain_drift, with_constraint. simpl.
    by destruct Hty as [-> | ->].
Qed.

Lemma report_loop_numbered explanations :
  ∀ drifts i report_lines,
    mapM (explain_drift str_of_num fixed1) drifts = Text explanations →
    report_loop str_of_num fixed1 i drifts report_lines
    = Text (report_lines ++ numbered i explanations).
Proof.
  induction explanations as [|e es IH]; intros [|d ds] i acc; simpl.
  - intros _. by rewrite app_nil_r.
  - destruct (explain_drift _ _ d); simpl; [|done].
    by destruct (mapM _ ds).
  - done.
  - destruct (explain_drift _ _ d) as [e'|]; simpl; [|done].
    destruct (mapM _ ds) as [es'|] eqn:E; simpl; [|done].
    intros [= -> ->]. rewrite (IH ds (S i) _ E).
    by rewrite <- app_assoc.
Qed.

Lemma mapM_explain_defined drifts :
  (∀ d, In d drifts →
        ∃ a t, actual_value d = VNum a ∧ expected_threshold d = VNum t) →
  ∃ explanations,
    mapM (explain_drift str_of_num fixed1) drifts = Text explanations
    ∧ length explanations = length drifts.
Proof.
  induction drifts as [|d ds IH]; intros H; simpl; [by exists []|].
  destruct (H d (or_introl eq_refl)) as (a & t & Ha & Ht).
  destruct (explain_drift_numeric d a t Ha Ht) as [e ->]. simpl.
  destruct IH as (es & -> & Hlen); [intros d' Hd'; apply H; by right|].
  simpl. exists (e :: es). split; [done|]. simpl. by rewrite Hlen.
Qed.

Section ReportOfDetection.
Variable matches_target_group : Record → TargetGroup → result bool.
Variable get_district_name : Record → result PyVal.

(** X16.  The report of what the detector returned is always produced:
    every finding of the aggregator can be explained, and the report is
    the summary, the heading, and the explanations of the findings in
    their order, numbered from 1, each followed by an empty line. *)
Theorem format_drift_report_of_detection data p out :
  detect_all_drift matches_target_group get_district_name data p = Ok out →
  ∃ explanations,
    mapM (explain_drift str_of_num fixed1) out = Text explanations
    ∧ length explanations = length out
    ∧ format_drift_report str_of_num fixed1 out
      = Text (String.concat newline
                ([generate_summary str_of_num out; ""; "Detailed Findings:";
                  repeat_string "=" 50; ""] ++ numbered 1 explanations)).
Proof.
  intros Hout.
  destruct (mapM_explain_defined out) as (es & Hes & Hlen).
  { intros d Hd. apply detect_all_drift_sound in Hout.
    eapply List.Forall_forall in Hout as (r & Hr & Hf); [|exact Hd].
    assert (Hs : ∃ ty, calculate_severity (actual_value d)
                         (expected_threshold d) ty = Ok (severity d)).
    { destruct Hf as [Hf | Hf].
      - destruct Hf as (_ & _ & _ & _ & _ & _ & _ & _ & _ & Hs). by eexists.
      - destruct Hf as (_ & _ & _ & _ & _ & _ & _ & _ & _ & _ & Hs).
        by eexists. }
    destruct Hs as [ty Hs].
    destruct (calculate_severity_numeric _ _ _ _ Hs) as (a & t & ? & ? & ?).
    by exists a, t. }
  exists es. split; [done|]. split; [done|].
  unfold format_drift_report.
  by rewrite (report_loop_numbered es out 1 _ Hes).
Qed.
End ReportOfDetection.
End ExplainFacts.

Lemma explain_drift_defined_witness :
  explain_drift (λ _, "") (λ _, "") text_finding = Raise FormatValueError.
Proof.
  apply (proj1 (proj2 (explain_drift_defined (λ _, "") (λ _, "") text_finding))
           "72").
  reflexivity.
Defined.

Lemma explain_drift_independent_witness :
  explain_drift (λ _, "") (λ _, "")
    (with_month (VStr "2024-03")
       (mkDriftResult "temporal" (VStr "D1") (VStr "Alpha")
          variance_constraint (VNum 25) (VNum 10) (VStr "2024-02") "high"))
  = explain_drift (λ _, "") (λ _, "")
      (mkDriftResult "temporal" (VStr "D1") (VStr "Alpha")
         variance_constraint (VNum 25) (VNum 10) (VStr "2024-02") "high").
Proof.
  apply (proj1 (explain_drift_independent (λ _, "") (λ _, "")
                  (mkDriftResult "temporal" (VStr "D1") (VStr "Alpha")
                     variance_constraint (VNum 25) (VNum 10)
                     (VStr "2024-02") "high")) eq_refl (VStr "2024-03")).
Defined.

Lemma format_drift_report_of_detection_witness :
  ∃ explanations,
    mapM (explain_drift (λ _, "") (λ _, "")) sample_findings
    = Text explanations
    ∧ length explanations = length sample_findings
    ∧ format_drift_report (λ _, "") (λ _, "") sample_findings
      = Text (String.concat newline
                ([generate_summary (λ _, "") sample_findings; "";
                  "Detailed Findings:"; repeat_string "=" 50; ""]
                 ++ numbered 1 explanations)).
Proof.
  apply (format_drift_report_of_detection (λ _, "") (λ _, "")
           Cli.matches_target_group Cli.get_district_name
           sample_data sample_policy sample_findings).
  vm_compute. reflexivity.
Defined.

(** ** Ingestion and the detectors *)

Section IngestionFacts.
Variable parse_float : string → option Q.

Lemma cell_snoc row k' v' k :
  cell (row ++ [(k', v')]) k
  = if String.eqb k' k then Some v' else cell row k.
Proof.
  unfold cell. rewrite rev_app_distr. simpl.
  by destruct (String.eqb k' k).
Qed.

Lemma process_row_snoc row k v :
  process_row parse_float (row ++ [(k, v)])
  = <[k := process_value parse_float k v]> (process_row parse_float row).
Proof. unfold process_row. by rewrite foldl_app. Qed.

Lemma process_row_cell row k :
  process_row parse_float row !! k
  = process_value parse_float k <$> cell row k.
Proof.
  induction row as [|[k' v'] row IH] using rev_ind; [done|].
  rewrite process_row_snoc, cell_snoc.
  destruct (String.eqb_spec k' k) as [->|Hne].
  - by rewrite lookup_insert_eq.
  - by rewrite lookup_insert_ne.
Qed.

Lemma process_value_cases k s :
  (k ∈ numeric_fields ∧ ∃ q, parse_float s = Some q
                             ∧ process_value parse_float k s = VNum q)
  ∨ ((k ∉ numeric_fields ∨ parse_float s = None)
     ∧ process_value parse_float k s = VStr s).
Proof.
  unfold process_value. case_bool_decide as Hk.
  - destruct (parse_float s) as [q|] eqn:E.
    + left. split; [done|]. by exists q.
    + right. split; [by right | done].
  - right. split; [by left | done].
Qed.

Lemma process_row_text_column row k s :
  k ∉ numeric_fields → cell row k = Some s →
  process_row parse_float row !! k = Some (VStr s).
Proof.
  intros Hk Hs. rewrite process_row_cell, Hs. simpl.
  destruct (process_value_cases k s) as [(Hk' & _) | (_ & ->)]; done.
Qed.

Lemma process_row_number_column row k s q :
  k ∈ numeric_fields → cell row k = Some s → parse_float s = Some q →
  process_row parse_float row !! k = Some (VNum q).
Proof.
  intros Hk Hs Hq. rewrite process_row_cell, Hs. simpl.
  unfold process_value. by rewrite bool_decide_eq_true_2, Hq.
Qed.

Lemma process_row_no_column row k :
  cell row k = None → process_row parse_float row !! k = None.
Proof. intros Hs. by rewrite process_row_cell, Hs. Qed.


Section IngestedData.
Variable matches_target_group : Record → TargetGroup → result bool.
Variable get_district_name : Record → result PyVal.

Lemma mapM_raises {A B} (f : A → result B) (l : list A) (x : A) :
  In x l → is_Err (f x) → is_Err (mapM f l).
Proof.
  induction l as [|y l IH]; intros Hin Hx; [destruct Hin|]. simpl.
  destruct Hin as [-> | Hin].
  - by destruct (f x).
  - destruct (f y); simpl; [|done].
    specialize (IH Hin Hx). by destruct (mapM f l).
Qed.

Lemma region_block_raises p h :
  is_Err (mapM (λ r, detect_metric_drift matches_target_group
                       get_district_name r p (month_of r)) h)
  ∨ is_Err (detect_temporal_drift get_district_name h p) →
  is_Err (region_block matches_target_group get_district_name p h).
Proof.
  unfold region_block. intros [H | H].
  - by destruct (mapM _ h).
  - destruct (mapM _ h); simpl; [|done].
    by destruct (detect_temporal_drift _ h p).
Qed.

Lemma detect_all_drift_block_raises data p h :
  In h (regions data) →
  is_Err (region_block matches_target_group get_district_name p h) →
  is_Err (detect_all_drift matches_target_group get_district_name data p).
Proof.
  intros Hh Herr. rewrite detect_all_drift_refines. unfold detect_all_spec.
  destruct (mapM _ data); simpl; [|done].
  pose proof (mapM_raises _ _ _ Hh Herr) as H.
  by destruct (mapM _ (regions data)).
Qed.

(** X18.  One failure discards the whole run.  When the per-record
    detector raises on one record of the data, or the temporal detector
    raises on the history of one district, the aggregator raises: no
    finding of any other record or district is returned. *)
Theorem detect_all_drift_all_or_nothing data p :
  (∀ r, In r data →
        is_Err (detect_metric_drift matches_target_group get_district_name
                  r p (month_of r)) →
        is_Err (detect_all_drift matches_target_group get_district_name
                  data p))
  ∧ (∀ h, In h (regions data) →
          is_Err (detect_temporal_drift get_district_name h p) →
          is_Err (detect_all_drift matches_target_group get_district_name
                    data p)).
Proof.
  split.
  - intros r Hr Herr. destruct (regions_cover data r Hr) as (h & Hh & Hrh).
    apply (detect_all_drift_block_raises data p h Hh).
    apply region_block_raises. left.
    by apply (mapM_raises _ _ r).
  - intros h Hh Herr.
    apply (detect_all_drift_block_raises data p h Hh).
    apply region_block_raises. by right.
Qed.

Lemma text_metric_raises d p m c s t :
  In c (constraints p) →
  c_type c = "minimum_coverage" ∨ c_type c = "resource_allocation" →
  c_threshold c = Some (VNum t) → c_applies_to c = Some "all" →
  dict_get d (c_metric c) = VStr s →
  is_Err (detect_metric_drift matches_target_group get_district_name d p m).
Proof.
  intros Hin Hty Hth Happ Hval. unfold detect_metric_drift.
  destruct (classify_district _ d _) as [g|e]; simpl; [|done].
  apply (foldlM_raises _ _ _ c).
  - apply filter_In. split; [done|]. unfold applies. rewrite Happ.
    apply orb_true_r.
  - intros acc. unfold metric_step.
    rewrite (shortfall_not_temporal _ Hty), Hval.
    rewrite (check_metric_constraint_shortfall _ _ _ Hty).
    unfold get_threshold. by rewrite Hth.
Qed.

(** X19.  Ingestion converts five columns only, so a policy cannot
    constrain any other column: when a [minimum_coverage] or
    [resource_allocation] constraint that applies to all districts and has
    a numeric threshold names a column outside the five, the aggregator
    raises on every file in which one row has a cell in that column,
    whatever the cell holds. *)
Theorem unconverted_column_raises rows p c t row s :
  In c (constraints p) →
  c_type c = "minimum_coverage" ∨ c_type c = "resource_allocation" →
  c_threshold c = Some (VNum t) → c_applies_to c = Some "all" →
  c_metric c ∉ numeric_fields →
  In row rows → cell row (c_metric c) = Some s →
  is_Err (detect_all_drift matches_target_group get_district_name
            (map (process_row parse_float) rows) p).
Proof.
  intros Hin Hty Hth Happ Hcol Hrow Hcell.
  set (r := process_row parse_float row).
  assert (Hr : In r (map (process_row parse_float) rows)) by (by apply in_map).
  destruct (regions_cover _ r Hr) as (h & Hh & Hrh).
  apply (detect_all_drift_block_raises _ p h Hh).
  apply region_block_raises. left. apply (mapM_raises _ _ r Hrh).
  apply (text_metric_raises r p _ c s t); try done.
  unfold dict_get, r. by rewrite (process_row_text_column row _ s Hcol Hcell).
Qed.

End IngestedData.

Lemma ingested_numeric row k :
  k ∈ numeric_fields →
  (∀ s, cell row k = Some s → is_Some (parse_float s)) →
  dict_get (process_row parse_float row) k = VNone
  ∨ ∃ v, dict_get (process_row parse_float row) k = VNum v.
Proof.
  intros Hk Hparse. unfold dict_get.
  destruct (cell row k) as [s|] eqn:Hs.
  - destruct (Hparse s eq_refl) as [q Hq].
    rewrite (process_row_number_column row k s q Hk Hs Hq). right. by exists q.
  - rewrite (process_row_no_column row k Hs). by left.
Qed.


End IngestionFacts.


Lemma detect_all_drift_all_or_nothing_witness :
  is_Err (Cli.detect_all_drift
            [sample_row "D2" "Beta" "2024-01" 80 90 5; text_record]
            coverage_policy).
Proof.
  apply (proj1 (detect_all_drift_all_or_nothing Cli.matches_target_group
                  Cli.get_district_name
                  [sample_row "D2" "Beta" "2024-01" 80 90 5; text_record]
                  coverage_policy) text_record).
  - right. left. reflexivity.
  - vm_compute. exact I.
Defined.

Lemma unconverted_column_raises_witness :
  is_Err (Backend.detect_all_drift
            (map (process_row parse_small) [attendance_row])
            attendance_policy).
Proof.
  apply (unconverted_column_raises parse_small Backend.matches_target_group
           Backend.get_district_name [attendance_row] attendance_policy
           attendance_constraint 75 attendance_row "91.5").
  - left. reflexivity.
  - left. reflexivity.
  - reflexivity.
  - reflexivity.
  - apply (bool_decide_eq_false_1 ("attendance_rate" ∈ numeric_fields)).
    reflexivity.
  - left. reflexivity.
  - reflexivity.
Defined.


(** The sample file is ingested and checked as the scenarios describe. *)
Example clean_rows_detected :
  Cli.detect_all_drift (map (process_row parse_small) clean_rows) sample_policy
  = Ok sample_findings.
Proof. vm_compute. reflexivity. Qed.

(** ** Tolerance bands and known constraint types *)

Lemma check_metric_constraint_known value c tm tm' :
  known_type (c_type c) →
  check_metric_constraint value c tm = check_metric_constraint value c tm'.
Proof.
  unfold check_metric_constraint. by intros [-> | [-> | ->]].
Qed.

Section BandsUnused.
Variable matches_target_group : Record → TargetGroup → result bool.
Variable get_district_name : Record → result PyVal.

Lemma metric_step_bands d p tm m acc c :
  known_type (c_type c) →
  metric_step get_district_name d (with_target_metrics tm p) m acc c
  = metric_step get_district_name d p m acc c.
Proof.
  intros Hc. unfold metric_step. simpl.
  by rewrite (check_metric_constraint_known _ c tm (target_metrics p) Hc).
Qed.

Lemma detect_metric_drift_bands d p tm m :
  (∀ c, In c (constraints p) → known_type (c_type c)) →
  detect_metric_drift matches_target_group get_district_name d
    (with_target_metrics tm p) m
  = detect_metric_drift matches_target_group get_district_name d p m.
Proof.
  intros Hc. unfold detect_metric_drift. simpl.
  destruct (classify_district _ d _) as [g|]; simpl; [|done].
  unfold get_constraints_for_group. simpl.
  apply foldlM_ext_in. intros acc c Hin. apply filter_In in Hin as [Hin _].
  by apply metric_step_bands, Hc.
Qed.

Lemma detect_all_drift_bands data p tm :
  (∀ c, In c (constraints p) → known_type (c_type c)) →
  detect_all_drift matches_target_group get_district_name data
    (with_target_metrics tm p)
  = detect_all_drift matches_target_group get_district_name data p.
Proof.
  intros Hc. unfold detect_all_drift.
  destruct (group_records data) as [groups|]; simpl; [|done].
  apply foldlM_ext_in. intros acc g _. unfold region_step.
  rewrite (foldlM_ext_in (record_step _ _ (with_target_metrics tm p))
             (record_step matches_target_group get_district_name p)).
  - reflexivity.
  - intros acc' r _. unfold record_step.
    by rewrite detect_metric_drift_bands.
Qed.

(** X21.  The tolerance bands of a policy are read for constraints of
    unrecognized types only: when every constraint of the policy is of
    type [minimum_coverage], [resource_allocation] or
    [temporal_consistency], the aggregator returns the same findings, or
    raises the same exception, whatever the policy holds as
    [target_metrics]. *)
Theorem target_metrics_unused data p tm :
  (∀ c, In c (constraints p) → known_type (c_type c)) →
  detect_all_drift matches_target_group get_district_name data
    (with_target_metrics tm p)
  = detect_all_drift matches_target_group get_district_name data p.
Proof. apply detect_all_drift_bands. Qed.

End BandsUnused.

Lemma target_metrics_unused_witness :
  Cli.detect_all_drift sample_data
    (with_target_metrics custom_metrics sample_policy)
  = Cli.detect_all_drift sample_data sample_policy.
Proof.
  apply (target_metrics_unused Cli.matches_target_group Cli.get_district_name
           sample_data sample_policy custom_metrics).
  intros c [<- | [<- | []]]; [by left | by right; right].
Defined.

(** ** Policy extraction *)

Lemma extract_target_groups_copies appended :
  ∃ n, extract_target_groups appended = replicate (S n) extracted_group.
Proof.
  destruct appended as [|n]; [by exists 0%nat | by exists n].
Qed.

Lemma extract_intent_rules appended c u v monthly quarterly text :
  ei_constraints (extract_intent appended c u v monthly quarterly text)
  = match c, u, v with
    | None, None, None =>
        [coverage_rule 80; utilization_rule 90; variance_rule 10]
    | _, _, _ =>
        option_list (coverage_rule <$> c)
        ++ option_list (utilization_rule <$> u)
        ++ option_list (variance_rule <$> v)
    end.
Proof. destruct c, u, v; vm_compute; reflexivity. Qed.

(** X22.  The constraints of an extracted policy.  When no pattern finds
    a figure the policy holds the three default constraints, coverage at
    least 80, fund utilization at least 90, variance at most 10; as soon
    as one pattern finds a figure, the policy holds a constraint for each
    figure found and for no other quantity, the defaults filling no gap.
    The constraints come in the order coverage, utilization, variance;
    there is at least one; each is of a known type, has a numeric
    threshold and names one of the columns that ingestion converts; and
    the target groups are copies of the single group of districts with a
    literacy rate of at most 70. *)
Theorem extract_intent_constraints appended c u v monthly quarterly text :
  let e := extract_intent appended c u v monthly quarterly text in
  ei_constraints e
  = match c, u, v with
    | None, None, None =>
        [coverage_rule 80; utilization_rule 90; variance_rule 10]
    | _, _, _ =>
        option_list (coverage_rule <$> c)
        ++ option_list (utilization_rule <$> u)
        ++ option_list (variance_rule <$> v)
    end
  ∧ ei_constraints e ≠ []
  ∧ (∀ k, In k (ei_constraints e) →
          known_type (c_type k)
          ∧ (∃ t, c_threshold k = Some (VNum t))
          ∧ c_metric k ∈ numeric_fields)
  ∧ (∃ n, ei_target_groups e = replicate (S n) extracted_group).
Proof.
  intros e. pose proof (extract_intent_rules appended c u v monthly quarterly
                          text) as Hrules. fold e in Hrules.
  split; [exact Hrules|]. split; [|split].
  - rewrite Hrules. by destruct c, u, v.
  - intros k. rewrite Hrules.
    assert (Hcov : ∀ t, known_type (c_type (coverage_rule t))
                        ∧ (∃ t', c_threshold (coverage_rule t) = Some (VNum t'))
                        ∧ c_metric (coverage_rule t) ∈ numeric_fields).
    { intros t. split; [by left|]. split; [by eexists|].
      apply (bool_decide_eq_true_1 _). reflexivity. }
    assert (Hutil : ∀ t, known_type (c_type (utilization_rule t))
                         ∧ (∃ t', c_threshold (utilization_rule t)
                                  = Some (VNum t'))
                         ∧ c_metric (utilization_rule t) ∈ numeric_fields).
    { intros t. split; [by right; left|]. split; [by eexists|].
      apply (bool_decide_eq_true_1 _). reflexivity. }
    assert (Hvar : ∀ t, known_type (c_type (variance_rule t))
                        ∧ (∃ t', c_threshold (variance_rule t) = Some (VNum t'))
                        ∧ c_metric (variance_rule t) ∈ numeric_fields).
    { intros t. split; [by right; right|]. split; [by eexists|].
      apply (bool_decide_eq_true_1 _). reflexivity. }
    destruct c, u, v; simpl; intros Hk;
      repeat (destruct Hk as [<- | Hk]; [done|]); destruct Hk.
  - apply extract_target_groups_copies.
Qed.

Lemma classify_district_copies mtg (d : Record) (g : TargetGroup) n :
  classify_district mtg d (replicate (S n) g) = classify_district mtg d [g].
Proof.
  induction n as [|n IH]; [done|].
  change (replicate (S (S n)) g) with (g :: replicate (S n) g).
  cbn [classify_district]. rewrite IH. simpl.
  by destruct (mtg d g) as [[]|].
Qed.

Section GroupsOfPolicy.
Variable matches_target_group : Record → TargetGroup → result bool.
Variable get_district_name : Record → result PyVal.

Lemma detect_all_drift_same_cohorts data p p' :
  constraints p' = constraints p → target_metrics p' = target_metrics p →
  (∀ r, classify_district matches_target_group r (target_groups p')
        = classify_district matches_target_group r (target_groups p)) →
  detect_all_drift matches_target_group get_district_name data p'
  = detect_all_drift matches_target_group get_district_name data p.
Proof.
  intros Hc Htm Hg. unfold detect_all_drift.
  destruct (group_records data) as [groups|]; simpl; [|done].
  apply foldlM_ext_in. intros acc g _. unfold region_step.
  rewrite (foldlM_ext_in (record_step _ _ p')
             (record_step matches_target_group get_district_name p)).
  - unfold detect_temporal_drift. by rewrite Hc.
  - intros acc' r _. unfold record_step, detect_metric_drift.
    rewrite Hg. destruct (classify_district _ r _); simpl; [|done].
    unfold get_constraints_for_group. rewrite Hc.
    rewrite (foldlM_ext_in (metric_step _ r p' (month_of r))
               (metric_step get_district_name r p (month_of r))); [done|].
    intros acc'' c _. unfold metric_step. by rewrite Htm.
Qed.
End GroupsOfPolicy.

Section ExtractedPolicy.
Variable parse_float : string → option Q.

(** X23.  What detection makes of an extracted policy.  The findings of
    the aggregator of [backend/drift/detector.py] depend neither on how
    many copies of the target group the parser wrote nor on the tolerance
    bands it derived; and when no figure found in the text is zero, the
    aggregator returns, without exception, on every file whose rows have
    a [district_id] column and whose numeric cells [float] accepts. *)
Theorem extracted_policy_detection appended c u v monthly quarterly text :
  let p := as_policy (extract_intent appended c u v monthly quarterly text) in
  (∀ data,
     Backend.detect_all_drift data p
     = Backend.detect_all_drift data
         (as_policy (extract_intent 0 c u v monthly quarterly text)))
  ∧ (∀ data tm,
       Backend.detect_all_drift data (with_target_metrics tm p)
       = Backend.detect_all_drift data p)
  ∧ (∀ rows,
       (∀ q, c = Some q ∨ u = Some q ∨ v = Some q → ¬ (q == 0)%Q) →
       (∀ row, In row rows → is_Some (cell row "district_id")) →
       (∀ row k s, In row rows → k ∈ numeric_fields → cell row k = Some s →
                   is_Some (parse_float s)) →
       ∃ out, Backend.detect_all_drift (map (process_row parse_float) rows) p
              = Ok out).
Proof.
  intros p.
  pose proof (extract_intent_rules appended c u v monthly quarterly text)
    as Hrules.
  assert (Hknown : ∀ k, In k (constraints p) →
                        known_type (c_type k) ∧ c_metric k ∈ numeric_fields
                        ∧ ∃ t, c_threshold k = Some (VNum t)
                               ∧ (t = 80%Q ∨ t = 90%Q ∨ t = 10%Q
                                  ∨ c = Some t ∨ u = Some t ∨ v = Some t)).
  { intros k. unfold p, as_policy. cbn [constraints]. rewrite Hrules.
    assert (Hin : ∀ x, x ∈ numeric_fields ↔ bool_decide (x ∈ numeric_fields) = true).
    { intros x. symmetry. apply bool_decide_eq_true. }
    destruct c, u, v; simpl; intros Hk;
      repeat (destruct Hk as [<- | Hk];
              [split; [unfold known_type; simpl; tauto|];
               split; [by apply Hin|]; eexists; split; [reflexivity|tauto]|]);
      destruct Hk. }
  split; [|split].
  - intros data. apply detect_all_drift_same_cohorts; [done | done|].
    intros r. unfold p, as_policy, extract_intent. cbn [target_groups ei_target_groups].
    destruct (extract_target_groups_copies appended) as [n ->].
    apply classify_district_copies.
  - intros data tm. apply detect_all_drift_bands.
    intros k Hk. by apply Hknown.
  - intros rows Hnz Hid Hclean.
    apply detect_all_drift_defined.
    + intros r Hr. apply in_map_iff in Hr as (row & <- & Hrow).
      destruct (Hid row Hrow) as [s Hs].
      rewrite (process_row_cell parse_float), Hs. by eexists.
    + intros r g Hr Hg. apply in_map_iff in Hr as (row & <- & Hrow).
      eexists. apply all_loop_Ok. intros fc Hfc.
      unfold p, as_policy in Hg. cbn [target_groups ei_target_groups] in Hg.
      unfold extract_intent in Hg. cbn [ei_target_groups] in Hg.
      destruct (extract_target_groups_copies appended) as [n Hn].
      rewrite Hn in Hg. apply list_elem_of_In, elem_of_replicate in Hg as [-> _].
      destruct Hfc as [<- | []].
      apply backend_criterion_spec; [by split|].
      unfold numeric_field. cbn [fst].
      destruct (ingested_numeric parse_float row "literacy_rate")
        as [-> | [x ->]]; try done.
      * apply (bool_decide_eq_true_1 _). reflexivity.
      * intros s Hs. eapply Hclean; eauto.
        apply (bool_decide_eq_true_1 _). reflexivity.
    + intros r _. by eexists.
    + intros k Hk. destruct (Hknown k Hk) as (Hty & _ & t & Ht & Hsrc).
      split; [done|]. exists t. split; [done|].
      destruct Hsrc as [-> | [-> | [-> | Hsrc]]];
        try (intros E; apply Qeq_bool_iff in E; discriminate E).
      by apply Hnz.
    + intros k r Hk Hr. apply in_map_iff in Hr as (row & <- & Hrow).
      destruct (Hknown k Hk) as (_ & Hcol & _).
      apply ingested_numeric; [done|].
      intros s Hs. eapply Hclean; eauto.
Qed.
End ExtractedPolicy.

Lemma extracted_policy_detection_witness :
  ∃ out,
    Backend.detect_all_drift (map (process_row parse_small) clean_rows)
      (as_policy (extract_intent 2 (Some 85%Q) None None true false
                    "coverage of at least 85% in districts with literacy < 70"))
    = Ok out.
Proof.
  apply (proj2 (proj2 (extracted_policy_detection parse_small 2 (Some 85%Q)
                         None None true false
                         "coverage of at least 85% in districts with literacy < 70"))).
  - intros q [[= <-] | [[=] | [=]]].
    intros E. apply Qeq_bool_iff in E. discriminate E.
  - intros row [<- | [<- | []]]; by eexists.
  - intros row k s [<- | [<- | []]] Hk Hs;
      repeat (apply elem_of_cons in Hk as [-> | Hk];
              [vm_compute in Hs;
               first [discriminate Hs | injection Hs as <-; by eexists]|]);
      by apply elem_of_nil in Hk.
Defined.

(** A document that gives a coverage figure only yields a policy with the
    coverage constraint only. *)
Example extract_intent_coverage_only :
  ei_constraints (extract_intent 2 (Some 85%Q) None None true false "")
  = [coverage_rule 85].
Proof. vm_compute. reflexivity. Qed.

(** ** Findings and violations *)

Lemma region_history_of_member data h r :
  In h (regions data) → In r h → h = region_history data (district_key r).
Proof.
  unfold regions. intros Hh Hr.
  apply in_map_iff in Hh as (k & <- & _).
  unfold region_history in *. apply filter_In in Hr as [_ Hk].
  apply List.filter_ext. intros r'.
  destruct (key_eqb (district_key r') k) eqn:E1,
           (key_eqb (district_key r') (district_key r)) eqn:E2; try done.
  - rewrite key_eqb_sym in Hk.
    by rewrite (key_eqb_trans _ _ _ E1 Hk) in E2.
  - by rewrite (key_eqb_trans _ _ _ E2 Hk) in E1.
Qed.

Lemma check_metric_constraint_violation a c tm t :
  check_metric_constraint (VNum a) c tm = Ok (true, VNum t) →
  ((c_type c = "minimum_coverage" ∨ c_type c = "resource_allocation")
   ∧ c_threshold c = Some (VNum t) ∧ (a < t)%Q)
  ∨ (c_type c = "temporal_consistency"
     ∧ c_threshold c = Some (VNum t) ∧ (t < a)%Q)
  ∨ (¬ known_type (c_type c)
     ∧ ∃ band, tm !! c_metric c = Some band
               ∧ ((b_min band = Some (VNum t) ∧ (a < t)%Q)
                  ∨ (b_max band = Some (VNum t) ∧ (t < a)%Q))).
Proof.
  unfold check_metric_constraint, get_threshold.
  destruct (String.eqb_spec (c_type c) "minimum_coverage") as [Hty|Hn1].
  { destruct (c_threshold c) as [[|t'|]|]; try done. simpl.
    intros [= Hlt <-]. left. split; [by left|]. split; [done|].
    by apply Qltb_lt. }
  destruct (String.eqb_spec (c_type c) "temporal_consistency") as [Hty|Hn2].
  { destruct (c_threshold c) as [[|t'|]|]; try done. simpl.
    intros [= Hlt <-]. right. left. split; [done|]. split; [done|].
    by apply Qltb_lt. }
  destruct (String.eqb_spec (c_type c) "resource_allocation") as [Hty|Hn3].
  { destruct (c_threshold c) as [[|t'|]|]; try done. simpl.
    intros [= Hlt <-]. left. split; [by right|]. split; [done|].
    by apply Qltb_lt. }
  intros H. right. right. split; [by intros [? | [? | ?]]|].
  destruct (tm !! c_metric c) as [band|]; [|done].
  exists band. split; [done|].
  destruct (b_min band) as [[|lo|]|] eqn:Hlo; try done; simpl in H.
  - destruct (Qltb a lo) eqn:E.
    + injection H as <-. left. split; [done|]. by apply Qltb_lt.
    + destruct (b_max band) as [[|hi|]|]; try done; simpl in H.
      destruct (Qltb hi a) eqn:E'; [|done].
      injection H as <-. right. split; [done|]. by apply Qltb_lt.
  - destruct (b_max band) as [[|hi|]|]; try done; simpl in H.
    destruct (Qltb hi a) eqn:E'; [|done].
    injection H as <-. right. split; [done|]. by apply Qltb_lt.
Qed.

Section Correctness.
Variable matches_target_group : Record → TargetGroup → result bool.
Variable get_district_name : Record → result PyVal.

Lemma detect_all_drift_origin data p out :
  detect_all_drift matches_target_group get_district_name data p = Ok out →
  Forall (λ x, ∃ r, In r data
                    ∧ (metric_finding get_district_name r p (month_of r) x
                       ∨ (temporal_finding get_district_name r p x
                          ∧ (2 ≤ length (region_history data (district_key r)))%nat)))
         out.
Proof.
  rewrite detect_all_drift_refines. unfold detect_all_spec.
  intros H. inv_bind H. injection H as <-.
  apply mapM_Ok_Forall2 in Ha0.
  apply List.Forall_forall. intros x Hx.
  apply in_concat in Hx as (b & Hb & Hx).
  destruct (Forall2_In_r _ _ _ _ Ha0 Hb) as (h & Hh & Hblock).
  unfold region_block in Hblock. inv_bind Hblock. injection Hblock as <-.
  apply in_app_iff in Hx as [Hx | Hx].
  - apply in_concat in Hx as (ms & Hms & Hx).
    apply mapM_Ok_Forall2 in Ha1.
    destruct (Forall2_In_r _ _ _ _ Ha1 Hms) as (r & Hr & Hm).
    apply detect_metric_drift_sound in Hm.
    exists r. split; [by eapply regions_incl|].
    left. by eapply List.Forall_forall in Hm.
  - assert (Hlen : (2 ≤ length h)%nat).
    { unfold detect_temporal_drift in Ha2.
      destruct (length h <? 2)%nat eqn:E; [by simplify_eq|].
      by apply Nat.ltb_ge in E. }
    apply detect_temporal_drift_sound in Ha2.
    eapply List.Forall_forall in Ha2 as (r & Hr & Hf); [|exact Hx].
    exists r. split; [by eapply regions_incl|]. right. split; [done|].
    by rewrite <- (region_history_of_member data h r Hh Hr).
Qed.

(** X24.  Every finding is a violation.  Each finding the aggregator
    returns holds numbers as value and threshold, and: a finding of type
    "metric" on a [minimum_coverage] or [resource_allocation] constraint
    has the threshold of its constraint and a value strictly below it; a
    finding of type "temporal" has the threshold of its
    [temporal_consistency] constraint and a value strictly above it, and
    its district has at least two records in the data; a finding on a
    constraint of another type has, as threshold, the minimum of the
    tolerance band of the metric with a value strictly below it, or the
    maximum with a value strictly above it. *)
Theorem detect_all_drift_findings_violate data p out x :
  detect_all_drift matches_target_group get_district_name data p = Ok out →
  In x out →
  ∃ a t,
    actual_value x = VNum a ∧ expected_threshold x = VNum t
    ∧ ((drift_type x = "metric"
        ∧ (c_type (constraint x) = "minimum_coverage"
           ∨ c_type (constraint x) = "resource_allocation")
        ∧ c_threshold (constraint x) = Some (VNum t) ∧ (a < t)%Q)
       ∨ (drift_type x = "temporal"
          ∧ c_type (constraint x) = "temporal_consistency"
          ∧ c_threshold (constraint x) = Some (VNum t) ∧ (t < a)%Q
          ∧ ∃ r, In r data ∧ r !! "district_id" = Some (district_id x)
                 ∧ (2 ≤ length (region_history data (district_key r)))%nat)
       ∨ (drift_type x = "metric"
          ∧ ¬ known_type (c_type (constraint x))
          ∧ ∃ band,
              target_metrics p !! c_metric (constraint x) = Some band
              ∧ ((b_min band = Some (VNum t) ∧ (a < t)%Q)
                 ∨ (b_max band = Some (VNum t) ∧ (t < a)%Q)))).
Proof.
  intros Hout Hx. apply detect_all_drift_origin in Hout.
  eapply List.Forall_forall in Hout as (r & Hr & Hf); [|exact Hx].
  destruct Hf as [Hf | [Hf Hlen]].
  - destruct Hf as (Hty & _ & _ & _ & _ & Htemp & _ & _ & Hcheck & Hsev).
    destruct (calculate_severity_numeric _ _ _ _ Hsev) as (a & t & Ha & Ht & _).
    exists a, t. split; [done|]. split; [done|].
    rewrite Ha, Ht in Hcheck.
    destruct (check_metric_constraint_violation _ _ _ _ Hcheck)
      as [(Hs & Hth & Hlt) | [(Hs & _) | (Hu & Hband)]].
    + by left.
    + unfold is_temporal in Htemp. by rewrite Hs in Htemp.
    + right. by right.
  - destruct Hf as (Hty & _ & Hid & _ & _ & Htemp & _ & _ & Hth & Hgt & Hsev).
    destruct (calculate_severity_numeric _ _ _ _ Hsev) as (a & t & Ha & Ht & _).
    exists a, t. split; [done|]. split; [done|]. right. left.
    rewrite Ha, Ht in Hgt. simpl in Hgt. injection Hgt as Hgt.
    apply Qltb_lt in Hgt.
    unfold is_temporal in Htemp. apply String.eqb_eq in Htemp.
    rewrite Ht in Hth. unfold get_threshold in Hth.
    destruct (c_threshold (constraint x)) as [th|] eqn:Hc; [|done].
    subst th. repeat split; try done.
    exists r. repeat split; try done. by apply dict_getitem_Ok_inv.
Qed.

Lemma detect_metric_drift_complete d p m ds g c v t :
  detect_metric_drift matches_target_group get_district_name d p m = Ok ds →
  classify_district matches_target_group d (target_groups p) = Ok g →
  In c (constraints p) → applies g c = true →
  c_type c = "minimum_coverage" ∨ c_type c = "resource_allocation" →
  dict_get d (c_metric c) = VNum v → c_threshold c = Some (VNum t) →
  (v < t)%Q →
  ∃ x, In x ds ∧ drift_type x = "metric" ∧ constraint x = c
       ∧ actual_value x = VNum v ∧ expected_threshold x = VNum t
       ∧ d !! "district_id" = Some (district_id x) ∧ month x = m.
Proof.
  intros Hds Hg Hc Happ Hty Hv Ht Hlt. unfold detect_metric_drift in Hds.
  rewrite Hg in Hds. simpl in Hds.
  rewrite (foldlM_emit _ _ _ (metric_step_emit get_district_name d p m)) in Hds.
  inv_bind Hds. injection Hds as <-.
  apply mapM_Ok_Forall2 in Ha.
  destruct (Forall2_In_l _ _ _ c Ha) as (ys & Hys & Hstep);
    [by apply filter_In|].
  unfold metric_step in Hstep.
  rewrite (shortfall_not_temporal _ Hty), Hv in Hstep.
  rewrite (check_metric_constraint_shortfall _ _ _ Hty) in Hstep.
  unfold get_threshold in Hstep. rewrite Ht in Hstep. simpl in Hstep.
  rewrite (proj2 (Qltb_lt v t) Hlt) in Hstep.
  inv_bind Hstep. simplify_eq.
  eexists. split.
  - apply in_concat. eexists. split; [exact Hys | by left].
  - simpl. repeat split; try done. by apply dict_getitem_Ok_inv.
Qed.

(** X25.  Every violation is found.  When the aggregator returns, then
    for every record of the data and every constraint of the policy with a
    numeric threshold, the record holding a number under the metric of the
    constraint: if the constraint is a [minimum_coverage] or
    [resource_allocation] constraint that applies to the cohort of the
    record and the value is below the threshold, there is a finding of
    type "metric" with this constraint, value, threshold, the record's
    identifier and month; if it is a [temporal_consistency] constraint,
    the district of the record has at least two records and the value is
    above the threshold, there is such a finding of type "temporal". *)
Theorem detect_all_drift_reports_violations data p out r c v t :
  detect_all_drift matches_target_group get_district_name data p = Ok out →
  In r data → In c (constraints p) →
  dict_get r (c_metric c) = VNum v → c_threshold c = Some (VNum t) →
  (c_type c = "minimum_coverage" ∨ c_type c = "resource_allocation" →
   (∀ g, classify_district matches_target_group r (target_groups p) = Ok g →
         applies g c = true) →
   (v < t)%Q →
   ∃ x, In x out ∧ drift_type x = "metric" ∧ constraint x = c
        ∧ actual_value x = VNum v ∧ expected_threshold x = VNum t
        ∧ r !! "district_id" = Some (district_id x) ∧ month x = month_of r)
  ∧ (c_type c = "temporal_consistency" →
     (2 ≤ length (region_history data (district_key r)))%nat →
     (t < v)%Q →
     ∃ x, In x out ∧ drift_type x = "temporal" ∧ constraint x = c
          ∧ actual_value x = VNum v ∧ expected_threshold x = VNum t
          ∧ r !! "district_id" = Some (district_id x)
          ∧ month x = month_of r).
Proof.
  rewrite detect_all_drift_refines. unfold detect_all_spec.
  intros H Hr Hc Hv Ht. inv_bind H. injection H as <-.
  apply mapM_Ok_Forall2 in Ha0.
  destruct (regions_cover data r Hr) as (h & Hh & Hrh).
  destruct (Forall2_In_l _ _ _ h Ha0 Hh) as (b & Hb & Hblock).
  unfold region_block in Hblock. inv_bind Hblock. injection Hblock as <-.
  split.
  - intros Hty Happ Hlt.
    apply mapM_Ok_Forall2 in Ha1.
    destruct (Forall2_In_l _ _ _ r Ha1 Hrh) as (ms & Hms & Hm).
    assert (Hg : ∃ g, classify_district matches_target_group r
                        (target_groups p) = Ok g).
    { unfold detect_metric_drift in Hm.
      destruct (classify_district _ r _) as [g|]; [by exists g | done]. }
    destruct Hg as [g Hg].
    destruct (detect_metric_drift_complete r p _ ms g c v t Hm Hg Hc
                (Happ g Hg) Hty Hv Ht Hlt) as (x & Hx & Hfields).
    exists x. split; [|done].
    apply in_concat. eexists. split; [exact Hb|].
    apply in_app_iff. left. apply in_concat. by exists ms.
  - intros Hty Hlen Hlt.
    rewrite <- (region_history_of_member data h r Hh Hrh) in Hlen.
    destruct (detect_temporal_drift_complete get_district_name h p a2 c r)
      as (x & Hx & Hcx & Hf); try done.
    + unfold is_temporal. by rewrite Hty.
    + by rewrite Hv.
    + rewrite Hv. unfold get_threshold. rewrite Ht. simpl.
      by rewrite (proj2 (Qltb_lt t v) Hlt).
    + exists x. split.
      * apply in_concat. eexists. split; [exact Hb|].
        apply in_app_iff. by right.
      * destruct Hf as (Hd & Hm & Hid & _ & _ & _ & Hval & _ & Hth & _).
        rewrite Hcx in Hval, Hth. rewrite Hv in Hval.
        unfold get_threshold in Hth. rewrite Ht in Hth.
        repeat split; try done. by apply dict_getitem_Ok_inv.
Qed.
End Correctness.

Lemma detect_all_drift_findings_violate_witness :
  ∃ a t,
    VNum 25 = VNum a ∧ VNum 10 = VNum t
    ∧ (("temporal" = "metric"
        ∧ (c_type variance_constraint = "minimum_coverage"
           ∨ c_type variance_constraint = "resource_allocation")
        ∧ c_threshold variance_constraint = Some (VNum t) ∧ (a < t)%Q)
       ∨ ("temporal" = "temporal"
          ∧ c_type variance_constraint = "temporal_consistency"
          ∧ c_threshold variance_constraint = Some (VNum t) ∧ (t < a)%Q
          ∧ ∃ r, In r sample_data ∧ r !! "district_id" = Some (VStr "D1")
                 ∧ (2 ≤ length (region_history sample_data (district_key r)))%nat)
       ∨ ("temporal" = "metric"
          ∧ ¬ known_type (c_type variance_constraint)
          ∧ ∃ band,
              target_metrics sample_policy !! c_metric variance_constraint
              = Some band
              ∧ ((b_min band = Some (VNum t) ∧ (a < t)%Q)
                 ∨ (b_max band = Some (VNum t) ∧ (t < a)%Q)))).
Proof.
  apply (detect_all_drift_findings_violate Cli.matches_target_group
           Cli.get_district_name sample_data sample_policy sample_findings
           (mkDriftResult "temporal" (VStr "D1") (VStr "Alpha")
              variance_constraint (VNum 25) (VNum 10) (VStr "2024-02")
              "high")).
  - vm_compute. reflexivity.
  - right. right. left. reflexivity.
Defined.

Lemma detect_all_drift_reports_violations_witness :
  ∃ x, In x sample_findings ∧ drift_type x = "metric"
       ∧ constraint x = priority_coverage
       ∧ actual_value x = VNum 50 ∧ expected_threshold x = VNum 80
       ∧ sample_row "D1" "Alpha" "2024-02" 65 50 25 !! "district_id"
         = Some (district_id x)
       ∧ month x = month_of (sample_row "D1" "Alpha" "2024-02" 65 50 25).
Proof.
  destruct (detect_all_drift_reports_violations Cli.matches_target_group
              Cli.get_district_name sample_data sample_policy sample_findings
              (sample_row "D1" "Alpha" "2024-02" 65 50 25)
              priority_coverage 50 80) as [H _].
  - vm_compute. reflexivity.
  - right. right. left. reflexivity.
  - left. reflexivity.
  - reflexivity.
  - reflexivity.
  - apply H.
    + left. reflexivity.
    + intros g Hg. vm_compute in Hg. injection Hg as <-. reflexivity.
    + reflexivity.
Defined.

(** ** Stored documents *)

Lemma object_id_to_str_clean obj : has_object_id (object_id_to_str obj) = false.
Proof.
  induction obj as [hex|items IH|items IH|v] using Doc_nested_ind; simpl;
    try done.
  - induction IH as [|kv l Hkv _ IHl]; simpl; [done|].
    by rewrite Hkv, IHl.
  - induction IH as [|d l Hd _ IHl]; simpl; [done|].
    by rewrite Hd, IHl.
Qed.

Lemma object_id_to_str_fixed obj :
  has_object_id obj = false → object_id_to_str obj = obj.
Proof.
  induction obj as [hex|items IH|items IH|v] using Doc_nested_ind; simpl;
    try done.
  - intros H. f_equal.
    induction IH as [|[k d] l Hkv _ IHl]; simpl in *; [done|].
    apply orb_false_iff in H as [H1 H2].
    by rewrite (Hkv H1), (IHl H2).
  - intros H. f_equal.
    induction IH as [|d l Hd _ IHl]; simpl in *; [done|].
    apply orb_false_iff in H as [H1 H2].
    by rewrite (Hd H1), (IHl H2).
Qed.

Lemma object_id_to_str_shape obj : shape (object_id_to_str obj) = shape obj.
Proof.
  induction obj as [hex|items IH|items IH|v] using Doc_nested_ind; simpl;
    try done.
  - f_equal. induction IH as [|kv l Hkv _ IHl]; simpl; [done|].
    by rewrite Hkv, IHl.
  - f_equal. induction IH as [|d l Hd _ IHl]; simpl; [done|].
    by rewrite Hd, IHl.
Qed.

(** X26.  The conversion of stored documents leaves no object identifier
    anywhere in a document, however deeply nested in dictionaries and
    lists; it keeps the keys of every dictionary and the length of every
    list; it changes nothing in a document that holds no object
    identifier, and only such documents are left unchanged; hence
    converting twice is converting once. *)
Theorem object_id_to_str_converts (obj : Doc) :
  has_object_id (object_id_to_str obj) = false
  ∧ shape (object_id_to_str obj) = shape obj
  ∧ (object_id_to_str obj = obj ↔ has_object_id obj = false)
  ∧ object_id_to_str (object_id_to_str obj) = object_id_to_str obj.
Proof.
  split; [apply object_id_to_str_clean|].
  split; [apply object_id_to_str_shape|]. split.
  - split; [|apply object_id_to_str_fixed].
    intros H. rewrite <- H. apply object_id_to_str_clean.
  - apply object_id_to_str_fixed, object_id_to_str_clean.
Qed.

Example object_id_to_str_stored_finding :
  object_id_to_str stored_finding
  = DDict [("_id", DValue (VStr "65a1f0c2e4b0a1b2c3d4e5f6"));
           ("district_id", DValue (VStr "D1"));
           ("history", DList [DValue (VStr "65a1f0c2e4b0a1b2c3d4e5f7");
                              DValue (VNum 72)])].
Proof. reflexivity. Qed.

(** ** The first matching group *)

Lemma forallb_fails (d : Record) (g : TargetGroup) :
  fails_group d g → forallb (spec_satisfies d) (tg_criteria g) = false.
Proof.
  intros (fc & Hin & Hfc).
  destruct (forallb _ _) eqn:E; [|done].
  rewrite forallb_forall in E. by rewrite (E fc Hin) in Hfc.
Qed.

Lemma spec_classify_first d before g after :
  Forall (fails_group d) before →
  (∀ fc, In fc (tg_criteria g) → spec_satisfies d fc = true) →
  spec_classify d (before ++ g :: after) = tg_name g.
Proof.
  intros Hb Hg. unfold spec_classify.
  induction Hb as [|g' before Hg' _ IH]; simpl.
  - by rewrite (proj2 (forallb_forall _ _) Hg).
  - by rewrite (forallb_fails d g' Hg').
Qed.

Lemma spec_classify_none d groups :
  Forall (fails_group d) groups → spec_classify d groups = "unclassified".
Proof.
  intros Hb. unfold spec_classify.
  induction Hb as [|g' groups Hg' _ IH]; simpl; [done|].
  by rewrite (forallb_fails d g' Hg').
Qed.

Lemma range_criterion_typed fc : range_criterion fc → typed_criterion fc.
Proof.
  unfold range_criterion, typed_criterion. by destruct fc.2.
Qed.

(** X27.  The first matching group wins.  For criteria that are numeric
    ranges or numeric scalars, on a record that holds numbers or nothing
    in the fields they name, the classifier of
    [backend/drift/detector.py] returns the name of the first group, in
    the order of the policy, all of whose criteria hold, later groups
    that hold as well being ignored, and "unclassified" when every group
    has a criterion that fails; a criterion on a field that the record
    lacks fails.  The classifier of [src/drift_detector.py] agrees when
    all criteria are ranges. *)
Theorem classify_district_first_match (d : Record) (groups : list TargetGroup) :
  (∀ g fc, In g groups → In fc (tg_criteria g) →
           typed_criterion fc ∧ numeric_field d fc) →
  (∀ before g after,
     groups = before ++ g :: after →
     Forall (fails_group d) before →
     (∀ fc, In fc (tg_criteria g) → spec_satisfies d fc = true) →
     Backend.classify_district d groups = Ok (tg_name g))
  ∧ (Forall (fails_group d) groups →
     Backend.classify_district d groups = Ok "unclassified")
  ∧ (∀ g field cond, In g groups → In (field, cond) (tg_criteria g) →
                     d !! field = None → fails_group d g)
  ∧ ((∀ g fc, In g groups → In fc (tg_criteria g) → range_criterion fc) →
     Cli.classify_district d groups = Backend.classify_district d groups).
Proof.
  intros Hty.
  pose proof (backend_classify_district_spec d groups Hty) as Hb.
  split; [|split; [|split]].
  - intros before g after Hgroups Hbefore Hg.
    rewrite Hb, Hgroups. f_equal. by apply spec_classify_first.
  - intros Hall. rewrite Hb. f_equal. by apply spec_classify_none.
  - intros g field cond Hg Hfc Hnone. exists (field, cond). split; [done|].
    unfold spec_satisfies, dict_get. simpl. by rewrite Hnone.
  - intros Hrange. rewrite Hb. apply cli_classify_district_spec.
    intros g fc Hg Hfc. split; [by eapply Hrange|]. by eapply Hty.
Qed.

Lemma classify_district_first_match_witness :
  Backend.classify_district (sample_row "D1" "Alpha" "2024-01" 65 72 5)
    [low_literacy_group; priority_group; everyone_group]
  = Ok "priority_districts".
Proof.
  destruct (classify_district_first_match
              (sample_row "D1" "Alpha" "2024-01" 65 72 5)
              [low_literacy_group; priority_group; everyone_group]) as [H _].
  - intros g fc [<- | [<- | [<- | []]]] Hfc; simpl in Hfc.
    + destruct Hfc as [<- | []]. by split.
    + destruct Hfc as [<- | []]. by split.
    + destruct Hfc.
  - apply (H [low_literacy_group] priority_group [everyone_group]).
    + reflexivity.
    + constructor; [|constructor].
      exists ("literacy_rate", CRange (mkBand None (Some (VNum 50)))).
      split; [by left | reflexivity].
    + intros fc [<- | []]. reflexivity.
Defined.
